(** * The OCR summary endpoint (ocr-parse.py): a shallow embedding

    The handler reads every transaction of a DynamoDB table, rolls the
    records up into statistics, writes a summary document to S3 and
    answers with the summary and the (optionally truncated) records.

    The file has three layers:
    - the Python and boto3 library behaviour the handler relies on
      (exceptions, [decimal] under the default context, binary64 floats,
      [datetime] formatting), written out as executable definitions;
    - the functions of ocr-parse.py, one definition per function, with
      the store, the bucket and the clock as an explicit environment;
    - the properties of the handler.

    A Python [str] is held as the string of its UTF-8 bytes; the
    library model is that of CPython 3.11 (Unicode 14). *)

From Stdlib Require Import ZArith NArith List String Ascii Bool Lia Permutation.
Import ListNotations.

Local Open Scope string_scope.
Local Open Scope Z_scope.

Set Warnings "-register-all".

(** ** Exceptions and results *)

(** The exceptions the handler can meet.  [InvalidOperation] and
    [Overflow] are the trapped signals of the decimal context,
    [ClientError] is botocore's service error. *)
Inductive exn : Type :=
| InvalidOperation (condition : string)
| Overflow
| TypeError (msg : string)
| ValueError (msg : string)
| ClientError (code message operation : string).

(** [str(exc)], the text the handler puts in the error body. *)
Definition str_exn (e : exn) : string :=
  match e with
  | InvalidOperation c => "[<class 'decimal." ++ c ++ "'>]"
  | Overflow => "[<class 'decimal.Overflow'>]"
  | TypeError m => m
  | ValueError m => m
  | ClientError code message operation =>
      "An error occurred (" ++ code ++ ") when calling the " ++ operation
        ++ " operation: " ++ message
  end.

(** A computation that returns or raises. *)
Inductive result (A : Type) : Type :=
| Ok (a : A)
| Raise (e : exn).
Arguments Ok {A} a.
Arguments Raise {A} e.

Definition rbind {A B : Type} (r : result A) (k : A -> result B) : result B :=
  match r with
  | Ok a => k a
  | Raise e => Raise e
  end.

Declare Scope result_scope.
Delimit Scope result_scope with result.
Notation "'let?' x ':=' r 'in' k" := (rbind r (fun x => k))
  (at level 10, x pattern, r at level 100, k at level 200) : result_scope.

(** ** Decimal numerals *)

(** The decimal digits of a natural number, most significant first:
    [str(n)] as a list of digit values. *)
Fixpoint digits_aux (fuel : nat) (n : N) (acc : list N) : list N :=
  match fuel with
  | O => (n :: acc)
  | S f =>
      if (n <? 10)%N then n :: acc
      else digits_aux f (n / 10)%N ((n mod 10)%N :: acc)
  end.

Definition digits (n : N) : list N := digits_aux (N.to_nat (N.log2 n)) n [].

Definition digit_char (d : N) : ascii := ascii_of_N (48 + d).

Definition string_of_digits (ds : list N) : string :=
  string_of_list_ascii (map digit_char ds).

(** [str(n)] for a natural number. *)
Definition str_N (n : N) : string := string_of_digits (digits n).

(** [len(str(n))]. *)
Definition ndigits (n : N) : Z := Z.of_nat (List.length (digits n)).

(** [n] written with at least [width] digits, zero padded on the left. *)
Definition pad_N (width : nat) (n : N) : string :=
  let ds := digits n in
  string_of_digits (repeat 0%N (width - List.length ds) ++ ds)%list.

(** ** Text *)

Module PyStr.

(** The characters of a text, each with the bytes that encode it: the
    UTF-8 decoding of the string.  A byte that starts no well-formed
    sequence stands for the lone surrogate [U+DC00 + byte], as under
    the [surrogateescape] handler, so that every string is a text. *)
Definition continuation (n : N) : bool := ((128 <=? n) && (n <=? 191))%N.

Fixpoint decode (bs : list ascii) : list (N * list ascii) :=
  match bs with
  | [] => []
  | b0 :: t0 =>
      let n0 := N_of_ascii b0 in
      let escape (_ : unit) := ((56320 + n0)%N, [b0]) :: decode t0 in
      if (n0 <? 128)%N then (n0, [b0]) :: decode t0
      else if ((194 <=? n0) && (n0 <=? 223))%N then
        match t0 with
        | b1 :: t1 =>
            let n1 := N_of_ascii b1 in
            if continuation n1
            then (((n0 - 192) * 64 + (n1 - 128))%N, [b0; b1]) :: decode t1
            else escape tt
        | _ => escape tt
        end
      else if ((224 <=? n0) && (n0 <=? 239))%N then
        match t0 with
        | b1 :: b2 :: t2 =>
            let n1 := N_of_ascii b1 in
            let n2 := N_of_ascii b2 in
            let second :=
              if (n0 =? 224)%N then ((160 <=? n1) && (n1 <=? 191))%N
              else if (n0 =? 237)%N then ((128 <=? n1) && (n1 <=? 159))%N
              else continuation n1 in
            if second && continuation n2
            then (((n0 - 224) * 4096 + (n1 - 128) * 64 + (n2 - 128))%N,
                  [b0; b1; b2]) :: decode t2
            else escape tt
        | _ => escape tt
        end
      else if ((240 <=? n0) && (n0 <=? 244))%N then
        match t0 with
        | b1 :: b2 :: b3 :: t3 =>
            let n1 := N_of_ascii b1 in
            let n2 := N_of_ascii b2 in
            let n3 := N_of_ascii b3 in
            let second :=
              if (n0 =? 240)%N then ((144 <=? n1) && (n1 <=? 191))%N
              else if (n0 =? 244)%N then ((128 <=? n1) && (n1 <=? 143))%N
              else continuation n1 in
            if second && continuation n2 && continuation n3
            then (((n0 - 240) * 262144 + (n1 - 128) * 4096
                   + (n2 - 128) * 64 + (n3 - 128))%N,
                  [b0; b1; b2; b3]) :: decode t3
            else escape tt
        | _ => escape tt
        end
      else escape tt
  end.

Definition chars (text : string) : list (N * list ascii) :=
  decode (list_ascii_of_string text).

Definition code_points (text : string) : list N := map fst (chars text).

(** [len(text)] *)
Definition len (text : string) : nat := List.length (chars text).

(** The text of the given characters. *)
Definition text_of (cs : list (N * list ascii)) : string :=
  string_of_list_ascii (List.concat (map snd cs)).

Definition in_ranges (ranges : list (N * N)) (c : N) : bool :=
  existsb (fun r => ((fst r <=? c) && (c <=? snd r))%N) ranges.

(** The zeros of the decimal digits of every script (general category
    Nd): each is followed by its digits 1 to 9. *)
Definition decimal_zeros : list N :=
  [48; 1632; 1776; 1984; 2406; 2534; 2662; 2790; 2918; 3046; 3174; 3302;
   3430; 3558; 3664; 3792; 3872; 4160; 4240; 6112; 6160; 6470; 6608; 6784;
   6800; 6992; 7088; 7232; 7248; 42528; 43216; 43264; 43472; 43504; 43600;
   44016; 65296; 66720; 68912; 69734; 69872; 69942; 70096; 70384; 70736;
   70864; 71248; 71360; 71472; 71904; 72016; 72784; 73040; 73120; 92768;
   92864; 93008; 120782; 120792; 120802; 120812; 120822; 123200; 123632;
   125264; 130032]%N.

(** The value of a decimal digit ([Py_UNICODE_TODECIMAL]). *)
Definition decimal_value (c : N) : option N :=
  match find (fun z => ((z <=? c) && (c <? z + 10))%N) decimal_zeros with
  | Some z => Some (c - z)%N
  | None => None
  end.

(** The digits that are not decimal digits: superscripts, subscripts,
    circled and parenthesized digits and the like. *)
Definition other_digits : list (N * N) :=
  [(178, 179); (185, 185); (4969, 4977); (6618, 6618); (8304, 8304);
   (8308, 8313); (8320, 8329); (9312, 9320); (9332, 9340); (9352, 9360);
   (9450, 9450); (9461, 9469); (9471, 9471); (10102, 10110);
   (10112, 10120); (10122, 10130); (68160, 68163); (69216, 69224);
   (69714, 69722); (127232, 127242)]%N.

(** [c.isdigit()] for a character ([Py_UNICODE_ISDIGIT]). *)
Definition is_digit_char (c : N) : bool :=
  match decimal_value c with
  | Some _ => true
  | None => in_ranges other_digits c
  end.

(** [c.isspace()] for a character ([Py_UNICODE_ISSPACE]). *)
Definition is_whitespace (c : N) : bool :=
  in_ranges
    [(9, 13); (28, 32); (133, 133); (160, 160); (5760, 5760); (8192, 8202);
     (8232, 8233); (8239, 8239); (8287, 8287); (12288, 12288)]%N c.

(** [text.isdigit()]: at least one character, and digits only. *)
Definition isdigit (text : string) : bool :=
  match code_points text with
  | [] => false
  | cs => forallb is_digit_char cs
  end.

(** [text.isdecimal()]: at least one character, and decimal digits
    only. *)
Definition isdecimal (text : string) : bool :=
  match code_points text with
  | [] => false
  | cs =>
      forallb (fun c => match decimal_value c with
                        | Some _ => true
                        | None => false
                        end) cs
  end.

End PyStr.

(** ** binary64 floats *)

Module PyFloat.

(** A Python float: not-a-number, an infinity, or the number
    [m * 2^e] with a sign ([m = 0] is a zero). *)
Inductive float : Type :=
| FNaN
| FInf (neg : bool)
| FFinite (neg : bool) (m : N) (e : Z).

(** [num / den] rounded to the nearest integer, ties to even. *)
Definition round_div_even (num den : Z) : Z :=
  let q := num / den in
  let r := num mod den in
  if 2 * r <? den then q
  else if 2 * r =? den then (if Z.even q then q else q + 1)
  else q + 1.

(** [p / q * 2^(-e)] as a fraction. *)
Definition scale2 (p q e : Z) : Z * Z :=
  if 0 <=? e then (p, q * 2 ^ e) else (p * 2 ^ (- e), q).

(** The binary exponent [L] with [2^L <= p/q < 2^(L+1)], for [p, q > 0]. *)
Definition floor_log2_ratio (p q : Z) : Z :=
  let d := Z.log2 p - Z.log2 q in
  let '(num, den) := scale2 p q d in
  if den <=? num then d else d - 1.

(** The binary64 number nearest to [p / q] (round half to even), for
    [0 <= p] and [0 < q]: 53 bits of precision, least exponent -1074,
    overflow to infinity from [2^1024] on. *)
Definition of_ratio (neg : bool) (p q : Z) : float :=
  if p =? 0 then FFinite neg 0 0
  else
    let e := Z.max (floor_log2_ratio p q - 52) (-1074) in
    let '(num, den) := scale2 p q e in
    let m := round_div_even num den in
    let '(m, e) := if m =? 2 ^ 53 then (2 ^ 52, e + 1) else (m, e) in
    if 971 <? e then FInf neg
    else if m =? 0 then FFinite neg 0 0
    else FFinite neg (Z.to_N m) e.

(** The digits of the integer part with a comma before every group of
    three, as the [,] option of the format mini-language writes them. *)
Fixpoint commas (ds : list ascii) : list ascii :=
  match ds with
  | [] => []
  | d :: rest =>
      if (negb (Nat.eqb (List.length rest) 0)
          && Nat.eqb (Nat.modulo (List.length rest) 3) 0)%bool
      then d :: ","%char :: commas rest
      else d :: commas rest
  end.

(** [format(x, ",.2f")]: the exact value rounded half to even at two
    decimal places, thousands separated by commas. *)
Definition format_comma_2f (x : float) : string :=
  match x with
  | FNaN => "nan"
  | FInf neg => if neg then "-inf" else "inf"
  | FFinite neg m e =>
      let '(num, den) := scale2 (Z.of_N m * 100) 1 (- e) in
      let h := Z.to_N (round_div_even num den) in
      (if neg then "-" else "")
        ++ string_of_list_ascii (commas (map digit_char (digits (h / 100)%N)))
        ++ "." ++ pad_N 2 (h mod 100)%N
  end.

End PyFloat.

(** ** The decimal module under its default context *)

Module PyDecimal.

Import PyFloat.

(** A [decimal.Decimal]: a finite number [(-1)^sign * coeff * 10^exp], an
    infinity, or a quiet or signaling NaN with its diagnostic payload. *)
Inductive Decimal : Type :=
| Finite (sign : bool) (coeff : N) (exp : Z)
| Infinity (sign : bool)
| NaN (sign : bool) (signaling : bool) (payload : N).

(** The default context: 28 significant digits, ROUND_HALF_EVEN,
    exponents between -999999 and 999999, and the traps
    InvalidOperation, DivisionByZero and Overflow, so that these three
    raise. *)
Definition prec : Z := 28.
Definition Emax : Z := 999999.
Definition Emin : Z := -999999.
Definition Etiny : Z := Emin - prec + 1.
Definition Etop : Z := Emax - prec + 1.

Definition invalid_operation {A : Type} : result A :=
  Raise (InvalidOperation "InvalidOperation").

(** [c / 10^k] rounded to the nearest integer, ties to even. *)
Definition round_half_even (c : N) (k : Z) : N :=
  Z.to_N (round_div_even (Z.of_N c) (10 ^ k)).

(** Rounding of a finite result to the context ([Decimal._fix]): a
    coefficient of more than [prec] digits is rounded half to even, a
    result above [Emax] overflows, a result below the normal range keeps
    the exponent [Etiny]. *)
Definition _fix (s : bool) (c : N) (e : Z) : result Decimal :=
  if (c =? 0)%N then Ok (Finite s 0 (Z.min (Z.max e Etiny) Emax))
  else
    let exp_min := ndigits c + e - prec in
    if Etop <? exp_min then Raise Overflow
    else
      let exp_min := Z.max exp_min Etiny in
      if e <? exp_min then
        let coeff := round_half_even c (exp_min - e) in
        if prec <? ndigits coeff
        then (if Etop <? exp_min + 1 then Raise Overflow
              else Ok (Finite s (coeff / 10)%N (exp_min + 1)))
        else Ok (Finite s coeff exp_min)
      else Ok (Finite s c e).

(** The signed coefficient. *)
Definition signed (s : bool) (c : N) : Z :=
  if s then - Z.of_N c else Z.of_N c.

(** [a + b] in the default context ([Decimal.__add__]): the exact sum at
    the smaller exponent, then rounded by [_fix].  A signaling NaN and
    the sum of opposite infinities raise InvalidOperation; a quiet NaN
    and an infinity absorb. *)
Definition add (a b : Decimal) : result Decimal :=
  match a, b with
  | NaN _ true _, _ => invalid_operation
  | _, NaN _ true _ => invalid_operation
  | NaN s false p, _ => Ok (NaN s false (p mod 10 ^ 28)%N)
  | _, NaN s false p => Ok (NaN s false (p mod 10 ^ 28)%N)
  | Infinity s1, Infinity s2 =>
      if Bool.eqb s1 s2 then Ok (Infinity s1) else invalid_operation
  | Infinity s, Finite _ _ _ => Ok (Infinity s)
  | Finite _ _ _, Infinity s => Ok (Infinity s)
  | Finite s1 c1 e1, Finite s2 c2 e2 =>
      let e := Z.min e1 e2 in
      let z := signed s1 c1 * 10 ^ (e1 - e) + signed s2 c2 * 10 ^ (e2 - e) in
      if z =? 0
      then _fix (if ((c1 =? 0) && (c2 =? 0))%N then s1 && s2 else false) 0 e
      else _fix (z <? 0) (Z.to_N (Z.abs z)) e
  end.

(** [a > b] ([Decimal.__gt__]): a comparison that involves a NaN raises
    InvalidOperation. *)
Definition gt (a b : Decimal) : result bool :=
  match a, b with
  | NaN _ _ _, _ => invalid_operation
  | _, NaN _ _ _ => invalid_operation
  | Infinity s1, Infinity s2 => Ok (negb s1 && s2)
  | Infinity s, Finite _ _ _ => Ok (negb s)
  | Finite _ _ _, Infinity s => Ok s
  | Finite s1 c1 e1, Finite s2 c2 e2 =>
      let e := Z.min e1 e2 in
      Ok (signed s2 c2 * 10 ^ (e2 - e) <? signed s1 c1 * 10 ^ (e1 - e))
  end.

(** Numeric equality of two finite numbers given by sign, coefficient
    and exponent (the [==] of dictionary keys). *)
Definition finite_eqb (s1 : bool) (c1 : N) (e1 : Z)
    (s2 : bool) (c2 : N) (e2 : Z) : bool :=
  let e := Z.min e1 e2 in
  signed s1 c1 * 10 ^ (e1 - e) =? signed s2 c2 * 10 ^ (e2 - e).

(** *** [Decimal(text)] *)

Definition is_digit (c : ascii) : bool :=
  let n := N_of_ascii c in ((48 <=? n) && (n <=? 57))%N.

Definition lower (c : ascii) : ascii :=
  let n := N_of_ascii c in
  if ((65 <=? n) && (n <=? 90))%N then ascii_of_N (n + 32) else c.

Fixpoint drop_spaces (cs : list N) : list N :=
  match cs with
  | c :: rest => if PyStr.is_whitespace c then drop_spaces rest else cs
  | [] => []
  end.

Definition strip (cs : list N) : list N :=
  rev (drop_spaces (rev (drop_spaces cs))).

(** The characters the parser reads, as ASCII ([numeric_as_ascii]):
    every underscore is dropped, an ASCII character other than the
    null character is kept, whitespace outside ASCII becomes a blank, a
    decimal digit of any script becomes its ASCII digit; any other
    character makes the text unreadable. *)
Fixpoint numeric_as_ascii (cs : list N) : option (list ascii) :=
  match cs with
  | [] => Some []
  | c :: rest =>
      if (c =? 95)%N then numeric_as_ascii rest
      else if ((0 <? c) && (c <=? 127))%N
      then option_map (cons (ascii_of_N c)) (numeric_as_ascii rest)
      else if PyStr.is_whitespace c
      then option_map (cons " "%char) (numeric_as_ascii rest)
      else
        match PyStr.decimal_value c with
        | Some d => option_map (cons (digit_char d)) (numeric_as_ascii rest)
        | None => None
        end
  end.

(** The leading digits of [cs] and what follows them. *)
Fixpoint span_digits (cs : list ascii) : list ascii * list ascii :=
  match cs with
  | c :: rest =>
      if is_digit c
      then let '(ds, tl) := span_digits rest in (c :: ds, tl)
      else ([], cs)
  | [] => ([], [])
  end.

Definition value_of_digits (ds : list ascii) : N :=
  fold_left (fun acc c => (10 * acc + (N_of_ascii c - 48))%N) ds 0%N.

Definition take_sign (cs : list ascii) : bool * list ascii :=
  match cs with
  | "-"%char :: rest => (true, rest)
  | "+"%char :: rest => (false, rest)
  | _ => (false, cs)
  end.

Definition conversion_syntax {A : Type} : result A :=
  Raise (InvalidOperation "ConversionSyntax").

(** The exponent part: nothing, or [e], an optional sign and at least
    one digit, up to the end of the text. *)
Definition parse_exponent (cs : list ascii) : result Z :=
  match cs with
  | [] => Ok 0
  | "e"%char :: rest =>
      let '(neg, rest) := take_sign rest in
      match span_digits rest with
      | ((_ :: _) as ds, []) =>
          Ok (if neg then - Z.of_N (value_of_digits ds)
              else Z.of_N (value_of_digits ds))
      | _ => conversion_syntax
      end
  | _ => conversion_syntax
  end.

(** The constructor is exact, within the limits of the largest context:
    an adjusted exponent of at most 999999999999999999 and an exponent
    of at least -1999999999999999997. *)
Definition MAX_EMAX : Z := 999999999999999999.
Definition MIN_ETINY : Z := -1999999999999999997.

Definition parse_number (s : bool) (cs : list ascii) : result Decimal :=
  let '(int, rest) := span_digits cs in
  let '(frac, rest) :=
    match rest with
    | "."%char :: rest' => span_digits rest'
    | _ => ([], rest)
    end in
  match (int ++ frac)%list with
  | [] => conversion_syntax
  | ds =>
      let? e := parse_exponent rest in
      let c := value_of_digits ds in
      let exp := e - Z.of_nat (List.length frac) in
      if (MAX_EMAX <? exp + ndigits c - 1) || (exp <? MIN_ETINY)
      then invalid_operation
      else Ok (Finite s c exp)
  end%result.

Definition parse_nan (s signaling : bool) (cs : list ascii) : result Decimal :=
  match span_digits cs with
  | (ds, []) => Ok (NaN s signaling (value_of_digits ds))
  | _ => conversion_syntax
  end.

(** [Decimal(text)]: surrounding whitespace and every underscore are
    dropped, decimal digits of any script are read as digits, letters
    are read without regard to case; the text is a signed number with an
    optional fraction and exponent, an infinity, or a NaN.  Anything
    else raises InvalidOperation. *)
Definition Decimal_of_string (text : string) : result Decimal :=
  match numeric_as_ascii (strip (PyStr.code_points text)) with
  | None => conversion_syntax
  | Some cs =>
      let cs := map lower cs in
      let '(s, body) := take_sign cs in
      match body with
      | ["i"; "n"; "f"]%char => Ok (Infinity s)
      | ["i"; "n"; "f"; "i"; "n"; "i"; "t"; "y"]%char => Ok (Infinity s)
      | "n"%char :: "a"%char :: "n"%char :: rest => parse_nan s false rest
      | "s"%char :: "n"%char :: "a"%char :: "n"%char :: rest =>
          parse_nan s true rest
      | _ => parse_number s body
      end
  end.

(** *** [float(d)] *)

(** The binary64 number nearest to a finite decimal. *)
Definition float_of_finite (s : bool) (c : N) (e : Z) : float :=
  if 0 <=? e then of_ratio s (Z.of_N c * 10 ^ e) 1
  else of_ratio s (Z.of_N c) (10 ^ (- e)).

(** [float(d)] ([Decimal.__float__]): correctly rounded; a signaling NaN
    raises ValueError. *)
Definition float_of_Decimal (d : Decimal) : result float :=
  match d with
  | Finite s c e => Ok (float_of_finite s c e)
  | Infinity s => Ok (FInf s)
  | NaN _ false _ => Ok FNaN
  | NaN _ true _ => Raise (ValueError "cannot convert signaling NaN to float")
  end.

(** *** [str(d)] *)

(** The scientific string of a finite decimal ([Decimal.__str__]): plain
    notation when the exponent is at most zero and the number is not too
    small, one digit before the point and an exponent otherwise. *)
Definition str_finite (s : bool) (c : N) (e : Z) : string :=
  let ds := digits c in
  let n := Z.of_nat (List.length ds) in
  let leftdigits := e + n in
  let dotplace := if (e <=? 0) && (-6 <? leftdigits) then leftdigits else 1 in
  let mantissa :=
    if dotplace <=? 0
    then "0." ++ string_of_digits (repeat 0%N (Z.to_nat (- dotplace)) ++ ds)%list
    else if n <=? dotplace
    then string_of_digits (ds ++ repeat 0%N (Z.to_nat (dotplace - n)))%list
    else string_of_digits (firstn (Z.to_nat dotplace) ds)
           ++ "." ++ string_of_digits (skipn (Z.to_nat dotplace) ds) in
  let exponent :=
    if leftdigits =? dotplace then ""
    else "E" ++ (if 0 <=? leftdigits - dotplace then "+" else "-")
           ++ str_N (Z.to_N (Z.abs (leftdigits - dotplace))) in
  (if s then "-" else "") ++ mantissa ++ exponent.

End PyDecimal.

Import PyStr PyFloat PyDecimal.

(** ** Timestamps *)

(** A naive [datetime], as [datetime.utcnow()] returns it.  The clock
    reads the present, so the year has four digits. *)
Record datetime : Type := {
  year : N; month : N; day : N;
  hour : N; minute : N; second : N;
  microsecond : N
}.

(** [t.isoformat()]: the microseconds are written only when they are
    not zero. *)
Definition isoformat (t : datetime) : string :=
  pad_N 4 (year t) ++ "-" ++ pad_N 2 (month t) ++ "-" ++ pad_N 2 (day t)
    ++ "T" ++ pad_N 2 (hour t) ++ ":" ++ pad_N 2 (minute t)
    ++ ":" ++ pad_N 2 (second t)
    ++ (if (microsecond t =? 0)%N then "" else "." ++ pad_N 6 (microsecond t)).

(** [t.strftime("%Y%m%d%H%M%S")]. *)
Definition strftime_YmdHMS (t : datetime) : string :=
  pad_N 4 (year t) ++ pad_N 2 (month t) ++ pad_N 2 (day t)
    ++ pad_N 2 (hour t) ++ pad_N 2 (minute t) ++ pad_N 2 (second t).

(** ** Records of the table *)

(** The Python values boto3 builds from DynamoDB attributes: a number is
    a finite [Decimal] (sign, coefficient, exponent), a string, a
    boolean, NULL, a [Binary], a list, a map, or a set. *)
Inductive value : Type :=
| VDecimal (sign : bool) (coeff : N) (exp : Z)
| VStr (s : string)
| VBool (b : bool)
| VNone
| VBinary (b : string)
| VList (l : list value)
| VMap (m : list (string * value))
| VSet (l : list value).

(** A record of the table, a [Dict[str, Any]] in insertion order. *)
Definition item : Type := list (string * value).

(** Dictionaries as association lists in insertion order, with the
    equality of their keys. *)
Section Dict.
Context {K V : Type} (eqb : K -> K -> bool).

(** [d.get(k)]. *)
Fixpoint dict_get (k : K) (d : list (K * V)) : option V :=
  match d with
  | [] => None
  | (k', v) :: rest => if eqb k' k then Some v else dict_get k rest
  end.

(** [d[k] = v]: an existing key keeps its place (and the key object
    first stored), a new key goes last. *)
Fixpoint dict_set (k : K) (v : V) (d : list (K * V)) : list (K * V) :=
  match d with
  | [] => [(k, v)]
  | (k', v') :: rest =>
      if eqb k' k then (k', v) :: rest else (k', v') :: dict_set k v rest
  end.
End Dict.

(** [item.get(key)] *)
Definition item_get (key : string) (it : item) : option value :=
  dict_get String.eqb key it.

(** A field of a normalized record: a float that replaced a Decimal, or
    the stored value as it was. *)
Inductive field : Type :=
| Float (f : float)
| Raw (v : value).

Definition normalized_item : Type := list (string * field).

(** ** JSON documents *)

(** What [json.dumps] renders; the model keeps the document instead of
    its text. *)
Inductive json : Type :=
| JNull
| JBool (b : bool)
| JInt (n : Z)
| JFloat (f : float)
| JStr (s : string)
| JArr (l : list json)
| JObj (m : list (string * json)).

Definition not_serializable {A : Type} (type_name : string) : result A :=
  Raise (TypeError ("Object of type " ++ type_name ++ " is not JSON serializable")).

(** [json.dumps] on a stored value: a Decimal, a Binary and a set are
    not serializable. *)
Fixpoint json_of_value (v : value) : result json :=
  match v with
  | VDecimal _ _ _ => not_serializable "Decimal"
  | VStr s => Ok (JStr s)
  | VBool b => Ok (JBool b)
  | VNone => Ok JNull
  | VBinary _ => not_serializable "Binary"
  | VList l =>
      let? js :=
        (fix elements (l : list value) : result (list json) :=
           match l with
           | [] => Ok []
           | x :: rest =>
               let? j := json_of_value x in
               let? js := elements rest in
               Ok (j :: js)
           end) l in
      Ok (JArr js)
  | VMap m =>
      let? js :=
        (fix members (m : list (string * value)) : result (list (string * json)) :=
           match m with
           | [] => Ok []
           | (k, x) :: rest =>
               let? j := json_of_value x in
               let? js := members rest in
               Ok ((k, j) :: js)
           end) m in
      Ok (JObj js)
  | VSet _ => not_serializable "set"
  end%result.

Definition json_of_field (x : field) : result json :=
  match x with
  | Float f => Ok (JFloat f)
  | Raw v => json_of_value v
  end.

Fixpoint json_of_normalized_item (it : normalized_item)
  : result (list (string * json)) :=
  match it with
  | [] => Ok []
  | (k, x) :: rest =>
      let? j := json_of_field x in
      let? js := json_of_normalized_item rest in
      Ok ((k, j) :: js)
  end%result.

Fixpoint json_of_transactions (l : list normalized_item) : result (list json) :=
  match l with
  | [] => Ok []
  | it :: rest =>
      let? j := json_of_normalized_item it in
      let? js := json_of_transactions rest in
      Ok (JObj j :: js)
  end%result.

(** ** The store, the bucket and the clock *)

(** A reply of an AWS service: the answer, or a service error that the
    client raises as [ClientError]. *)
Inductive reply (A : Type) : Type :=
| Answer (a : A)
| ServiceError (code message operation : string).
Arguments Answer {A} a.
Arguments ServiceError {A} code message operation.

(** The response of [table.scan]: the page and, when more pages
    remain, the key to continue from. *)
Record scan_response : Type := {
  Items : option (list item);
  LastEvaluatedKey : option item
}.

(** The arguments of [s3.put_object]. *)
Record put_request : Type := {
  Bucket : string;
  Key : string;
  Body : json;
  ContentType : string
}.

(** What the handler is run against: the table's scan (by exclusive
    start key), the bucket's answer to a write, and the readings of the
    clock, one per call of [datetime.utcnow()]. *)
Record environment : Type := {
  table_scan : option item -> reply scan_response;
  s3_put_object : put_request -> reply unit;
  clock : nat -> datetime
}.

(** What the handler changes: the number of clock readings taken and
    the writes the bucket has accepted, oldest first.  The handler
    never reads the bucket; what the bucket holds is [object_at]. *)
Record world : Type := {
  ticks : nat;
  bucket : list put_request
}.

(** What S3 holds under a key of a bucket after the given writes: a
    write replaces the object stored under its key, so it is the last
    write under the key. *)
Definition object_at (bucket_name key : string) (writes : list put_request)
  : option put_request :=
  find (fun r => String.eqb (Bucket r) bucket_name && String.eqb (Key r) key)
       (rev writes).

Definition initial_world : world := {| ticks := 0; bucket := [] |}.

(** A computation over the world that returns, raises, or does not end
    within its fuel ([None]). *)
Definition M (A : Type) : Type := world -> option (result A * world).

Definition ret {A : Type} (a : A) : M A := fun w => Some (Ok a, w).

Definition bind {A B : Type} (c : M A) (k : A -> M B) : M B :=
  fun w =>
    match c w with
    | None => None
    | Some (Raise e, w') => Some (Raise e, w')
    | Some (Ok a, w') => k a w'
    end.

Definition lift {A : Type} (r : result A) : M A := fun w => Some (r, w).

Definition out_of_fuel {A : Type} : M A := fun _ => None.

Declare Scope monad_scope.
Delimit Scope monad_scope with monad.
Notation "x <- c ;; k" := (bind c (fun x => k))
  (at level 61, c at next level, right associativity) : monad_scope.
Notation "' pat <- c ;; k" := (bind c (fun x => match x with pat => k end))
  (at level 61, pat pattern, c at next level, right associativity) : monad_scope.

Definition of_reply {A : Type} (r : reply A) : result A :=
  match r with
  | Answer a => Ok a
  | ServiceError code message operation =>
      Raise (ClientError code message operation)
  end.

(** ** ocr-parse.py *)

Definition BUCKET_NAME : string := "acct-ai-uploads-https".
Definition SUMMARY_PREFIX : string := "summaries/".
Definition TABLE_NAME : string := "transactions".

Definition CORS_HEADERS : list (string * string) :=
  [("Access-Control-Allow-Origin", "*");
   ("Access-Control-Allow-Headers", "Content-Type");
   ("Access-Control-Allow-Methods", "OPTIONS,GET,POST")].

(** [decimal_to_float(value)].  Both callers pass a [Decimal], so only
    the first branch, [float(value)], is ever taken. *)
Definition decimal_to_float (value : Decimal) : result float :=
  float_of_Decimal value.

(** The loop of [normalize_item]: [entries] are the pairs of
    [item.items()] still to visit, [normalized] the dictionary built so
    far. *)
Fixpoint normalize_loop (entries : item) (normalized : normalized_item)
  : result normalized_item :=
  match entries with
  | [] => Ok normalized
  | (key, VDecimal s c e) :: rest =>
      let? f := decimal_to_float (Finite s c e) in
      normalize_loop rest (dict_set String.eqb key (Float f) normalized)
  | (key, v) :: rest =>
      normalize_loop rest (dict_set String.eqb key (Raw v) normalized)
  end%result.

Definition normalize_item (it : item) : result normalized_item :=
  normalize_loop it [].

Fixpoint serialize_transactions (items : list item)
  : result (list normalized_item) :=
  match items with
  | [] => Ok []
  | it :: rest =>
      let? n := normalize_item it in
      let? ns := serialize_transactions rest in
      Ok (n :: ns)
  end%result.

(** [response.get("Items", [])] *)
Definition response_items (response : scan_response) : list item :=
  match Items response with
  | Some l => l
  | None => []
  end.

(** [apply_limit(transactions, limit)] *)
Definition apply_limit {A : Type} (transactions : list A) (limit : option Z)
  : list A :=
  match limit with
  | None => transactions
  | Some n => if n <=? 0 then transactions else firstn (Z.to_nat n) transactions
  end.

(** The amount of a record as a [Decimal]: a missing amount is
    [Decimal("0")], a Decimal is taken as it is, anything else goes
    through [Decimal(str(amount))].  The [str] of a boolean is [True]
    or [False], of NULL it is [None]; the [str] of a list, a map or a
    set starts with a bracket, a brace or [set(], which no numeric
    string does; the [__str__] of a Binary returns bytes, which [str]
    refuses. *)
Definition amount_of (it : item) : result Decimal :=
  match item_get "amount" it with
  | None => Ok (Finite false 0 0)
  | Some (VDecimal s c e) => Ok (Finite s c e)
  | Some (VStr text) => Decimal_of_string text
  | Some (VBool b) => Decimal_of_string (if b then "True" else "False")
  | Some VNone => Decimal_of_string "None"
  | Some (VBinary _) => Raise (TypeError "__str__ returned non-string (type bytes)")
  | Some (VList _) | Some (VMap _) | Some (VSet _) => conversion_syntax
  end.

(** [item.get("vendor", "Unknown")] *)
Definition vendor_of (it : item) : value :=
  match item_get "vendor" it with
  | Some v => v
  | None => VStr "Unknown"
  end.

(** The hashable values, which can be dictionary keys: a list, a map
    and a set are not among them. *)
Inductive key : Type :=
| KDecimal (sign : bool) (coeff : N) (exp : Z)
| KStr (s : string)
| KBool (b : bool)
| KNone
| KBinary (b : string).

Definition value_of_key (k : key) : value :=
  match k with
  | KDecimal s c e => VDecimal s c e
  | KStr s => VStr s
  | KBool b => VBool b
  | KNone => VNone
  | KBinary b => VBinary b
  end.

(** [hash(v)] succeeds or raises TypeError. *)
Definition hashable (v : value) : result key :=
  match v with
  | VDecimal s c e => Ok (KDecimal s c e)
  | VStr s => Ok (KStr s)
  | VBool b => Ok (KBool b)
  | VNone => Ok KNone
  | VBinary b => Ok (KBinary b)
  | VList _ => Raise (TypeError "unhashable type: 'list'")
  | VMap _ => Raise (TypeError "unhashable type: 'dict'")
  | VSet _ => Raise (TypeError "unhashable type: 'set'")
  end.

(** Equality of dictionary keys: strings and binaries by content,
    numbers by value, and a boolean equals the number 1 or 0. *)
Definition key_eqb (a b : key) : bool :=
  match a, b with
  | KStr x, KStr y => String.eqb x y
  | KBinary x, KBinary y => String.eqb x y
  | KNone, KNone => true
  | KBool x, KBool y => Bool.eqb x y
  | KDecimal s1 c1 e1, KDecimal s2 c2 e2 => finite_eqb s1 c1 e1 s2 c2 e2
  | KBool x, KDecimal s c e => finite_eqb false (if x then 1 else 0)%N 0 s c e
  | KDecimal s c e, KBool y => finite_eqb s c e false (if y then 1 else 0)%N 0
  | _, _ => false
  end.

(** The statistics dictionary of [compute_stats]; [biggest_vendor] is a
    key of the vendor dictionary or None. *)
Record Stats : Type := {
  total_transactions : Z;
  total_amount : float;
  biggest_vendor : key;
  generated_at : string
}.

(** The dictionary [build_summary] returns. *)
Record summary_payload : Type := {
  status : string;
  summary : string;
  stats : Stats;
  summaryKey : string
}.

Definition vendor_totals_t : Type := list (key * Decimal).

(** The loop of [compute_stats] over the records still to visit. *)
Fixpoint stats_loop (items : list item) (total_amount : Decimal)
    (vendor_totals : vendor_totals_t) : result (Decimal * vendor_totals_t) :=
  match items with
  | [] => Ok (total_amount, vendor_totals)
  | it :: rest =>
      let? amount := amount_of it in
      let? total_amount := add total_amount amount in
      let? vendor := hashable (vendor_of it) in
      let previous :=
        match dict_get key_eqb vendor vendor_totals with
        | Some t => t
        | None => Finite false 0 0
        end in
      let? t := add previous amount in
      stats_loop rest total_amount (dict_set key_eqb vendor t vendor_totals)
  end%result.

(** [a > b] for the results of [vendor_totals.get]. *)
Definition key_gt (a b : option Decimal) : result bool :=
  match a, b with
  | Some x, Some y => gt x y
  | _, _ => Raise (TypeError "'>' not supported between instances of 'NoneType' and 'decimal.Decimal'")
  end.

(** The loop of [max(d, key=d.get)] over the keys still to visit: a
    later key replaces the current one only when its total is strictly
    greater. *)
Fixpoint max_loop (d : vendor_totals_t) (keys : list key)
    (maxitem : key) (maxval : option Decimal) : result key :=
  match keys with
  | [] => Ok maxitem
  | k :: rest =>
      let val := dict_get key_eqb k d in
      let? greater := key_gt val maxval in
      if greater then max_loop d rest k val else max_loop d rest maxitem maxval
  end%result.

(** [max(vendor_totals, key=vendor_totals.get) if vendor_totals else None] *)
Definition max_vendor (vendor_totals : vendor_totals_t) : result key :=
  match map fst vendor_totals with
  | [] => Ok KNone
  | k :: rest => max_loop vendor_totals rest k (dict_get key_eqb k vendor_totals)
  end.

(** [json.dumps(stats)] *)
Definition json_of_stats (st : Stats) : result json :=
  (let? vendor := json_of_value (value_of_key (biggest_vendor st)) in
   Ok (JObj [("total_transactions", JInt (total_transactions st));
             ("total_amount", JFloat (total_amount st));
             ("biggest_vendor", vendor);
             ("generated_at", JStr (generated_at st))]))%result.

(** The text of [{biggest_vendor or 'N/A'}] in the summary: a false
    value (None, the empty string, False, a zero) gives [N/A], any
    other its [str]; a Binary has no [str]. *)
Definition vendor_text (v : key) : result string :=
  match v with
  | KNone => Ok "N/A"
  | KStr s => Ok (if String.eqb s "" then "N/A" else s)
  | KBool b => Ok (if b then "True" else "N/A")
  | KDecimal s c e => Ok (if (c =? 0)%N then "N/A" else str_finite s c e)
  | KBinary _ => Raise (TypeError "__str__ returned non-string (type bytes)")
  end.

(** [str(n)] for an integer. *)
Definition str_Z (n : Z) : string :=
  if n <? 0 then "-" ++ str_N (Z.to_N (- n)) else str_N (Z.to_N n).

(** The request: the HTTP method and the query string parameters of
    the API Gateway event (the handler also reads the resource and the
    path, and uses neither). *)
Record event : Type := {
  httpMethod : option string;
  queryStringParameters : option (list (string * string))
}.

(** The handler's answer; [body] is the empty string or the JSON
    document that [json.dumps] renders. *)
Inductive http_body : Type :=
| EmptyBody
| JsonBody (doc : json).

Record response : Type := {
  statusCode : Z;
  headers : list (string * string);
  body : http_body
}.

(** [event.get("httpMethod") == "OPTIONS"] *)
Definition is_options (ev : event) : bool :=
  match httpMethod ev with
  | Some method => String.eqb method "OPTIONS"
  | None => false
  end.

(** The leading decimal digits of a text, as their values, and the
    characters that follow them. *)
Fixpoint span_decimal (cs : list (N * list ascii))
  : list N * list (N * list ascii) :=
  match cs with
  | c :: rest =>
      match PyStr.decimal_value (fst c) with
      | Some d => let '(ds, tl) := span_decimal rest in (d :: ds, tl)
      | None => ([], cs)
      end
  | [] => ([], [])
  end.

(** The first 200 characters of [repr(text)], for a text of digits,
    which [repr] puts between quotes as it is. *)
Definition repr_200 (text : string) : string :=
  let quote := (39%N, ["'"%char]) in
  PyStr.text_of (firstn 200 (quote :: PyStr.chars text ++ [quote])%list).

(** [int(limit)] for a text of digits: the decimal digits of any script
    are read, and the interpreter refuses more than 4300 of them; a
    digit that is not a decimal digit (a superscript, a circled digit)
    cannot be read. *)
Definition int_of_digits (text : string) : result Z :=
  let '(ds, rest) := span_decimal (PyStr.chars text) in
  if (4300 <? List.length ds)%nat
  then Raise (ValueError
                ("Exceeds the limit (4300 digits) for integer string conversion: value has "
                   ++ str_N (N.of_nat (List.length ds))
                   ++ " digits; use sys.set_int_max_str_digits() to increase the limit"))
  else
    match ds, rest with
    | _ :: _, [] => Ok (Z.of_N (fold_left (fun acc d => (10 * acc + d)%N) ds 0%N))
    | _, _ =>
        Raise (ValueError
                 ("invalid literal for int() with base 10: " ++ repr_200 text))
    end.

(** The [limit] query parameter as [Optional[int]]. *)
Definition limit_of (ev : event) : result (option Z) :=
  let query_params :=
    match queryStringParameters ev with
    | Some q => q
    | None => []
    end in
  match dict_get String.eqb "limit" query_params with
  | Some limit =>
      if PyStr.isdigit limit
      then (let? n := int_of_digits limit in Ok (Some n))%result
      else Ok None
  | None => Ok None
  end.

Section Handler.

Variable E : environment.

Local Open Scope monad_scope.

(** [datetime.utcnow()] *)
Definition utcnow : M datetime :=
  fun w => Some (Ok (clock E (ticks w)),
                 {| ticks := S (ticks w); bucket := bucket w |}).

(** [table.scan(...)] *)
Definition scan (start : option item) : M scan_response :=
  lift (of_reply (table_scan E start)).

(** [s3.put_object(...)]: when S3 accepts the write it is the latest
    one, and so the object the bucket holds under its key from then on
    ([object_at]), in place of whatever was stored there. *)
Definition put_object (req : put_request) : M unit :=
  fun w =>
    match s3_put_object E req with
    | Answer _ =>
        Some (Ok tt, {| ticks := ticks w; bucket := (bucket w ++ [req])%list |})
    | ServiceError code message operation =>
        Some (Raise (ClientError code message operation), w)
    end.

(** The [while] loop of [scan_all_transactions], at most [fuel]
    further pages. *)
Fixpoint scan_loop (fuel : nat) (response : scan_response)
    (items : list item) : M (list item) :=
  match LastEvaluatedKey response with
  | None => ret items
  | Some key =>
      match fuel with
      | O => out_of_fuel
      | S fuel' =>
          response' <- scan (Some key) ;;
          scan_loop fuel' response' (items ++ response_items response')%list
      end
  end.

Definition scan_all_transactions (fuel : nat) : M (list item) :=
  response <- scan None ;;
  scan_loop fuel response ([] ++ response_items response)%list.

Definition compute_stats (items : list item) : M Stats :=
  '(total, vendor_totals) <-
     lift (stats_loop items (Finite false 0 0) []) ;;
  let count := Z.of_nat (List.length items) in
  vendor <- lift (max_vendor vendor_totals) ;;
  amount <- lift (decimal_to_float total) ;;
  now <- utcnow ;;
  ret {| total_transactions := count;
         total_amount := amount;
         biggest_vendor := vendor;
         generated_at := isoformat now |}.

(** The summary sentence of [build_summary]. *)
Definition summary_text_of (st : Stats) : result string :=
  (let? vendor := vendor_text (biggest_vendor st) in
   Ok (str_Z (total_transactions st) ++ " transactions captured. "
         ++ "Top vendor: " ++ vendor ++ ". "
         ++ "Total spend: $" ++ format_comma_2f (total_amount st) ++ "."))%result.

Definition build_summary (st : Stats) : M summary_payload :=
  summary_text <- lift (summary_text_of st) ;;
  now <- utcnow ;;
  let timestamp := strftime_YmdHMS now in
  let summary_key := SUMMARY_PREFIX ++ "summary-" ++ timestamp ++ ".json" in
  stats_doc <- lift (json_of_stats st) ;;
  _ <- put_object {| Bucket := BUCKET_NAME;
                     Key := summary_key;
                     Body := JObj [("summary", JStr summary_text);
                                   ("stats", stats_doc)];
                     ContentType := "application/json" |} ;;
  ret {| status := "success";
         summary := summary_text;
         stats := st;
         summaryKey := summary_key |}.

(** [json.dumps(empty_payload())] *)
Definition empty_payload : M json :=
  now <- utcnow ;;
  ret (JObj [("status", JStr "no_data");
             ("summary", JStr "No transactions yet.");
             ("stats",
              JObj [("total_transactions", JInt 0);
                    ("total_amount", JFloat (FFinite false 0 0));
                    ("biggest_vendor", JNull);
                    ("generated_at", JStr (isoformat now))]);
             ("summaryKey", JNull);
             ("transactions", JArr [])]).

(** [json.dumps({**summary_payload, "transactions": transactions})] *)
Definition json_of_body (p : summary_payload)
    (transactions : list normalized_item) : result json :=
  (let? stats_doc := json_of_stats (stats p) in
   let? docs := json_of_transactions transactions in
   Ok (JObj [("status", JStr (status p));
             ("summary", JStr (summary p));
             ("stats", stats_doc);
             ("summaryKey", JStr (summaryKey p));
             ("transactions", JArr docs)]))%result.

(** The [try] block of [lambda_handler]. *)
Definition handle (fuel : nat) (ev : event) : M response :=
  if is_options ev
  then ret {| statusCode := 204; headers := CORS_HEADERS; body := EmptyBody |}
  else
    limit_value <- lift (limit_of ev) ;;
    raw_items <- scan_all_transactions fuel ;;
    match raw_items with
    | [] =>
        doc <- empty_payload ;;
        ret {| statusCode := 200; headers := CORS_HEADERS;
               body := JsonBody doc |}
    | _ :: _ =>
        serialized_transactions <- lift (serialize_transactions raw_items) ;;
        st <- compute_stats raw_items ;;
        payload <- build_summary st ;;
        doc <- lift (json_of_body payload
                       (apply_limit serialized_transactions limit_value)) ;;
        ret {| statusCode := 200; headers := CORS_HEADERS;
               body := JsonBody doc |}
    end.

(** The body of an error answer. *)
Definition error_body (exc : exn) : json :=
  JObj [("status", JStr "error"); ("message", JStr (str_exn exc))].

(** [lambda_handler(event, context)]: the answer and the world it
    leaves, or [None] when the scan does not end within [fuel]
    pages. *)
Definition lambda_handler (fuel : nat) (ev : event) (w : world)
  : option (response * world) :=
  match handle fuel ev w with
  | None => None
  | Some (Ok r, w') => Some (r, w')
  | Some (Raise exc, w') =>
      Some ({| statusCode := 500; headers := CORS_HEADERS;
               body := JsonBody (error_body exc) |}, w')
  end.

End Handler.

(** ** Notions used to state the properties *)

(** [doc.get(key)] on a JSON object. *)
Definition json_get (key : string) (doc : json) : option json :=
  match doc with
  | JObj m => dict_get String.eqb key m
  | _ => None
  end.


(** What normalization does to one field. *)
Definition normalize_field (v : value) : field :=
  match v with
  | VDecimal s c e => Float (float_of_finite s c e)
  | _ => Raw v
  end.

(** What normalization does to one entry of a record. *)
Definition normalize_entry (kv : string * value) : string * field :=
  (fst kv, normalize_field (snd kv)).

(** The total of the records whose vendor equals the key [k], summed
    in record order with the context's addition: [None] while no record
    of the group has been met. *)
Fixpoint group_total (k : key) (items : list item) (acc : option Decimal)
  : result (option Decimal) :=
  match items with
  | [] => Ok acc
  | it :: rest =>
      let? amount := amount_of it in
      let? vendor := hashable (vendor_of it) in
      if key_eqb vendor k
      then
        let? t := add (match acc with Some t => t | None => Finite false 0 0 end)
                      amount in
        group_total k rest (Some t)
      else group_total k rest acc
  end%result.

(** A finite amount: sign, coefficient and exponent. *)
Record amount : Type := {
  amount_sign : bool;
  amount_coeff : N;
  amount_exp : Z
}.

Definition Decimal_of_amount (a : amount) : Decimal :=
  Finite (amount_sign a) (amount_coeff a) (amount_exp a).

(** The record [it] carries the amount [a] (a record without an amount
    carries zero). *)
Definition has_amount (it : item) (a : amount) : Prop :=
  amount_of it = Ok (Decimal_of_amount a).

(** The least exponent among the amounts and that of [Decimal("0")],
    the start of every sum. *)
Definition least_exponent (amounts : list amount) : Z :=
  fold_right (fun a m => Z.min (amount_exp a) m) 0 amounts.

(** The exact sum of the amounts in units of [10^G], and the sum of
    their absolute values. *)
Definition scaled_sum (G : Z) (amounts : list amount) : Z :=
  fold_right
    (fun a acc =>
       signed (amount_sign a) (amount_coeff a) * 10 ^ (amount_exp a - G) + acc)
    0 amounts.

Definition scaled_weight (G : Z) (amounts : list amount) : Z :=
  fold_right
    (fun a acc => Z.of_N (amount_coeff a) * 10 ^ (amount_exp a - G) + acc)
    0 amounts.

(** The exact sum of the amounts as a Decimal, at the least exponent. *)
Definition exact_total (amounts : list amount) : Decimal :=
  let G := least_exponent amounts in
  let z := scaled_sum G amounts in
  Finite (z <? 0) (Z.to_N (Z.abs z)) G.

(** The amounts fit the context: no exponent lies below [Etiny], and
    the absolute values, written at the least exponent, add up to fewer
    than [prec] + 1 digits, so that no partial sum in any order needs
    rounding. *)
Definition fits_context (amounts : list amount) : Prop :=
  Forall (fun a => Etiny <= amount_exp a) amounts
  /\ scaled_weight (least_exponent amounts) amounts < 10 ^ prec.

(** A boolean key is the number 1 or 0. *)
Definition numeral (k : key) : option (bool * N * Z) :=
  match k with
  | KDecimal s c e => Some (s, c, e)
  | KBool b => Some (false, if b then 1%N else 0%N, 0)
  | _ => None
  end.

(** The Decimal with signed coefficient [z] and exponent [e]. *)
Definition Decimal_of_Z (z e : Z) : Decimal :=
  Finite (z <? 0) (Z.to_N (Z.abs z)) e.

(** [d] is the exact Decimal of value [v * 10^G], with exponent [e]. *)
Definition exact_repr (G : Z) (d : Decimal) (v e : Z) : Prop :=
  exists z, d = Decimal_of_Z z e /\ G <= e <= 0 /\ z * 10 ^ (e - G) = v.

(** An accumulator of the loop that is exact and leaves [room] below
    [10^prec]. *)
Definition exact_within (G : Z) (room : Z) (t : Decimal) : Prop :=
  exists v e, exact_repr G t v e /\ Z.abs v + room < 10 ^ prec.

(** A finite Decimal. *)
Definition is_finite (d : Decimal) : Prop :=
  exists s c e, d = Finite s c e.

(** ** Example data *)

(** The three records of the specification's scenario and a fourth
    without a vendor. *)
Definition record_a1 : item :=
  [("id", VStr "t1"); ("amount", VDecimal false 1050 (-2)); ("vendor", VStr "A")].
Definition record_b : item :=
  [("id", VStr "t2"); ("amount", VDecimal false 525 (-2)); ("vendor", VStr "B")].
Definition record_a2 : item :=
  [("id", VStr "t3"); ("amount", VDecimal false 425 (-2)); ("vendor", VStr "A")].
Definition record_anonymous : item :=
  [("id", VStr "t4"); ("amount", VDecimal false 1 0)].

(** A record whose amount is a text that is not a number. *)
Definition record_malformed : item :=
  [("id", VStr "t5"); ("amount", VStr "12,50"); ("vendor", VStr "A")].

(** Three records whose sum needs 29 digits: 9007199254740993 and
    twice 4E-13. *)
Definition record_large : item :=
  [("id", VStr "t7"); ("amount", VDecimal false 9007199254740993 0);
   ("vendor", VStr "A")].
Definition record_tiny : item :=
  [("id", VStr "t8"); ("amount", VDecimal false 4 (-13)); ("vendor", VStr "A")].

(** A record whose vendor attribute is NULL. *)
Definition record_null_vendor : item :=
  [("id", VStr "t6"); ("amount", VDecimal false 5 0); ("vendor", VNone)].

Definition noon : datetime :=
  {| year := 2024; month := 3; day := 9;
     hour := 12; minute := 0; second := 7; microsecond := 0 |}.



(** A table that holds the given records on one page. *)
Definition table_of (records : list item) : environment :=
  {| table_scan := fun _ =>
       Answer {| Items := Some records; LastEvaluatedKey := None |};
     s3_put_object := fun _ => Answer tt;
     clock := fun _ => noon |}.

(** The same table with a bucket that refuses every write. *)
Definition table_with_failing_bucket (records : list item) : environment :=
  {| table_scan := fun _ =>
       Answer {| Items := Some records; LastEvaluatedKey := None |};
     s3_put_object := fun _ =>
       ServiceError "AccessDenied" "Access Denied" "PutObject";
     clock := fun _ => noon |}.

(** The statistics of the scenario: three records, 20.00 in total, top
    vendor A. *)
Definition scenario_stats : Stats :=
  {| total_transactions := 3;
     total_amount := FFinite false 5629499534213120 (-48);
     biggest_vendor := KStr "A";
     generated_at := "2024-03-09T12:00:07" |}.

Definition scenario_stats_doc : json :=
  JObj [("total_transactions", JInt 3);
        ("total_amount", JFloat (FFinite false 5629499534213120 (-48)));
        ("biggest_vendor", JStr "A");
        ("generated_at", JStr "2024-03-09T12:00:07")].

Definition scenario_records : list item := [record_a1; record_b; record_a2].

Definition scenario_summary : string :=
  "3 transactions captured. Top vendor: A. Total spend: $20.00.".

Definition scenario_key : string := "summaries/summary-20240309120007.json".

Definition scenario_snapshot : put_request :=
  {| Bucket := "acct-ai-uploads-https";
     Key := scenario_key;
     Body := JObj [("summary", JStr scenario_summary);
                   ("stats", scenario_stats_doc)];
     ContentType := "application/json" |}.

(** The answer to a request without limit over the scenario. *)
Definition scenario_doc : json :=
  JObj [("status", JStr "success");
        ("summary", JStr scenario_summary);
        ("stats", scenario_stats_doc);
        ("summaryKey", JStr scenario_key);
        ("transactions",
         JArr [JObj [("id", JStr "t1");
                     ("amount", JFloat (FFinite false 5910974510923776 (-49)));
                     ("vendor", JStr "A")];
               JObj [("id", JStr "t2");
                     ("amount", JFloat (FFinite false 5910974510923776 (-50)));
                     ("vendor", JStr "B")];
               JObj [("id", JStr "t3");
                     ("amount", JFloat (FFinite false 4785074604081152 (-50)));
                     ("vendor", JStr "A")]])].

Definition scenario_response : response :=
  {| statusCode := 200; headers := CORS_HEADERS; body := JsonBody scenario_doc |}.

Definition scenario_world : world :=
  {| ticks := 2; bucket := [scenario_snapshot] |}.

Definition scenario_amounts : list amount :=
  [{| amount_sign := false; amount_coeff := 1050; amount_exp := -2 |};
   {| amount_sign := false; amount_coeff := 525; amount_exp := -2 |};
   {| amount_sign := false; amount_coeff := 425; amount_exp := -2 |}].

Definition large_amounts : list amount :=
  [{| amount_sign := false; amount_coeff := 9007199254740993; amount_exp := 0 |};
   {| amount_sign := false; amount_coeff := 4; amount_exp := -13 |};
   {| amount_sign := false; amount_coeff := 4; amount_exp := -13 |}].

Definition get_one_request : event :=
  {| httpMethod := Some "GET"; queryStringParameters := Some [("limit", "1")] |}.

Definition get_request : event :=
  {| httpMethod := Some "GET"; queryStringParameters := None |}.

(** ** Further notions and example data *)

(** Between [w] and [w'] the bucket accepted one write, of a snapshot:
    the object is stored in the handler's bucket under a key of the
    form [summaries/summary-....json], where it replaces what was
    stored, and every other key holds what it held. *)
Definition snapshot_written (w w' : world) : Prop :=
  exists request stamp,
    bucket w' = (bucket w ++ [request])%list
    /\ Bucket request = BUCKET_NAME
    /\ Key request = SUMMARY_PREFIX ++ "summary-" ++ stamp ++ ".json"
    /\ forall bucket_name key,
         object_at bucket_name key (bucket w')
         = if String.eqb (Bucket request) bucket_name
              && String.eqb (Key request) key
           then Some request
           else object_at bucket_name key (bucket w).

(** The scan fails with a service error after [n] pages that each
    carry a continuation key. *)
Inductive scan_fails (E : environment)
  : option item -> nat -> string -> string -> string -> Prop :=
| fails_now start code message operation :
    table_scan E start = ServiceError code message operation ->
    scan_fails E start 0 code message operation
| fails_later start r next n code message operation :
    table_scan E start = Answer r ->
    LastEvaluatedKey r = Some next ->
    scan_fails E (Some next) n code message operation ->
    scan_fails E start (S n) code message operation.

(** A table whose every page carries a continuation key. *)
Definition endless_table : environment :=
  {| table_scan := fun _ =>
       Answer {| Items := Some [record_a1];
                 LastEvaluatedKey := Some [("id", VStr "t1")] |};
     s3_put_object := fun _ => Answer tt;
     clock := fun _ => noon |}.

(** A table whose second page cannot be read. *)
Definition broken_table : environment :=
  {| table_scan := fun start =>
       match start with
       | None =>
           Answer {| Items := Some [record_a1; record_b];
                     LastEvaluatedKey := Some [("id", VStr "t2")] |}
       | Some _ =>
           ServiceError "ProvisionedThroughputExceededException"
             "Rate exceeded" "Scan"
       end;
     s3_put_object := fun _ => Answer tt;
     clock := fun _ => noon |}.

(** A table over the given records whose clock advances by a second at
    every reading. *)
Definition ticking_table (records : list item) : environment :=
  {| table_scan := fun _ =>
       Answer {| Items := Some records; LastEvaluatedKey := None |};
     s3_put_object := fun _ => Answer tt;
     clock := fun n =>
       {| year := 2024; month := 3; day := 9;
          hour := 12; minute := 0; second := 7 + N.of_nat n;
          microsecond := 0 |} |}.

(** The answer over the scenario with [limit=1]. *)
Definition limited_doc : json :=
  JObj [("status", JStr "success");
        ("summary", JStr scenario_summary);
        ("stats", scenario_stats_doc);
        ("summaryKey", JStr scenario_key);
        ("transactions",
         JArr [JObj [("id", JStr "t1");
                     ("amount", JFloat (FFinite false 5910974510923776 (-49)));
                     ("vendor", JStr "A")]])].

Definition limited_response : response :=
  {| statusCode := 200; headers := CORS_HEADERS; body := JsonBody limited_doc |}.

(** The answer over the scenario with the ticking clock. *)
Definition ticking_stats_doc : json :=
  JObj [("total_transactions", JInt 3);
        ("total_amount", JFloat (FFinite false 5629499534213120 (-48)));
        ("biggest_vendor", JStr "A");
        ("generated_at", JStr "2024-03-09T12:00:07")].

Definition ticking_doc : json :=
  JObj [("status", JStr "success");
        ("summary", JStr scenario_summary);
        ("stats", ticking_stats_doc);
        ("summaryKey", JStr "summaries/summary-20240309120008.json");
        ("transactions",
         JArr [JObj [("id", JStr "t1");
                     ("amount", JFloat (FFinite false 5910974510923776 (-49)));
                     ("vendor", JStr "A")];
               JObj [("id", JStr "t2");
                     ("amount", JFloat (FFinite false 5910974510923776 (-50)));
                     ("vendor", JStr "B")];
               JObj [("id", JStr "t3");
                     ("amount", JFloat (FFinite false 4785074604081152 (-50)));
                     ("vendor", JStr "A")]])].

Definition ticking_response : response :=
  {| statusCode := 200; headers := CORS_HEADERS; body := JsonBody ticking_doc |}.

Definition ticking_world : world :=
  {| ticks := 2;
     bucket :=
       [{| Bucket := "acct-ai-uploads-https";
           Key := "summaries/summary-20240309120008.json";
           Body := JObj [("summary", JStr scenario_summary);
                         ("stats", ticking_stats_doc)];
           ContentType := "application/json" |}] |}.

(** A record with a number inside a list, and one whose vendor is a
    list. *)
Definition record_nested : item :=
  [("id", VStr "t9"); ("amount", VDecimal false 300 (-2));
   ("vendor", VStr "C"); ("lines", VList [VDecimal false 1 0])].

Definition record_list_vendor : item :=
  [("id", VStr "t10"); ("amount", VDecimal false 300 (-2));
   ("vendor", VList [VStr "C"])].

(** The stored values that are not containers or binaries: numbers,
    strings, booleans and NULL. *)
Definition is_scalar (v : value) : bool :=
  match v with
  | VDecimal _ _ _ | VStr _ | VBool _ | VNone => true
  | _ => false
  end.

(** A record of a third vendor whose amount equals that of [record_b]
    at another exponent. *)
Definition record_c : item :=
  [("id", VStr "t5"); ("amount", VDecimal false 5250 (-3)); ("vendor", VStr "C")].

(** A record all of whose fields are scalars. *)
Definition flat (it : item) : bool :=
  forallb (fun kv => is_scalar (snd kv)) it.

(** What the answer shows for a scalar field: a number as a float, a
    string and a boolean as they are, NULL as null.  (Only scalars are
    rendered with it.) *)
Definition render_scalar (v : value) : json :=
  match v with
  | VDecimal s c e => JFloat (float_of_finite s c e)
  | VStr s => JStr s
  | VBool b => JBool b
  | _ => JNull
  end.

Definition render_record (it : item) : json :=
  JObj (map (fun kv => (fst kv, render_scalar (snd kv))) it).

(** A quiet NaN. *)
Definition is_quiet_nan (d : Decimal) : Prop :=
  exists s p, d = NaN s false p.

(** A record whose amount is the text [nan]. *)
Definition record_nan : item :=
  [("id", VStr "t6"); ("amount", VStr "nan"); ("vendor", VStr "A")].

(** The request with the given text as its limit. *)
Definition limit_request (text : string) : event :=
  {| httpMethod := Some "GET"; queryStringParameters := Some [("limit", text)] |}.

(** A text of 4301 digits. *)
Definition long_digits : string :=
  string_of_list_ascii (repeat "9"%char 4301).

(** *** Reading texts back *)

(** The number a text of ASCII digits writes. *)
Definition read_digits (cs : list ascii) : option N :=
  match cs with
  | [] => None
  | _ => if forallb is_digit cs then Some (value_of_digits cs) else None
  end.

(** The integer a text writes: digits, after a minus sign or not. *)
Definition read_int (text : string) : option Z :=
  match list_ascii_of_string text with
  | [] => None
  | c :: cs =>
      if Ascii.eqb c "-"
      then option_map (fun n => - Z.of_N n) (read_digits cs)
      else option_map Z.of_N (read_digits (c :: cs))
  end.

(** The year, month, day, hour, minute and second a timestamp
    [YYYYMMDDHHMMSS] writes: fourteen digits. *)
Definition read_timestamp (stamp : string) : option (list N) :=
  match list_ascii_of_string stamp with
  | [y1; y2; y3; y4; m1; m2; d1; d2; h1; h2; n1; n2; s1; s2] as cs =>
      if forallb is_digit cs
      then Some [value_of_digits [y1; y2; y3; y4]; value_of_digits [m1; m2];
                 value_of_digits [d1; d2]; value_of_digits [h1; h2];
                 value_of_digits [n1; n2]; value_of_digits [s1; s2]]
      else None
  | _ => None
  end.

(** The digits of a number written with thousands separators: counted
    from the right, every fourth character is a comma and the others
    are digits. *)
Fixpoint ungroup (cs : list ascii) : option (list ascii) :=
  match cs with
  | [] => Some []
  | c :: rest =>
      if Nat.eqb (Nat.modulo (List.length rest) 4) 3
      then (if Ascii.eqb c "," then ungroup rest else None)
      else (if is_digit c then option_map (cons c) (ungroup rest) else None)
  end.

(** The sign and the number of hundredths that an amount [-d,ddd.dd]
    writes: a minus sign or none, units that start with a digit and are
    separated by thousands, a point, two digits. *)
Definition read_money (text : string) : option (bool * N) :=
  let cs := list_ascii_of_string text in
  let '(neg, cs) :=
    match cs with
    | c :: rest => if Ascii.eqb c "-" then (true, rest) else (false, cs)
    | [] => (false, cs)
    end in
  match rev cs with
  | c2 :: c1 :: point :: units_rev =>
      match rev units_rev with
      | c0 :: _ =>
          match ungroup (rev units_rev) with
          | Some units =>
              if Ascii.eqb point "." && is_digit c0 && is_digit c1 && is_digit c2
              then Some (neg, value_of_digits (units ++ [c1; c2]))
              else None
          | None => None
          end
      | [] => None
      end
  | _ => None
  end.

(** [h] hundredths are the amount [m * 2^e] to the nearest hundredth,
    an amount half way between two going to the even one. *)
Definition nearest_hundredth (m : N) (e : Z) (h : N) : Prop :=
  let num := 100 * Z.of_N m * 2 ^ Z.max e 0 in
  let den := 2 ^ Z.max (- e) 0 in
  2 * Z.abs (Z.of_N h * den - num) <= den
  /\ (2 * Z.abs (Z.of_N h * den - num) = den -> Z.even (Z.of_N h) = true).

(** The text shows the amount [x] with thousands separators and two
    decimal places. *)
Definition shows_amount (x : float) (money : string) : Prop :=
  match x with
  | FNaN => money = "nan"
  | FInf neg => money = if neg then "-inf" else "inf"
  | FFinite neg m e =>
      exists h, read_money money = Some (neg, h) /\ nearest_hundredth m e h
  end.

(** A reading of the clock in the present: a year of four digits and
    the other fields in their ranges. *)
Definition present_datetime (t : datetime) : bool :=
  ((1000 <=? year t) && (year t <=? 9999)
   && (1 <=? month t) && (month t <=? 12)
   && (1 <=? day t) && (day t <=? 31)
   && (hour t <=? 23) && (minute t <=? 59) && (second t <=? 59))%N.

(** The top vendors that [json.dumps] and the summary text can show: a
    string, a boolean or None. *)
Definition printable_vendor (k : key) : bool :=
  match k with
  | KStr _ | KBool _ | KNone => true
  | KDecimal _ _ _ | KBinary _ => false
  end.

(** A record whose vendor is a number. *)
Definition record_numeric_vendor : item :=
  [("id", VStr "t7"); ("amount", VDecimal false 300 (-2));
   ("vendor", VDecimal false 7 0)].

(** * Properties *)

(** ** The model at work *)

(** The library model on values computed with CPython 3.11. *)
Example Decimal_of_string_examples :
  Decimal_of_string " 1_0.5e3 " = Ok (Finite false 105 2)
  /\ Decimal_of_string "+.5E-2" = Ok (Finite false 5 (-3))
  /\ Decimal_of_string "-Inf" = Ok (Infinity true)
  /\ Decimal_of_string "nan123" = Ok (NaN false false 123)
  /\ Decimal_of_string "12,50" = Raise (InvalidOperation "ConversionSyntax")
  /\ Decimal_of_string "True" = Raise (InvalidOperation "ConversionSyntax")
  /\ Decimal_of_string "1E1000000000000000000"
     = Raise (InvalidOperation "InvalidOperation").
Proof. repeat split. Qed.

(** Texts in other scripts, on values computed with CPython 3.11: the
    decimal digits of every script are digits for [isdigit], [int] and
    [Decimal]; a superscript is a digit for [isdigit] only. *)
Example unicode_examples :
  code_points "a²١€" = [97; 178; 1633; 8364]%N
  /\ len "a²١€" = 4%nat
  /\ isdigit "١٢" = true /\ isdigit "²" = true /\ isdigit "½" = false
  /\ isdigit "" = false /\ isdigit "-1" = false
  /\ isdecimal "١٢" = true /\ isdecimal "²" = false
  /\ Decimal_of_string "٣" = Ok (Finite false 3 0)
  /\ Decimal_of_string "-٣.٥e٢" = Ok (Finite true 35 1)
  /\ Decimal_of_string "²" = Raise (InvalidOperation "ConversionSyntax")
  /\ amount_of [("amount", VStr "٣")] = Ok (Finite false 3 0).
Proof. repeat split; vm_compute; reflexivity. Qed.

Example add_examples :
  add (Finite false 1 (-1)) (Finite false 2 (-1)) = Ok (Finite false 3 (-1))
  /\ add (Finite false 9999999999999999999999999999 0) (Finite false 5 (-1))
     = Ok (Finite false 1000000000000000000000000000 1)
  /\ add (Finite false 9999999999999999999999999998 0) (Finite false 5 (-1))
     = Ok (Finite false 9999999999999999999999999998 0)
  /\ add (Finite false 1 0) (Finite true 1 (-30))
     = Ok (Finite false 1000000000000000000000000000 (-27))
  /\ add (Finite false 5 0) (Finite true 5 0) = Ok (Finite false 0 0)
  /\ add (Infinity false) (Infinity true)
     = Raise (InvalidOperation "InvalidOperation").
Proof. repeat split; vm_compute; reflexivity. Qed.

Example float_examples :
  float_of_finite false 1 (-1) = FFinite false 7205759403792794 (-56)
  /\ float_of_finite false 9007199254740993 0 = FFinite false 4503599627370496 1
  /\ float_of_finite false 17976931348623159 292 = FInf false
  /\ float_of_finite false 247 (-326) = FFinite false 0 0
  /\ format_comma_2f (float_of_finite false 1234567891 (-3)) = "1,234,567.89"
  /\ format_comma_2f (float_of_finite false 2675 (-3)) = "2.67"
  /\ format_comma_2f (float_of_finite true 1 (-3)) = "-0.00".
Proof. repeat split; vm_compute; reflexivity. Qed.

(** The scenario of three records: 20.00 in total, A on top (14.75
    against 5.25), the snapshot written and repeated in the answer. *)
Example scenario_answer :
  lambda_handler (table_of scenario_records) 0 get_request initial_world
  = Some (scenario_response, scenario_world).
Proof. vm_compute. reflexivity. Qed.

(** With [limit=1] the answer carries the first record only. *)
Example scenario_limit_one :
  exists resp w' doc,
    lambda_handler (table_of scenario_records) 0 get_one_request initial_world
    = Some (resp, w')
    /\ body resp = JsonBody doc
    /\ json_get "transactions" doc
       = Some (JArr [JObj [("id", JStr "t1");
                           ("amount", JFloat (FFinite false 5910974510923776 (-49)));
                           ("vendor", JStr "A")]]).
Proof.
  eexists. eexists. eexists. split; [vm_compute; reflexivity|].
  split; reflexivity.
Qed.

(** A record without a vendor counts under [Unknown]. *)
Example missing_vendor_is_unknown :
  exists st w',
    compute_stats (table_of []) [record_anonymous] initial_world
    = Some (Ok st, w')
    /\ biggest_vendor st = KStr "Unknown".
Proof.
  eexists. eexists. split; [vm_compute; reflexivity | reflexivity].
Qed.

(** ** The result and world monads *)

Lemma rbind_ok {A B : Type} (r : result A) (k : A -> result B) (b : B) :
  rbind r k = Ok b -> exists a, r = Ok a /\ k a = Ok b.
Proof.
  destruct r as [a|e]; simpl; intros H; [eauto | discriminate].
Qed.

Lemma bind_ok {A B : Type} (c : M A) (k : A -> M B) (w w' : world) (b : B) :
  bind c k w = Some (Ok b, w') ->
  exists a w1, c w = Some (Ok a, w1) /\ k a w1 = Some (Ok b, w').
Proof.
  unfold bind. destruct (c w) as [[[a|e] w1]|]; intros H;
    [eauto | discriminate | discriminate].
Qed.

Lemma lift_ok {A : Type} (r : result A) (w w' : world) (a : A) :
  lift r w = Some (Ok a, w') -> r = Ok a /\ w' = w.
Proof.
  unfold lift. intros H. injection H as -> ->. auto.
Qed.

(** ** Truncation *)

Lemma firstn_min_length {A : Type} (n : nat) (l : list A) :
  firstn (Nat.min n (List.length l)) l = firstn n l.
Proof.
  destruct (Nat.le_ge_cases n (List.length l)) as [H|H].
  - now rewrite Nat.min_l.
  - rewrite Nat.min_r by exact H. rewrite firstn_all.
    symmetry. now apply firstn_all2.
Qed.

(** C5.  With a positive limit, [apply_limit] returns the first
    [min(limit, len)] records in their order; with no limit, a zero or a
    negative one it returns the list as it is. *)
Theorem apply_limit_truncation {A : Type} (records : list A) (limit : Z) :
  (0 < limit ->
   apply_limit records (Some limit)
   = firstn (Z.to_nat (Z.min limit (Z.of_nat (List.length records)))) records)
  /\ (limit <= 0 -> apply_limit records (Some limit) = records)
  /\ apply_limit records None = records.
Proof.
  unfold apply_limit. repeat split.
  - intros H. destruct (Z.leb_spec limit 0) as [Hle|_]; [lia|].
    rewrite Z2Nat.inj_min, Nat2Z.id. symmetry. apply firstn_min_length.
  - intros H. destruct (Z.leb_spec limit 0) as [_|Hgt]; [reflexivity | lia].
Qed.

Lemma apply_limit_truncation_witness :
  apply_limit [1; 2; 3] (Some 2) = [1; 2]
  /\ apply_limit [1; 2; 3] (Some 7) = [1; 2; 3]
  /\ apply_limit [1; 2; 3] (Some (-4)) = [1; 2; 3].
Proof.
  split; [|split].
  - exact (proj1 (apply_limit_truncation [1; 2; 3] 2) eq_refl).
  - exact (proj1 (apply_limit_truncation [1; 2; 3] 7) eq_refl).
  - refine (proj1 (proj2 (apply_limit_truncation [1; 2; 3] (-4))) _).
    discriminate.
Defined.

(** ** Normalization *)

Lemma dict_set_fresh {V : Type} (key : string) (x : V) (d : list (string * V)) :
  ~ In key (map fst d) ->
  dict_set String.eqb key x d = (d ++ [(key, x)])%list.
Proof.
  induction d as [|[k v] d IH]; simpl; intros Hfresh; [reflexivity|].
  destruct (String.eqb_spec k key) as [->|Hne].
  - exfalso. apply Hfresh. now left.
  - f_equal. apply IH. intros Hin. apply Hfresh. now right.
Qed.

Lemma normalize_loop_spec (entries : item) (normalized : normalized_item) :
  NoDup (map fst entries) ->
  (forall k, In k (map fst entries) -> ~ In k (map fst normalized)) ->
  normalize_loop entries normalized
  = Ok (normalized ++ map normalize_entry entries)%list.
Proof.
  revert normalized.
  induction entries as [|[key v] rest IH]; intros normalized Hnodup Hfresh.
  - simpl. now rewrite app_nil_r.
  - inversion Hnodup as [|? ? Hnotin Hrest]; subst.
    assert (Hkey : ~ In key (map fst normalized)) by (apply Hfresh; now left).
    assert (Hstep : forall x : field,
               normalize_loop rest (dict_set String.eqb key x normalized)
               = Ok (normalized ++ (key, x) :: map normalize_entry rest)%list).
    { intros x. rewrite IH.
      - rewrite (dict_set_fresh key x normalized Hkey).
        now rewrite <- app_assoc.
      - exact Hrest.
      - intros k Hk. rewrite (dict_set_fresh key x normalized Hkey).
        rewrite map_app, in_app_iff. simpl. intros [Hin|[<-|[]]].
        + apply (Hfresh k); [now right | exact Hin].
        + now apply Hnotin. }
    destruct v; simpl; apply Hstep.
Qed.

Lemma normalize_item_spec (it : item) :
  NoDup (map fst it) ->
  normalize_item it = Ok (map normalize_entry it).
Proof.
  intros Hnodup. unfold normalize_item.
  rewrite normalize_loop_spec; auto.
Qed.

(** C6.  Normalization keeps every record and, in every record, every
    key in its place; a field whose value is itself a Decimal becomes
    the float of that Decimal, and every other field keeps its value as
    it is, whatever the key: a list, a map or a set is not looked into,
    so the Decimals inside it stay.  (The keys of a record are
    distinct, as those of a dictionary are.) *)
Theorem serialize_transactions_normalizes (items : list item) :
  Forall (fun it => NoDup (map fst it)) items ->
  serialize_transactions items
  = Ok (map (map (fun kv => (fst kv, normalize_field (snd kv)))) items)
  /\ (forall s c e,
        normalize_field (VDecimal s c e) = Float (float_of_finite s c e))
  /\ (forall v, (forall s c e, v <> VDecimal s c e) ->
                normalize_field v = Raw v).
Proof.
  intros Hitems. split; [|split].
  - induction Hitems as [|it rest Hit _ IH]; simpl; [reflexivity|].
    rewrite (normalize_item_spec it Hit). simpl. rewrite IH. reflexivity.
  - reflexivity.
  - intros v Hv. destruct v; try reflexivity. now elim (Hv sign coeff exp).
Qed.

Lemma normalize_loop_total (entries : item) (normalized : normalized_item) :
  exists r, normalize_loop entries normalized = Ok r.
Proof.
  revert normalized.
  induction entries as [|[key v] rest IH]; intros normalized; simpl.
  - eauto.
  - destruct v; simpl; apply IH.
Qed.

Lemma serialize_transactions_total (items : list item) :
  exists l, serialize_transactions items = Ok l.
Proof.
  induction items as [|it rest [l IH]]; simpl; [eauto|].
  unfold normalize_item.
  destruct (normalize_loop_total it []) as [n ->]. simpl.
  rewrite IH. simpl. eauto.
Qed.

Lemma serialize_transactions_normalizes_witness :
  serialize_transactions [record_a1; record_anonymous]
  = Ok [[("id", Raw (VStr "t1"));
         ("amount", Float (FFinite false 5910974510923776 (-49)));
         ("vendor", Raw (VStr "A"))];
        [("id", Raw (VStr "t4")); ("amount", Float (FFinite false 4503599627370496 (-52)))]].
Proof.
  refine (proj1 (serialize_transactions_normalizes [record_a1; record_anonymous] _)).
  repeat constructor; simpl; intuition discriminate.
Defined.

(** A Decimal inside a list is a decimal value of a field that
    normalization does not convert: the record keeps it, and the
    normalized record is not one [json.dumps] renders. *)
Lemma nested_decimal_counterexample :
  exists normalized,
    serialize_transactions [record_nested] = Ok [normalized]
    /\ dict_get String.eqb "lines" normalized
       = Some (Raw (VList [VDecimal false 1 0]))
    /\ json_of_transactions [normalized]
       = Raise (TypeError "Object of type Decimal is not JSON serializable").
Proof.
  eexists. split; [vm_compute; reflexivity|].
  split; vm_compute; reflexivity.
Qed.

(** ** The record loader *)

Lemma scan_answer (E : environment) (start : option item)
    (r : scan_response) (w : world) :
  table_scan E start = Answer r -> scan E start w = Some (Ok r, w).
Proof.
  unfold scan, lift. now intros ->.
Qed.




(** The loader reads the table and nothing else: it leaves the world
    as it found it. *)
Lemma scan_world (E : environment) (start : option item) (w w' : world)
    (r : result scan_response) :
  scan E start w = Some (r, w') -> w' = w.
Proof.
  unfold scan, lift. now intros [= _ <-].
Qed.

Lemma scan_loop_world (E : environment) (fuel : nat) :
  forall response items w w' (r : result (list item)),
    scan_loop E fuel response items w = Some (r, w') -> w' = w.
Proof.
  induction fuel as [|fuel IH]; intros response items w w' r; simpl;
    destruct (LastEvaluatedKey response) as [key|]; unfold ret, out_of_fuel;
    try (now intros [= _ <-]); try discriminate.
  unfold bind. destruct (scan E (Some key) w) as [[[r1|e] w1]|] eqn:Hscan;
    try discriminate.
  - apply scan_world in Hscan. subst w1. apply IH.
  - apply scan_world in Hscan. subst w1. now intros [= _ <-].
Qed.

Lemma scan_all_transactions_world (E : environment) (fuel : nat)
    (w w' : world) (r : result (list item)) :
  scan_all_transactions E fuel w = Some (r, w') -> w' = w.
Proof.
  unfold scan_all_transactions, bind.
  destruct (scan E None w) as [[[r1|e] w1]|] eqn:Hscan; try discriminate.
  - apply scan_world in Hscan. subst w1. apply scan_loop_world.
  - apply scan_world in Hscan. subst w1. now intros [= _ <-].
Qed.

(** ** The empty table *)

(** C3.  When the loader returns no record (the request is not a
    preflight and its limit, if any, was read), the handler answers 200
    with the fixed payload: status [no_data], no transactions, a null
    summaryKey, a count of zero and a total of zero; the bucket is as it
    was, so nothing was published. *)
Theorem empty_table_sentinel (E : environment) (fuel : nat) (ev : event)
    (limit : option Z) (w w1 : world) :
  is_options ev = false ->
  limit_of ev = Ok limit ->
  scan_all_transactions E fuel w = Some (Ok [], w1) ->
  lambda_handler E fuel ev w
  = Some ({| statusCode := 200;
             headers := CORS_HEADERS;
             body := JsonBody
               (JObj [("status", JStr "no_data");
                      ("summary", JStr "No transactions yet.");
                      ("stats",
                       JObj [("total_transactions", JInt 0);
                             ("total_amount", JFloat (FFinite false 0 0));
                             ("biggest_vendor", JNull);
                             ("generated_at", JStr (isoformat (clock E (ticks w))))]);
                      ("summaryKey", JNull);
                      ("transactions", JArr [])]) |},
          {| ticks := S (ticks w); bucket := bucket w |}).
Proof.
  intros Hmethod Hlimit Hscan.
  assert (w1 = w) by (eapply scan_all_transactions_world; eassumption). subst w1.
  unfold lambda_handler, handle. rewrite Hmethod.
  unfold bind at 1. unfold lift at 1. rewrite Hlimit.
  unfold bind at 1. rewrite Hscan. reflexivity.
Qed.

Lemma empty_table_sentinel_witness :
  exists doc,
    lambda_handler (table_of []) 0 get_request initial_world
    = Some ({| statusCode := 200; headers := CORS_HEADERS; body := JsonBody doc |},
            {| ticks := 1; bucket := [] |})
    /\ json_get "status" doc = Some (JStr "no_data")
    /\ json_get "summaryKey" doc = Some JNull
    /\ json_get "transactions" doc = Some (JArr []).
Proof.
  eexists. split.
  - exact (empty_table_sentinel (table_of []) 0 get_request None
             initial_world initial_world eq_refl eq_refl eq_refl).
  - repeat split.
Defined.

(** ** Malformed amounts *)

Lemma stats_loop_malformed (items : list item) (it : item) (exc : exn) :
  In it items ->
  amount_of it = Raise exc ->
  forall total vendor_totals,
    exists exc', stats_loop items total vendor_totals = Raise exc'.
Proof.
  intros Hin Hbad.
  induction items as [|it0 rest IH]; [destruct Hin|].
  intros total vendor_totals. simpl.
  destruct (amount_of it0) as [amount|e0] eqn:Hamount; simpl; [|eauto].
  destruct (add total amount) as [total'|e1]; simpl; [|eauto].
  destruct (hashable (vendor_of it0)) as [vendor|e2]; simpl; [|eauto].
  match goal with
  | |- context [rbind ?r _] => destruct r as [t|e3]; simpl; [|eauto]
  end.
  destruct Hin as [->|Hin]; [congruence|]. now apply IH.
Qed.

Lemma compute_stats_malformed (E : environment) (items : list item)
    (it : item) (exc : exn) (w : world) :
  In it items ->
  amount_of it = Raise exc ->
  exists exc', compute_stats E items w = Some (Raise exc', w).
Proof.
  intros Hin Hbad.
  destruct (stats_loop_malformed items it exc Hin Hbad (Finite false 0 0) [])
    as [exc' Hloop].
  exists exc'. unfold compute_stats, bind, lift. now rewrite Hloop.
Qed.

(** C4.  When a loaded record has an amount that cannot be read as a
    Decimal, the request fails as a whole: the answer is 500 with the
    body [{"status": "error", "message": ...}] and nothing else, and
    the world is untouched (nothing was published). *)
Theorem malformed_amount_fails (E : environment) (fuel : nat) (ev : event)
    (limit : option Z) (w w1 : world) (items : list item) (it : item)
    (exc : exn) :
  is_options ev = false ->
  limit_of ev = Ok limit ->
  scan_all_transactions E fuel w = Some (Ok items, w1) ->
  In it items ->
  amount_of it = Raise exc ->
  exists exc',
    lambda_handler E fuel ev w
    = Some ({| statusCode := 500;
               headers := CORS_HEADERS;
               body := JsonBody (JObj [("status", JStr "error");
                                       ("message", JStr (str_exn exc'))]) |},
            w).
Proof.
  intros Hmethod Hlimit Hscan Hin Hbad.
  assert (w1 = w) by (eapply scan_all_transactions_world; eassumption). subst w1.
  destruct (compute_stats_malformed E items it exc w Hin Hbad) as [exc' Hstats].
  destruct (serialize_transactions_total items) as [serialized Hser].
  exists exc'.
  unfold lambda_handler, handle. rewrite Hmethod.
  unfold bind at 1. unfold lift at 1. rewrite Hlimit.
  unfold bind at 1. rewrite Hscan.
  destruct items as [|it0 rest]; [destruct Hin|].
  unfold bind at 1. unfold lift at 1. rewrite Hser.
  unfold bind at 1. rewrite Hstats. reflexivity.
Qed.

Lemma malformed_amount_fails_witness :
  exists exc',
    lambda_handler (table_of [record_a1; record_malformed]) 0 get_request
      initial_world
    = Some ({| statusCode := 500;
               headers := CORS_HEADERS;
               body := JsonBody (JObj [("status", JStr "error");
                                       ("message", JStr (str_exn exc'))]) |},
            initial_world).
Proof.
  refine (malformed_amount_fails (table_of [record_a1; record_malformed]) 0
            get_request None initial_world initial_world
            [record_a1; record_malformed] record_malformed
            (InvalidOperation "ConversionSyntax") eq_refl eq_refl eq_refl _
            eq_refl).
  right. left. reflexivity.
Defined.

(** ** The snapshot publisher *)

(** ** Success and failure of a request *)

Lemma utcnow_bucket (E : environment) (w w' : world) (r : result datetime) :
  utcnow E w = Some (r, w') -> bucket w' = bucket w.
Proof.
  unfold utcnow. now intros [= _ <-].
Qed.

(** Aggregation does not write to the bucket. *)
Lemma compute_stats_bucket (E : environment) (items : list item)
    (w w' : world) (r : result Stats) :
  compute_stats E items w = Some (r, w') -> bucket w' = bucket w.
Proof.
  unfold compute_stats, bind, lift, ret.
  destruct (stats_loop items (Finite false 0 0) []) as [[total vt]|e];
    [|now intros [= _ <-]].
  destruct (max_vendor vt) as [vendor|e]; [|now intros [= _ <-]].
  destruct (decimal_to_float total) as [amount|e]; [|now intros [= _ <-]].
  unfold utcnow. now intros [= _ <-].
Qed.

(** What [build_summary] does, read off its result. *)
Lemma build_summary_ok (E : environment) (st : Stats) (w w' : world)
    (p : summary_payload) :
  build_summary E st w = Some (Ok p, w') ->
  exists text stats_doc,
    json_of_stats st = Ok stats_doc
    /\ p = {| status := "success"; summary := text; stats := st;
              summaryKey := SUMMARY_PREFIX ++ "summary-"
                              ++ strftime_YmdHMS (clock E (ticks w)) ++ ".json" |}
    /\ s3_put_object E
         {| Bucket := BUCKET_NAME; Key := summaryKey p;
            Body := JObj [("summary", JStr text); ("stats", stats_doc)];
            ContentType := "application/json" |} = Answer tt
    /\ bucket w'
       = (bucket w ++
          [{| Bucket := BUCKET_NAME; Key := summaryKey p;
              Body := JObj [("summary", JStr text); ("stats", stats_doc)];
              ContentType := "application/json" |}])%list.
Proof.
  unfold build_summary, bind, lift.
  destruct (summary_text_of st) as [text|e]; [|discriminate].
  unfold utcnow. cbv beta iota.
  destruct (json_of_stats st) as [stats_doc|e]; [|discriminate].
  cbv beta iota. unfold put_object. cbv beta iota zeta.
  match goal with
  | |- context [s3_put_object E ?req] =>
      destruct (s3_put_object E req) as [[]|code message operation] eqn:Hput
  end; [|discriminate].
  unfold ret. intros [= <- <-].
  exists text, stats_doc. simpl. auto.
Qed.

(** A failing write leaves the bucket as it was. *)
Lemma build_summary_bucket_on_raise (E : environment) (st : Stats)
    (w w' : world) (exc : exn) :
  build_summary E st w = Some (Raise exc, w') -> bucket w' = bucket w.
Proof.
  unfold build_summary, bind, lift.
  destruct (summary_text_of st) as [text|e]; [|now intros [= _ <-]].
  unfold utcnow. cbv beta iota.
  destruct (json_of_stats st) as [stats_doc|e]; [|now intros [= _ <-]].
  cbv beta iota. unfold put_object. cbv beta iota zeta.
  match goal with
  | |- context [s3_put_object E ?req] =>
      destruct (s3_put_object E req) as [[]|code message operation]
  end.
  - unfold ret. discriminate.
  - now intros [= _ <-].
Qed.

(** An answer with status [success] comes from the full path: the
    records were aggregated, the snapshot was written, and the body
    repeats what was written. *)
Lemma handler_success (E : environment) (fuel : nat) (ev : event)
    (w w' : world) (resp : response) (doc : json) :
  lambda_handler E fuel ev w = Some (resp, w') ->
  body resp = JsonBody doc ->
  json_get "status" doc = Some (JStr "success") ->
  exists text stats_doc key docs,
    doc = JObj [("status", JStr "success");
                ("summary", JStr text);
                ("stats", stats_doc);
                ("summaryKey", JStr key);
                ("transactions", JArr docs)]
    /\ s3_put_object E
         {| Bucket := BUCKET_NAME; Key := key;
            Body := JObj [("summary", JStr text); ("stats", stats_doc)];
            ContentType := "application/json" |} = Answer tt
    /\ bucket w'
       = (bucket w ++
          [{| Bucket := BUCKET_NAME; Key := key;
              Body := JObj [("summary", JStr text); ("stats", stats_doc)];
              ContentType := "application/json" |}])%list.
Proof.
  unfold lambda_handler.
  destruct (handle E fuel ev w) as [[[r|exc] w1]|] eqn:Hh; try discriminate.
  - intros [= <- <-] Hbody Hstatus.
    unfold handle in Hh. destruct (is_options ev).
    + unfold ret in Hh. injection Hh as <- <-. discriminate.
    + apply bind_ok in Hh as (limit & w2 & Hlimit & Hh).
      apply lift_ok in Hlimit as [_ ->].
      apply bind_ok in Hh as (items & w2 & Hscan & Hh).
      apply scan_all_transactions_world in Hscan. subst w2.
      destruct items as [|it rest].
      * apply bind_ok in Hh as (d & w3 & Hempty & Hret).
        unfold ret in Hret. injection Hret as <- <-.
        apply bind_ok in Hempty as (now & w4 & _ & Hret).
        unfold ret in Hret. injection Hret as <- <-.
        simpl in Hbody. injection Hbody as <-. discriminate.
      * apply bind_ok in Hh as (serialized & w2 & Hser & Hh).
        apply lift_ok in Hser as [_ ->].
        apply bind_ok in Hh as (st & w2 & Hstats & Hh).
        apply compute_stats_bucket in Hstats.
        apply bind_ok in Hh as (p & w3 & Hsummary & Hh).
        apply build_summary_ok in Hsummary
          as (text & stats_doc & Hdoc & Hp & Hput & Hbucket).
        apply bind_ok in Hh as (d & w4 & Hjson & Hret).
        apply lift_ok in Hjson as [Hjson ->].
        unfold ret in Hret. injection Hret as <- <-.
        simpl in Hbody. injection Hbody as <-.
        unfold json_of_body in Hjson.
        apply rbind_ok in Hjson as (stats_doc' & Hdoc' & Hjson).
        apply rbind_ok in Hjson as (docs & _ & Hjson).
        injection Hjson as <-.
        assert (Hst : stats p = st) by (rewrite Hp; reflexivity).
        rewrite Hst in Hdoc'. rewrite Hdoc in Hdoc'. injection Hdoc' as <-.
        exists text, stats_doc, (summaryKey p), docs.
        split; [|split].
        -- rewrite Hp. reflexivity.
        -- exact Hput.
        -- rewrite Hbucket, Hstats. reflexivity.
  - intros [= <- <-] Hbody Hstatus.
    simpl in Hbody. injection Hbody as <-. discriminate.
Qed.

(** Whatever [build_summary] raises has a message. *)
Lemma build_summary_raise_message (E : environment) (st : Stats)
    (w w' : world) (exc : exn) :
  build_summary E st w = Some (Raise exc, w') -> str_exn exc <> "".
Proof.
  unfold build_summary, bind, lift.
  destruct (summary_text_of st) as [text|e] eqn:Htext.
  - unfold utcnow. cbv beta iota.
    destruct (json_of_stats st) as [stats_doc|e] eqn:Hdoc.
    + cbv beta iota. unfold put_object. cbv beta iota zeta.
      match goal with
      | |- context [s3_put_object E ?req] =>
          destruct (s3_put_object E req) as [[]|code message operation]
      end.
      * unfold ret. discriminate.
      * intros [= <- _]. simpl. discriminate.
    + intros [= <- _]. unfold json_of_stats in Hdoc.
      destruct (biggest_vendor st); simpl in Hdoc; try discriminate;
        injection Hdoc as <-; simpl; discriminate.
  - intros [= <- _]. unfold summary_text_of in Htext.
    destruct (biggest_vendor st); simpl in Htext; try discriminate.
    injection Htext as <-. simpl. discriminate.
Qed.

Lemma build_summary_ends (E : environment) (st : Stats) (w : world) :
  build_summary E st w <> None.
Proof.
  unfold build_summary, bind, lift.
  destruct (summary_text_of st) as [text|e]; [|discriminate].
  unfold utcnow. cbv beta iota.
  destruct (json_of_stats st) as [stats_doc|e]; [|discriminate].
  cbv beta iota. unfold put_object. cbv beta iota zeta.
  match goal with
  | |- context [s3_put_object E ?req] =>
      destruct (s3_put_object E req) as [[]|code message operation]
  end; unfold ret; discriminate.
Qed.

(** C9.  An answer with status [success] means the snapshot is in the
    bucket, as the last object written, under the key the answer gives
    as summaryKey.  And when the bucket refuses the write after the
    records were aggregated, the request fails: the answer is 500 with
    the body [{"status": "error", "message": ...}], the message is not
    empty, no statistics are in it, and the bucket is as it was. *)
Theorem success_requires_snapshot (E : environment) (fuel : nat) (ev : event)
    (w : world) :
  (forall resp w' doc,
      lambda_handler E fuel ev w = Some (resp, w') ->
      body resp = JsonBody doc ->
      json_get "status" doc = Some (JStr "success") ->
      exists request,
        bucket w' = (bucket w ++ [request])%list
        /\ s3_put_object E request = Answer tt
        /\ json_get "summaryKey" doc = Some (JStr (Key request)))
  /\ (forall limit items st w1 w2,
        is_options ev = false ->
        limit_of ev = Ok limit ->
        scan_all_transactions E fuel w = Some (Ok items, w1) ->
        items <> [] ->
        compute_stats E items w = Some (Ok st, w2) ->
        (forall request, exists code message operation,
            s3_put_object E request = ServiceError code message operation) ->
        exists exc w3,
          lambda_handler E fuel ev w
          = Some ({| statusCode := 500;
                     headers := CORS_HEADERS;
                     body := JsonBody (JObj [("status", JStr "error");
                                             ("message", JStr (str_exn exc))]) |},
                  w3)
          /\ str_exn exc <> ""
          /\ bucket w3 = bucket w).
Proof.
  split.
  - intros resp w' doc Hrun Hbody Hstatus.
    destruct (handler_success E fuel ev w w' resp doc Hrun Hbody Hstatus)
      as (text & stats_doc & key & docs & -> & Hput & Hbucket).
    eexists. split; [exact Hbucket|]. split; [exact Hput|]. reflexivity.
  - intros limit items st w1 w2 Hmethod Hlimit Hscan Hitems Hstats Hfail.
    assert (w1 = w) by (eapply scan_all_transactions_world; eassumption). subst w1.
    destruct (serialize_transactions_total items) as [serialized Hser].
    destruct (build_summary E st w2) as [[[p|exc] w3]|] eqn:Hsummary.
    + exfalso. apply build_summary_ok in Hsummary
        as (text & stats_doc & _ & _ & Hput & _).
      match type of Hput with
      | s3_put_object E ?req = _ =>
          destruct (Hfail req) as (code & message & operation & Hno)
      end.
      congruence.
    + exists exc, w3. split; [|split].
      * unfold lambda_handler, handle. rewrite Hmethod.
        unfold bind at 1. unfold lift at 1. rewrite Hlimit.
        unfold bind at 1. rewrite Hscan.
        destruct items as [|it rest]; [congruence|].
        unfold bind at 1. unfold lift at 1. rewrite Hser.
        unfold bind at 1. rewrite Hstats.
        unfold bind at 1. rewrite Hsummary. reflexivity.
      * eapply build_summary_raise_message; eassumption.
      * apply build_summary_bucket_on_raise in Hsummary.
        apply compute_stats_bucket in Hstats. congruence.
    + exfalso. eapply build_summary_ends; eassumption.
Qed.

(** C10.  In an answer with status [success], the summary text and the
    statistics of the body are the summary text and the statistics of
    the snapshot that the request wrote to the bucket. *)
Theorem snapshot_matches_response (E : environment) (fuel : nat) (ev : event)
    (w w' : world) (resp : response) (doc : json) :
  lambda_handler E fuel ev w = Some (resp, w') ->
  body resp = JsonBody doc ->
  json_get "status" doc = Some (JStr "success") ->
  exists request text stats_doc,
    bucket w' = (bucket w ++ [request])%list
    /\ Body request = JObj [("summary", JStr text); ("stats", stats_doc)]
    /\ json_get "summary" doc = Some (JStr text)
    /\ json_get "stats" doc = Some stats_doc.
Proof.
  intros Hrun Hbody Hstatus.
  destruct (handler_success E fuel ev w w' resp doc Hrun Hbody Hstatus)
    as (text & stats_doc & key & docs & -> & Hput & Hbucket).
  eexists. exists text, stats_doc.
  split; [exact Hbucket|]. repeat split.
Qed.

Lemma success_requires_snapshot_witness :
  (exists request,
      bucket scenario_world = (bucket initial_world ++ [request])%list
      /\ s3_put_object (table_of scenario_records) request = Answer tt
      /\ Key request = scenario_key)
  /\ (exists exc w3,
        lambda_handler (table_with_failing_bucket scenario_records) 0
          get_request initial_world
        = Some ({| statusCode := 500;
                   headers := CORS_HEADERS;
                   body := JsonBody (JObj [("status", JStr "error");
                                           ("message", JStr (str_exn exc))]) |},
                w3)
        /\ str_exn exc <> ""
        /\ bucket w3 = bucket initial_world).
Proof.
  assert (Hrun : lambda_handler (table_of scenario_records) 0 get_request
                   initial_world
                 = Some (scenario_response, scenario_world))
    by (vm_compute; reflexivity).
  assert (Hstats : compute_stats (table_with_failing_bucket scenario_records)
                     scenario_records initial_world
                   = Some (Ok scenario_stats, {| ticks := 1; bucket := [] |}))
    by (vm_compute; reflexivity).
  split.
  - destruct (proj1 (success_requires_snapshot (table_of scenario_records) 0
                       get_request initial_world)
                scenario_response scenario_world scenario_doc
                Hrun eq_refl eq_refl)
      as (request & Hbucket & Hput & Hkey).
    exists request. split; [exact Hbucket|]. split; [exact Hput|].
    now injection Hkey as <-.
  - refine (proj2 (success_requires_snapshot
                     (table_with_failing_bucket scenario_records) 0
                     get_request initial_world)
              None scenario_records scenario_stats initial_world
              {| ticks := 1; bucket := [] |} eq_refl eq_refl eq_refl _ Hstats _).
    + discriminate.
    + intros request. now exists "AccessDenied", "Access Denied", "PutObject".
Defined.

Lemma snapshot_matches_response_witness :
  exists request text stats_doc,
    bucket scenario_world = (bucket initial_world ++ [request])%list
    /\ Body request = JObj [("summary", JStr text); ("stats", stats_doc)]
    /\ text = scenario_summary
    /\ stats_doc = scenario_stats_doc.
Proof.
  assert (Hrun : lambda_handler (table_of scenario_records) 0 get_request
                   initial_world
                 = Some (scenario_response, scenario_world))
    by (vm_compute; reflexivity).
  destruct (snapshot_matches_response (table_of scenario_records) 0 get_request
              initial_world scenario_world scenario_response scenario_doc
              Hrun eq_refl eq_refl)
    as (request & text & stats_doc & Hbucket & Hbody & Htext & Hstats).
  exists request, text, stats_doc.
  split; [exact Hbucket|]. split; [exact Hbody|].
  injection Htext as <-. injection Hstats as <-.
  split; reflexivity.
Defined.

(** ** Dictionaries *)

Section DictFacts.
Context {K V : Type} (eqb : K -> K -> bool).

Lemma dict_set_keys (k : K) (v : V) (d : list (K * V)) (k' : K) :
  In k' (map fst (dict_set eqb k v d)) -> k' = k \/ In k' (map fst d).
Proof.
  induction d as [|[k0 v0] d IH]; simpl.
  - intros [<-|[]]. now left.
  - destruct (eqb k0 k); simpl.
    + intros [<-|Hin]; right; auto.
    + intros [<-|Hin]; [right; now left|].
      destruct (IH Hin) as [->|Hd]; [now left | right; now right].
Qed.

Lemma dict_set_values (k : K) (v : V) (d : list (K * V)) (x : V) :
  In x (map snd (dict_set eqb k v d)) -> x = v \/ In x (map snd d).
Proof.
  induction d as [|[k0 v0] d IH]; simpl.
  - intros [<-|[]]. now left.
  - destruct (eqb k0 k); simpl.
    + intros [<-|Hin]; [now left | right; now right].
    + intros [<-|Hin]; [right; now left|].
      destruct (IH Hin) as [->|Hd]; [now left | right; now right].
Qed.

Lemma dict_set_not_empty (k : K) (v : V) (d : list (K * V)) :
  dict_set eqb k v d <> [].
Proof.
  destruct d as [|[k0 v0] d]; simpl; [discriminate|].
  destruct (eqb k0 k); discriminate.
Qed.

Lemma dict_set_length (k : K) (v : V) (d : list (K * V)) :
  (List.length d <= List.length (dict_set eqb k v d))%nat.
Proof.
  induction d as [|[k0 v0] d IH]; simpl; [lia|].
  destruct (eqb k0 k); simpl; lia.
Qed.

Lemma dict_get_value (k : K) (d : list (K * V)) (x : V) :
  dict_get eqb k d = Some x -> In x (map snd d).
Proof.
  induction d as [|[k0 v0] d IH]; simpl; [discriminate|].
  destruct (eqb k0 k).
  - intros [= <-]. now left.
  - intros H. right. auto.
Qed.

Hypothesis eqb_refl : forall a, eqb a a = true.
Hypothesis eqb_sym : forall a b, eqb a b = eqb b a.
Hypothesis eqb_trans :
  forall a b c, eqb a b = true -> eqb b c = true -> eqb a c = true.

Lemma eqb_congruent (a b c : K) : eqb a b = true -> eqb a c = eqb b c.
Proof.
  intros Hab.
  destruct (eqb b c) eqn:Hbc.
  - eapply eqb_trans; eassumption.
  - destruct (eqb a c) eqn:Hac; [|reflexivity].
    rewrite <- Hbc. symmetry. apply (eqb_trans b a c); [|exact Hac].
    now rewrite eqb_sym.
Qed.

Lemma dict_get_key (k : K) (d : list (K * V)) :
  In k (map fst d) -> exists x, dict_get eqb k d = Some x.
Proof.
  induction d as [|[k0 v0] d IH]; simpl; [intros []|].
  intros [->|Hin].
  - rewrite eqb_refl. eauto.
  - destruct (eqb k0 k); eauto.
Qed.

Lemma dict_get_congruent (a b : K) (d : list (K * V)) :
  eqb a b = true -> dict_get eqb a d = dict_get eqb b d.
Proof.
  intros Hab. induction d as [|[k0 v0] d IH]; simpl; [reflexivity|].
  rewrite (eqb_sym k0 a), (eqb_sym k0 b), (eqb_congruent a b k0 Hab).
  now rewrite IH.
Qed.

Lemma dict_get_set (k k' : K) (v : V) (d : list (K * V)) :
  dict_get eqb k' (dict_set eqb k v d)
  = if eqb k k' then Some v else dict_get eqb k' d.
Proof.
  induction d as [|[k0 v0] d IH]; simpl.
  - reflexivity.
  - destruct (eqb k0 k) eqn:H0; simpl.
    + rewrite (eqb_congruent k0 k k' H0). now destruct (eqb k k').
    + rewrite IH. destruct (eqb k0 k') eqn:H1; [|reflexivity].
      destruct (eqb k k') eqn:H2; [|reflexivity].
      assert (eqb k0 k = true); [|congruence].
      apply (eqb_trans k0 k' k); [exact H1|]. now rewrite eqb_sym.
Qed.
End DictFacts.

(** ** Equality of keys *)

Lemma pow10_pos (n : Z) : 0 <= n -> 0 < 10 ^ n.
Proof. intros H. apply Z.pow_pos_nonneg; lia. Qed.

(** Two scaled numbers agree at the smaller exponent exactly when they
    agree at any common lower exponent. *)
Lemma scaled_eq_at (z1 e1 z2 e2 g : Z) :
  g <= e1 -> g <= e2 ->
  (z1 * 10 ^ (e1 - Z.min e1 e2) = z2 * 10 ^ (e2 - Z.min e1 e2)
   <-> z1 * 10 ^ (e1 - g) = z2 * 10 ^ (e2 - g)).
Proof.
  intros H1 H2. set (m := Z.min e1 e2).
  assert (Hm1 : m <= e1) by (unfold m; lia).
  assert (Hm2 : m <= e2) by (unfold m; lia).
  assert (Hg : g <= m) by (unfold m; lia).
  replace (e1 - g) with ((e1 - m) + (m - g)) by lia.
  replace (e2 - g) with ((e2 - m) + (m - g)) by lia.
  rewrite !Z.pow_add_r by lia. rewrite !Z.mul_assoc.
  pose proof (pow10_pos (m - g) ltac:(lia)) as Hp.
  split.
  - now intros ->.
  - intros H. apply Z.mul_reg_r in H; [exact H | lia].
Qed.

Lemma finite_eqb_refl (s : bool) (c : N) (e : Z) : finite_eqb s c e s c e = true.
Proof. unfold finite_eqb. apply Z.eqb_refl. Qed.

Lemma finite_eqb_sym (s1 : bool) (c1 : N) (e1 : Z) (s2 : bool) (c2 : N) (e2 : Z) :
  finite_eqb s1 c1 e1 s2 c2 e2 = finite_eqb s2 c2 e2 s1 c1 e1.
Proof.
  unfold finite_eqb. rewrite (Z.min_comm e2 e1). apply Z.eqb_sym.
Qed.

Lemma finite_eqb_trans (s1 : bool) (c1 : N) (e1 : Z) (s2 : bool) (c2 : N) (e2 : Z)
    (s3 : bool) (c3 : N) (e3 : Z) :
  finite_eqb s1 c1 e1 s2 c2 e2 = true ->
  finite_eqb s2 c2 e2 s3 c3 e3 = true ->
  finite_eqb s1 c1 e1 s3 c3 e3 = true.
Proof.
  unfold finite_eqb. rewrite !Z.eqb_eq.
  set (g := Z.min e1 (Z.min e2 e3)).
  intros H12 H23.
  apply (scaled_eq_at _ e1 _ e2 g) in H12; [|unfold g; lia|unfold g; lia].
  apply (scaled_eq_at _ e2 _ e3 g) in H23; [|unfold g; lia|unfold g; lia].
  apply (scaled_eq_at _ e1 _ e3 g); [unfold g; lia|unfold g; lia|].
  congruence.
Qed.

Lemma key_eqb_numeral (a b : key) s1 c1 e1 s2 c2 e2 :
  numeral a = Some (s1, c1, e1) -> numeral b = Some (s2, c2, e2) ->
  key_eqb a b = finite_eqb s1 c1 e1 s2 c2 e2.
Proof.
  destruct a, b; simpl; try discriminate; intros [= <- <- <-] [= <- <- <-];
    try reflexivity.
  now destruct b, b0.
Qed.

Lemma key_eqb_mixed (a b : key) :
  numeral a = None -> key_eqb a b = true -> numeral b = None.
Proof.
  destruct a, b; simpl; congruence.
Qed.

Lemma key_eqb_refl (a : key) : key_eqb a a = true.
Proof.
  destruct a; simpl;
    auto using finite_eqb_refl, String.eqb_refl, Bool.eqb_reflx.
Qed.

Lemma key_eqb_sym (a b : key) : key_eqb a b = key_eqb b a.
Proof.
  destruct a, b; simpl; try reflexivity;
    auto using finite_eqb_sym, String.eqb_sym.
  now destruct b, b0.
Qed.

Lemma key_eqb_trans (a b c : key) :
  key_eqb a b = true -> key_eqb b c = true -> key_eqb a c = true.
Proof.
  destruct (numeral a) as [[[s1 c1] e1]|] eqn:Ha.
  - destruct (numeral b) as [[[s2 c2] e2]|] eqn:Hb.
    + destruct (numeral c) as [[[s3 c3] e3]|] eqn:Hc.
      * rewrite (key_eqb_numeral a b _ _ _ _ _ _ Ha Hb),
          (key_eqb_numeral b c _ _ _ _ _ _ Hb Hc),
          (key_eqb_numeral a c _ _ _ _ _ _ Ha Hc).
        apply finite_eqb_trans.
      * intros _ Hbc. rewrite key_eqb_sym in Hbc.
        apply (key_eqb_mixed c b Hc) in Hbc. congruence.
    + intros Hab. rewrite key_eqb_sym in Hab.
      apply (key_eqb_mixed b a Hb) in Hab. congruence.
  - intros Hab Hbc.
    pose proof (key_eqb_mixed a b Ha Hab) as Hb.
    destruct a, b; simpl in *; try discriminate;
      destruct c; simpl in *; try discriminate; auto.
    + apply String.eqb_eq in Hab, Hbc. subst. apply String.eqb_refl.
    + apply String.eqb_eq in Hab, Hbc. subst. apply String.eqb_refl.
Qed.

(** ** The aggregator *)

(** What [compute_stats] returns, read off its result. *)
Lemma compute_stats_ok (E : environment) (items : list item) (w w' : world)
    (st : Stats) :
  compute_stats E items w = Some (Ok st, w') ->
  exists total vendor_totals,
    stats_loop items (Finite false 0 0) [] = Ok (total, vendor_totals)
    /\ max_vendor vendor_totals = Ok (biggest_vendor st)
    /\ decimal_to_float total = Ok (total_amount st)
    /\ total_transactions st = Z.of_nat (List.length items).
Proof.
  unfold compute_stats, bind, lift, ret.
  destruct (stats_loop items (Finite false 0 0) []) as [[total vt]|e] eqn:Hloop;
    [|discriminate].
  destruct (max_vendor vt) as [vendor|e] eqn:Hmax; [|discriminate].
  destruct (decimal_to_float total) as [amount|e] eqn:Hfloat; [|discriminate].
  unfold utcnow. intros [= <- _]. exists total, vt. simpl. auto.
Qed.

(** One turn of the loop of [compute_stats]. *)
Lemma stats_loop_step (it : item) (rest : list item) (total : Decimal)
    (vt : vendor_totals_t) (out : Decimal * vendor_totals_t) :
  stats_loop (it :: rest) total vt = Ok out ->
  exists amount total' vendor t,
    amount_of it = Ok amount
    /\ add total amount = Ok total'
    /\ hashable (vendor_of it) = Ok vendor
    /\ add (match dict_get key_eqb vendor vt with
            | Some t => t
            | None => Finite false 0 0
            end) amount = Ok t
    /\ stats_loop rest total' (dict_set key_eqb vendor t vt) = Ok out.
Proof.
  simpl. intros H.
  apply rbind_ok in H as (amount & Hamount & H).
  apply rbind_ok in H as (total' & Htotal & H).
  apply rbind_ok in H as (vendor & Hvendor & H).
  apply rbind_ok in H as (t & Ht & H).
  exists amount, total', vendor, t. auto.
Qed.

Lemma stats_loop_keys (items : list item) :
  forall total vt total' vt',
    stats_loop items total vt = Ok (total', vt') ->
    forall k, In k (map fst vt') ->
      In k (map fst vt)
      \/ exists it, In it items /\ hashable (vendor_of it) = Ok k.
Proof.
  induction items as [|it rest IH]; intros total vt total' vt' Hloop k Hk.
  - simpl in Hloop. injection Hloop as <- <-. now left.
  - apply stats_loop_step in Hloop
      as (amount & total1 & vendor & t & _ & _ & Hvendor & _ & Hloop).
    destruct (IH _ _ _ _ Hloop k Hk) as [Hin|(it' & Hin & Hit')].
    + apply dict_set_keys in Hin as [->|Hin]; [|now left].
      right. exists it. split; [now left | exact Hvendor].
    + right. exists it'. split; [now right | exact Hit'].
Qed.

Lemma stats_loop_length (items : list item) :
  forall total vt total' vt',
    stats_loop items total vt = Ok (total', vt') ->
    (List.length vt <= List.length vt')%nat.
Proof.
  induction items as [|it rest IH]; intros total vt total' vt' Hloop.
  - simpl in Hloop. injection Hloop as <- <-. lia.
  - apply stats_loop_step in Hloop
      as (amount & total1 & vendor & t & _ & _ & _ & _ & Hloop).
    apply IH in Hloop.
    pose proof (dict_set_length key_eqb vendor t vt). lia.
Qed.

Lemma stats_loop_not_empty (it : item) (rest : list item) total vt total' vt' :
  stats_loop (it :: rest) total vt = Ok (total', vt') -> vt' <> [].
Proof.
  intros Hloop.
  apply stats_loop_step in Hloop
    as (amount & total1 & vendor & t & _ & _ & _ & _ & Hloop).
  apply stats_loop_length in Hloop.
  pose proof (dict_set_not_empty key_eqb vendor t vt) as Hne.
  destruct (dict_set key_eqb vendor t vt); [congruence|].
  destruct vt'; [simpl in Hloop; lia | discriminate].
Qed.

(** The dictionary the loop builds holds the group totals. *)
Lemma stats_loop_groups (items : list item) :
  forall total vt total' vt',
    stats_loop items total vt = Ok (total', vt') ->
    forall k,
      group_total k items (dict_get key_eqb k vt) = Ok (dict_get key_eqb k vt').
Proof.
  induction items as [|it rest IH]; intros total vt total' vt' Hloop k.
  - simpl in Hloop. injection Hloop as <- <-. reflexivity.
  - apply stats_loop_step in Hloop
      as (amount & total1 & vendor & t & Hamount & _ & Hvendor & Ht & Hloop).
    simpl. rewrite Hamount, Hvendor. simpl.
    specialize (IH _ _ _ _ Hloop k).
    rewrite (dict_get_set key_eqb key_eqb_sym key_eqb_trans) in IH.
    destruct (key_eqb vendor k) eqn:Hk.
    + rewrite <- (dict_get_congruent key_eqb key_eqb_sym key_eqb_trans
                    vendor k vt Hk).
      rewrite Ht. simpl. exact IH.
    + exact IH.
Qed.

Lemma max_loop_in (d : vendor_totals_t) (keys : list key) :
  forall maxitem maxval k,
    max_loop d keys maxitem maxval = Ok k -> k = maxitem \/ In k keys.
Proof.
  induction keys as [|k0 rest IH]; simpl; intros maxitem maxval k.
  - intros [= <-]. now left.
  - intros H. apply rbind_ok in H as (greater & _ & H).
    destruct greater; apply IH in H as [->|Hin]; auto.
Qed.

Lemma max_vendor_in (vt : vendor_totals_t) (k : key) :
  max_vendor vt = Ok k ->
  (vt = [] -> k = KNone) /\ (vt <> [] -> In k (map fst vt)).
Proof.
  unfold max_vendor. destruct vt as [|[k0 t0] rest]; simpl.
  - intros [= <-]. split; [reflexivity | congruence].
  - intros H. split; [discriminate|]. intros _.
    apply max_loop_in in H as [->|Hin]; auto.
Qed.

Lemma hashable_value (v : value) (k : key) :
  hashable v = Ok k -> value_of_key k = v.
Proof.
  destruct v; simpl; intros [= <-]; reflexivity.
Qed.

(** C7.  When [compute_stats] returns: the top vendor of no records is
    null; that of some records is the vendor of one of them, where a
    record without a vendor field counts under [Unknown]; it is
    therefore null for some records only when a record's vendor is
    itself null.  The dictionary it is chosen from holds, for every
    key, the Decimal sum of the amounts of the group. *)
Theorem biggest_vendor_from_input (E : environment) (items : list item)
    (st : Stats) (w w' : world) :
  compute_stats E items w = Some (Ok st, w') ->
  (items = [] -> biggest_vendor st = KNone)
  /\ (items <> [] ->
      exists it, In it items
                 /\ vendor_of it = value_of_key (biggest_vendor st))
  /\ ((forall it, In it items -> vendor_of it <> VNone) ->
      (biggest_vendor st = KNone <-> items = []))
  /\ (forall it, item_get "vendor" it = None -> vendor_of it = VStr "Unknown")
  /\ exists total vendor_totals,
       stats_loop items (Finite false 0 0) [] = Ok (total, vendor_totals)
       /\ max_vendor vendor_totals = Ok (biggest_vendor st)
       /\ forall k,
            group_total k items None = Ok (dict_get key_eqb k vendor_totals).
Proof.
  intros Hrun.
  apply compute_stats_ok in Hrun as (total & vt & Hloop & Hmax & _ & _).
  pose proof (max_vendor_in vt _ Hmax) as [Hempty Hfull].
  assert (Hnone : items = [] -> biggest_vendor st = KNone).
  { intros ->. simpl in Hloop. injection Hloop as <- <-. now apply Hempty. }
  assert (Hsome : items <> [] ->
                  exists it, In it items
                             /\ vendor_of it = value_of_key (biggest_vendor st)).
  { intros Hitems. destruct items as [|it rest]; [congruence|].
    pose proof (stats_loop_not_empty _ _ _ _ _ _ Hloop) as Hvt.
    destruct (stats_loop_keys _ _ _ _ _ Hloop _ (Hfull Hvt))
      as [[]|(it' & Hin & Hit')].
    exists it'. split; [exact Hin|]. symmetry. now apply hashable_value. }
  split; [exact Hnone|]. split; [exact Hsome|]. split; [|split].
  - intros Hvendors. split; [|exact Hnone].
    intros Hnull. destruct items as [|it rest]; [reflexivity|].
    destruct Hsome as (it' & Hin & Hit'); [discriminate|].
    rewrite Hnull in Hit'. elim (Hvendors it' Hin). exact Hit'.
  - intros it Hit. unfold vendor_of. now rewrite Hit.
  - exists total, vt. split; [exact Hloop|]. split; [exact Hmax|].
    intros k. exact (stats_loop_groups _ _ _ _ _ Hloop k).
Qed.

(** ** Sums that fit the context *)

Lemma digits_aux_length (fuel : nat) :
  forall (n : N) (acc : list N) (k : nat),
    (1 <= k)%nat ->
    Z.of_N n < 10 ^ Z.of_nat k ->
    (List.length (digits_aux fuel n acc) <= k + List.length acc)%nat.
Proof.
  induction fuel as [|fuel IH]; intros n acc k Hk Hn; simpl; [lia|].
  destruct (N.ltb_spec n 10) as [Hlt|Hge]; simpl; [lia|].
  destruct k as [|[|k]]; [lia | |].
  - change (10 ^ Z.of_nat 1) with 10 in Hn. lia.
  - specialize (IH (n / 10)%N ((n mod 10)%N :: acc) (S k) ltac:(lia)).
    simpl List.length in IH.
    assert (Hdiv : Z.of_N (n / 10) < 10 ^ Z.of_nat (S k)).
    { rewrite N2Z.inj_div. apply Z.div_lt_upper_bound; [lia|].
      change (Z.of_N 10) with 10.
      replace (Z.of_nat (S (S k))) with (1 + Z.of_nat (S k)) in Hn by lia.
      rewrite Z.pow_add_r in Hn by lia. exact Hn. }
    specialize (IH Hdiv). lia.
Qed.

Lemma ndigits_le_prec (c : N) : Z.of_N c < 10 ^ prec -> ndigits c <= prec.
Proof.
  intros Hc. unfold ndigits, digits.
  pose proof (digits_aux_length (N.to_nat (N.log2 c)) c [] 28 ltac:(lia) Hc) as H.
  simpl List.length in H. unfold prec. lia.
Qed.

(** A coefficient of at most [prec] digits with an exponent between
    [Etiny] and zero is representable: [_fix] returns it unchanged. *)
Lemma _fix_exact (s : bool) (c : N) (e : Z) :
  Z.of_N c < 10 ^ prec -> Etiny <= e <= 0 ->
  _fix s c e = Ok (Finite s c e).
Proof.
  intros Hc He. unfold _fix.
  pose proof (ndigits_le_prec c Hc) as Hd.
  unfold Etiny, Etop, Emin, Emax, prec in *.
  destruct (N.eqb_spec c 0) as [->|Hne].
  - f_equal. f_equal. lia.
  - cbv zeta.
    destruct (Z.ltb_spec (999999 - 28 + 1) (ndigits c + e - 28)) as [H|_]; [lia|].
    destruct (Z.ltb_spec e (Z.max (ndigits c + e - 28) (-999999 - 28 + 1)))
      as [H|_]; [lia|].
    reflexivity.
Qed.

Lemma signed_of_Z (z : Z) : signed (z <? 0) (Z.to_N (Z.abs z)) = z.
Proof.
  unfold signed. destruct (Z.ltb_spec z 0); rewrite Z2N.id; lia.
Qed.

Lemma signed_abs (s : bool) (c : N) : Z.abs (signed s c) = Z.of_N c.
Proof.
  unfold signed. destruct s; lia.
Qed.

Lemma rescale (z e e' G : Z) :
  G <= e' -> e' <= e -> z * 10 ^ (e - e') * 10 ^ (e' - G) = z * 10 ^ (e - G).
Proof.
  intros H1 H2. rewrite <- Z.mul_assoc, <- Z.pow_add_r by lia.
  f_equal. f_equal. lia.
Qed.

Lemma abs_le_scaled (z p : Z) : 0 < p -> Z.abs z <= Z.abs (z * p).
Proof.
  intros Hp. rewrite Z.abs_mul, (Z.abs_eq p) by lia. nia.
Qed.

(** Adding an amount to an exact accumulator is exact as long as the
    absolute values stay below [10^prec] at the exponent [G]. *)
Lemma add_exact (G : Z) (d : Decimal) (v e : Z) (s : bool) (c : N) (ea : Z) :
  Etiny <= G ->
  exact_repr G d v e ->
  G <= ea ->
  Z.abs v + Z.of_N c * 10 ^ (ea - G) < 10 ^ prec ->
  exists d',
    add d (Finite s c ea) = Ok d'
    /\ exact_repr G d' (v + signed s c * 10 ^ (ea - G)) (Z.min e ea).
Proof.
  intros HG (z & -> & He & Hv) Hea Hfit.
  set (e' := Z.min e ea).
  set (z' := z * 10 ^ (e - e') + signed s c * 10 ^ (ea - e')).
  assert (He' : G <= e' <= 0) by (unfold e'; lia).
  assert (Hscaled : z' * 10 ^ (e' - G) = v + signed s c * 10 ^ (ea - G)).
  { unfold z'. rewrite Z.mul_add_distr_r.
    rewrite !rescale by (unfold e'; lia). now rewrite Hv. }
  assert (Hsmall : Z.abs z' < 10 ^ prec).
  { pose proof (abs_le_scaled z' (10 ^ (e' - G)) (pow10_pos (e' - G) ltac:(lia))) as H1.
    rewrite Hscaled in H1.
    pose proof (Z.abs_triangle v (signed s c * 10 ^ (ea - G))) as H2.
    rewrite Z.abs_mul, signed_abs in H2.
    rewrite (Z.abs_eq (10 ^ (ea - G))) in H2
      by (apply Z.lt_le_incl, pow10_pos; lia).
    lia. }
  exists (Decimal_of_Z z' e'). split.
  - unfold Decimal_of_Z at 1. unfold add. rewrite signed_of_Z.
    fold e'. fold z'. cbv zeta.
    destruct (Z.eqb_spec z' 0) as [Hz|Hz].
    + assert (Hsign : (if ((Z.to_N (Z.abs z) =? 0) && (c =? 0))%N
                       then (z <? 0) && s else false) = false).
      { destruct (N.eqb_spec (Z.to_N (Z.abs z)) 0) as [H0|H0]; [|reflexivity].
        destruct (N.eqb_spec c 0); simpl; [|reflexivity].
        destruct (Z.ltb_spec z 0); [lia | reflexivity]. }
      rewrite Hsign. rewrite _fix_exact.
      * unfold Decimal_of_Z. now rewrite Hz.
      * change (Z.of_N 0) with 0. apply pow10_pos. unfold prec. lia.
      * lia.
    + rewrite _fix_exact; [reflexivity | | lia].
      rewrite Z2N.id by lia. exact Hsmall.
  - exists z'. auto.
Qed.

Lemma scaled_weight_nonneg (G : Z) (amounts : list amount) :
  0 <= scaled_weight G amounts.
Proof.
  induction amounts as [|a rest IH]; simpl; [lia|].
  pose proof (Z.pow_nonneg 10 (amount_exp a - G) ltac:(lia)).
  pose proof (N2Z.is_nonneg (amount_coeff a)). nia.
Qed.

Lemma exact_repr_zero (G : Z) : G <= 0 -> exact_repr G (Finite false 0 0) 0 0.
Proof.
  intros HG. exists 0. repeat split; lia.
Qed.

(** The accumulators of the loop stay exact. *)
Lemma stats_loop_exact (G : Z) (items : list item) (amounts : list amount) :
  Etiny <= G ->
  Forall2 has_amount items amounts ->
  Forall (fun a => G <= amount_exp a) amounts ->
  Forall (fun it => exists k, hashable (vendor_of it) = Ok k) items ->
  forall total v e vt,
    exact_repr G total v e ->
    Z.abs v + scaled_weight G amounts < 10 ^ prec ->
    Forall (exact_within G (scaled_weight G amounts)) (map snd vt) ->
    exists total' vt',
      stats_loop items total vt = Ok (total', vt')
      /\ exact_repr G total' (v + scaled_sum G amounts)
           (Z.min e (least_exponent amounts))
      /\ Forall (exact_within G 0) (map snd vt').
Proof.
  intros HG Hamounts. induction Hamounts as [|it a items amounts Hit _ IH];
    intros Hexp Hhash total v e vt Htotal Hroom Hvt.
  - exists total, vt. simpl. split; [reflexivity|]. split.
    + destruct Htotal as (z & -> & He & Hz).
      exists z. rewrite Z.add_0_r, Z.min_l by lia. auto.
    + exact Hvt.
  - inversion Hexp as [|? ? Ha Hexp']; subst.
    inversion Hhash as [|? ? [vendor Hvendor] Hhash']; subst.
    pose proof (scaled_weight_nonneg G amounts) as Hrest.
    set (wa := Z.of_N (amount_coeff a) * 10 ^ (amount_exp a - G)) in *.
    set (sa := signed (amount_sign a) (amount_coeff a) * 10 ^ (amount_exp a - G)).
    assert (Hsa : Z.abs sa = wa).
    { unfold sa, wa. rewrite Z.abs_mul, signed_abs.
      rewrite (Z.abs_eq (10 ^ _)); [reflexivity|].
      apply Z.pow_nonneg. lia. }
    simpl scaled_weight in Hroom, Hvt. fold wa in Hroom, Hvt.
    assert (HG0 : G <= 0) by (destruct Htotal as (z & _ & He & _); lia).
    destruct (add_exact G total v e (amount_sign a) (amount_coeff a)
                (amount_exp a) HG Htotal Ha ltac:(fold wa; lia))
      as (total1 & Hadd & Htotal1).
    fold sa in Htotal1.
    set (previous := match dict_get key_eqb vendor vt with
                     | Some t => t
                     | None => Finite false 0 0
                     end).
    assert (Hprevious : exact_within G (wa + scaled_weight G amounts) previous).
    { unfold previous. destruct (dict_get key_eqb vendor vt) as [t|] eqn:Hget.
      - apply dict_get_value in Hget.
        rewrite Forall_forall in Hvt. now apply Hvt.
      - exists 0, 0. split; [now apply exact_repr_zero|]. lia. }
    destruct Hprevious as (v' & e' & Hrepr' & Hroom').
    destruct (add_exact G previous v' e' (amount_sign a) (amount_coeff a)
                (amount_exp a) HG Hrepr' Ha ltac:(fold wa; lia))
      as (t1 & Haddt & Ht1).
    fold sa in Ht1.
    destruct (IH Hexp' Hhash' total1 (v + sa) (Z.min e (amount_exp a))
                (dict_set key_eqb vendor t1 vt) Htotal1)
      as (total' & vt' & Hloop & Hfinal & Hvt').
    + pose proof (Z.abs_triangle v sa). lia.
    + rewrite Forall_forall. intros x Hx.
      apply dict_set_values in Hx as [->|Hx].
      * exists (v' + sa), (Z.min e' (amount_exp a)). split; [exact Ht1|].
        pose proof (Z.abs_triangle v' sa). lia.
      * rewrite Forall_forall in Hvt.
        destruct (Hvt x Hx) as (vx & ex & Hreprx & Hroomx).
        exists vx, ex. split; [exact Hreprx | lia].
    + exists total', vt'. split; [|split; [|exact Hvt']].
      * simpl. unfold has_amount, Decimal_of_amount in Hit. rewrite Hit. simpl.
        rewrite Hadd. simpl. rewrite Hvendor. simpl.
        fold previous. rewrite Haddt. simpl. exact Hloop.
      * simpl. fold sa. rewrite Z.add_assoc, Z.min_assoc. exact Hfinal.
Qed.

(** [max] over totals that are all finite returns. *)
Lemma max_loop_finite (d : vendor_totals_t) :
  Forall is_finite (map snd d) ->
  forall keys maxitem maxval,
    (forall k, In k keys -> In k (map fst d)) ->
    is_finite maxval ->
    exists k, max_loop d keys maxitem (Some maxval) = Ok k.
Proof.
  intros Hd. induction keys as [|k0 rest IH]; intros maxitem maxval Hkeys Hmax.
  - simpl. eauto.
  - simpl.
    destruct (dict_get_key key_eqb key_eqb_refl k0 d (Hkeys k0 (or_introl eq_refl)))
      as [x Hx].
    rewrite Hx.
    assert (Hfx : is_finite x).
    { rewrite Forall_forall in Hd. apply Hd. eapply dict_get_value; eassumption. }
    destruct Hfx as (s1 & c1 & e1 & ->). destruct Hmax as (s2 & c2 & e2 & ->).
    simpl. match goal with |- context [if ?b then _ else _] => destruct b end.
    + apply IH; [intros k Hk; apply Hkeys; now right | now exists s1, c1, e1].
    + apply IH; [intros k Hk; apply Hkeys; now right | now exists s2, c2, e2].
Qed.

Lemma max_vendor_finite (d : vendor_totals_t) :
  Forall is_finite (map snd d) -> exists k, max_vendor d = Ok k.
Proof.
  intros Hd. unfold max_vendor.
  destruct d as [|[k0 t0] rest] eqn:Heq; simpl; [eauto|].
  rewrite key_eqb_refl. rewrite <- Heq in *.
  apply max_loop_finite.
  - exact Hd.
  - intros k Hk. rewrite Heq. simpl. now right.
  - rewrite Heq in Hd. inversion Hd. assumption.
Qed.

(** The exact sum does not depend on the order of the amounts. *)
Lemma least_exponent_perm (l l' : list amount) :
  Permutation l l' -> least_exponent l = least_exponent l'.
Proof.
  induction 1; simpl; lia.
Qed.

Lemma scaled_sum_perm (G : Z) (l l' : list amount) :
  Permutation l l' -> scaled_sum G l = scaled_sum G l'.
Proof.
  induction 1; simpl; lia.
Qed.

Lemma scaled_weight_perm (G : Z) (l l' : list amount) :
  Permutation l l' -> scaled_weight G l = scaled_weight G l'.
Proof.
  induction 1; simpl; lia.
Qed.

Lemma least_exponent_le (amounts : list amount) :
  least_exponent amounts <= 0
  /\ Forall (fun a => least_exponent amounts <= amount_exp a) amounts.
Proof.
  induction amounts as [|a rest [IH0 IH]]; simpl; [split; [lia | constructor]|].
  split; [lia|]. constructor; [lia|].
  eapply Forall_impl; [|exact IH]. simpl. intros; lia.
Qed.

Lemma least_exponent_ge (amounts : list amount) (b : Z) :
  b <= 0 -> Forall (fun a => b <= amount_exp a) amounts ->
  b <= least_exponent amounts.
Proof.
  intros Hb. induction 1; simpl; lia.
Qed.

(** Aggregation of amounts that fit the context returns, and its total
    is the exact sum. *)
Lemma compute_stats_exact (E : environment) (items : list item)
    (amounts : list amount) (w : world) :
  Forall2 has_amount items amounts ->
  fits_context amounts ->
  Forall (fun it => exists k, hashable (vendor_of it) = Ok k) items ->
  exists st w',
    compute_stats E items w = Some (Ok st, w')
    /\ decimal_to_float (exact_total amounts) = Ok (total_amount st).
Proof.
  intros Hamounts [Htiny Hfit] Hhash.
  set (G := least_exponent amounts) in *.
  destruct (least_exponent_le amounts) as [HG0 Hexp]. fold G in HG0, Hexp.
  assert (HG : Etiny <= G).
  { apply least_exponent_ge; [unfold Etiny, Emin, prec; lia | exact Htiny]. }
  destruct (stats_loop_exact G items amounts HG Hamounts Hexp Hhash
              (Finite false 0 0) 0 0 [] (exact_repr_zero G HG0))
    as (total & vt & Hloop & (z & -> & _ & Hz) & Hvt).
  - simpl. exact Hfit.
  - constructor.
  - destruct (max_vendor_finite vt) as [vendor Hmax].
    { eapply Forall_impl; [|exact Hvt].
      intros t (v & e & (z' & -> & _) & _). unfold is_finite, Decimal_of_Z. eauto. }
    rewrite Z.min_r in Hz by lia. rewrite Z.sub_diag, Z.mul_1_r in Hz.
    rewrite Z.add_0_l in Hz.
    rewrite Z.min_r in Hloop by lia. fold G in Hloop.
    eexists. eexists. split.
    + unfold compute_stats, bind, lift. rewrite Hloop, Hmax.
      unfold Decimal_of_Z. simpl. reflexivity.
    + simpl. unfold exact_total. fold G. rewrite <- Hz. reflexivity.
Qed.

(** C1.  For records whose amounts fit the 28 digits of the decimal
    context as [fits_context] says (no exponent below [Etiny], and the
    absolute values, in units of ten to the least of zero and the
    amounts' exponents, add up to less than [10^28]) and whose vendors
    can be keys, [compute_stats] returns for the records in any order,
    and its [total_amount] is the float of the exact decimal sum of the
    amounts, a missing amount counting as zero: one conversion, of the
    final sum. *)
Theorem total_amount_exact_within_precision (E : environment)
    (items items' : list item) (amounts : list amount) (w : world) :
  Forall2 has_amount items amounts ->
  fits_context amounts ->
  Forall (fun it => exists k, hashable (vendor_of it) = Ok k) items ->
  Permutation items items' ->
  exists st w',
    compute_stats E items' w = Some (Ok st, w')
    /\ decimal_to_float (exact_total amounts) = Ok (total_amount st).
Proof.
  intros Hamounts [Htiny Hfit] Hhash Hperm.
  destruct (Permutation_Forall2 Hperm Hamounts) as (amounts' & Hperm' & Hamounts').
  assert (Hexact : exact_total amounts = exact_total amounts').
  { unfold exact_total.
    rewrite (least_exponent_perm _ _ Hperm').
    now rewrite (scaled_sum_perm _ _ _ Hperm'). }
  rewrite Hexact. apply compute_stats_exact.
  - exact Hamounts'.
  - split.
    + eapply Permutation_Forall; eassumption.
    + rewrite <- (least_exponent_perm _ _ Hperm').
      now rewrite <- (scaled_weight_perm _ _ _ Hperm').
  - eapply Permutation_Forall; eassumption.
Qed.

Lemma total_amount_exact_within_precision_witness :
  exists st w',
    compute_stats (table_of []) [record_b; record_a2; record_a1] initial_world
    = Some (Ok st, w')
    /\ decimal_to_float (exact_total scenario_amounts) = Ok (total_amount st).
Proof.
  refine (total_amount_exact_within_precision (table_of []) scenario_records
            [record_b; record_a2; record_a1] scenario_amounts initial_world
            _ _ _ _).
  - repeat constructor.
  - split.
    + repeat constructor; vm_compute; discriminate.
    + vm_compute. reflexivity.
  - repeat constructor; eexists; reflexivity.
  - apply perm_trans with [record_b; record_a1; record_a2].
    + apply perm_swap.
    + apply perm_skip. apply perm_swap.
Defined.

(** Beyond 28 digits the sum is rounded while it is accumulated: the
    records 9007199254740993, 4E-13 and 4E-13 give 9007199254740992.0 in
    this order and 9007199254740994.0 with the large one last, while the
    float of their exact sum, 9007199254740993.0000000000008, is
    9007199254740994.0. *)
Lemma total_amount_rounded_counterexample :
  exists st st' w1 w2,
    compute_stats (table_of []) [record_large; record_tiny; record_tiny]
      initial_world = Some (Ok st, w1)
    /\ compute_stats (table_of []) [record_tiny; record_tiny; record_large]
         initial_world = Some (Ok st', w2)
    /\ Permutation [record_large; record_tiny; record_tiny]
         [record_tiny; record_tiny; record_large]
    /\ Forall2 has_amount [record_large; record_tiny; record_tiny] large_amounts
    /\ total_amount st = FFinite false 4503599627370496 1
    /\ total_amount st' = FFinite false 4503599627370497 1
    /\ total_amount st <> total_amount st'
    /\ decimal_to_float (exact_total large_amounts) <> Ok (total_amount st).
Proof.
  exists {| total_transactions := 3;
            total_amount := FFinite false 4503599627370496 1;
            biggest_vendor := KStr "A";
            generated_at := "2024-03-09T12:00:07" |},
         {| total_transactions := 3;
            total_amount := FFinite false 4503599627370497 1;
            biggest_vendor := KStr "A";
            generated_at := "2024-03-09T12:00:07" |},
         {| ticks := 1; bucket := [] |}, {| ticks := 1; bucket := [] |}.
  split; [vm_compute; reflexivity|].
  split; [vm_compute; reflexivity|].
  split.
  { apply perm_trans with [record_tiny; record_large; record_tiny].
    - apply perm_swap.
    - apply perm_skip. apply perm_swap. }
  split; [repeat constructor|].
  split; [reflexivity|]. split; [reflexivity|].
  split; [discriminate|].
  vm_compute. discriminate.
Qed.

Lemma biggest_vendor_from_input_witness :
  exists it, In it scenario_records /\ vendor_of it = VStr "A".
Proof.
  refine (proj1 (proj2 (biggest_vendor_from_input (table_of [])
                          scenario_records scenario_stats initial_world
                          {| ticks := 1; bucket := [] |} _)) _).
  - vm_compute. reflexivity.
  - discriminate.
Defined.

(** A record whose vendor attribute is NULL is a group of its own, under
    the key None: the top vendor of this one record is null. *)
Lemma biggest_vendor_null_counterexample :
  exists st w',
    compute_stats (table_of []) [record_null_vendor] initial_world
    = Some (Ok st, w')
    /\ biggest_vendor st = KNone
    /\ [record_null_vendor] <> [].
Proof.
  exists {| total_transactions := 1;
            total_amount := FFinite false 5629499534213120 (-50);
            biggest_vendor := KNone;
            generated_at := "2024-03-09T12:00:07" |},
         {| ticks := 1; bucket := [] |}.
  split; [vm_compute; reflexivity|]. split; [reflexivity | discriminate].
Qed.

(** * Further properties *)

(** ** The loader beyond complete scans *)

Lemma scan_error (E : environment) (start : option item)
    (code message operation : string) (w : world) :
  table_scan E start = ServiceError code message operation ->
  scan E start w = Some (Raise (ClientError code message operation), w).
Proof.
  unfold scan, lift. now intros ->.
Qed.

Lemma scan_loop_fails (E : environment) (start : option item) (n : nat)
    (code message operation : string) :
  scan_fails E start n code message operation ->
  forall r next rest fuel items w,
    n = S rest ->
    table_scan E start = Answer r ->
    LastEvaluatedKey r = Some next ->
    (n <= fuel)%nat ->
    scan_loop E fuel r items w
    = Some (Raise (ClientError code message operation), w).
Proof.
  intros Hfails. induction Hfails
    as [start code message operation Hscan
       | start r0 next0 n code message operation Hscan Hnext Hrest IH];
    intros r next rest fuel items w Hn Hr Hkey Hfuel; [discriminate|].
  rewrite Hscan in Hr. injection Hr as <-.
  rewrite Hnext in Hkey. injection Hkey as <-.
  destruct fuel as [|fuel]; [lia|].
  simpl. rewrite Hnext. unfold bind.
  inversion Hrest as [? ? ? ? Hfail | ? r1 next1 n1 ? ? ? Hr1 Hnext1 Hrest1]; subst.
  - now rewrite (scan_error E _ _ _ _ w Hfail).
  - rewrite (scan_answer E _ r1 w Hr1).
    apply (IH r1 next1 n1 fuel _ w eq_refl Hr1 Hnext1). lia.
Qed.

(** X1.  When the fetch of a page fails, after any number of pages read,
    the loader raises the service error and returns no records, and the
    request is answered 500 with the error's text; nothing is written
    and the clock is not read. *)
Theorem page_failure_fails_request (E : environment) (n fuel : nat)
    (code message operation : string) (ev : event) (limit : option Z)
    (w : world) :
  scan_fails E None n code message operation ->
  (n <= fuel)%nat ->
  is_options ev = false ->
  limit_of ev = Ok limit ->
  scan_all_transactions E fuel w
  = Some (Raise (ClientError code message operation), w)
  /\ lambda_handler E fuel ev w
     = Some ({| statusCode := 500;
                headers := CORS_HEADERS;
                body := JsonBody
                  (JObj [("status", JStr "error");
                         ("message",
                          JStr ("An error occurred (" ++ code
                                  ++ ") when calling the " ++ operation
                                  ++ " operation: " ++ message))]) |},
             w).
Proof.
  intros Hfails Hfuel Hmethod Hlimit.
  assert (Hscan : scan_all_transactions E fuel w
                  = Some (Raise (ClientError code message operation), w)).
  { unfold scan_all_transactions, bind.
    inversion Hfails as [? ? ? ? Hfail | ? r next n' ? ? ? Hr Hnext Hrest]; subst.
    - now rewrite (scan_error E _ _ _ _ w Hfail).
    - rewrite (scan_answer E _ r w Hr).
      exact (scan_loop_fails E None _ code message operation Hfails
               r next n' fuel _ w eq_refl Hr Hnext Hfuel). }
  split; [exact Hscan|].
  unfold lambda_handler, handle. rewrite Hmethod.
  unfold bind at 1. unfold lift at 1. rewrite Hlimit.
  unfold bind at 1. rewrite Hscan. reflexivity.
Qed.

Lemma page_failure_fails_request_witness :
  lambda_handler broken_table 3 get_request initial_world
  = Some ({| statusCode := 500;
             headers := CORS_HEADERS;
             body := JsonBody
               (JObj [("status", JStr "error");
                      ("message",
                       JStr "An error occurred (ProvisionedThroughputExceededException) when calling the Scan operation: Rate exceeded")]) |},
          initial_world).
Proof.
  refine (proj2 (page_failure_fails_request broken_table 1 3
                   "ProvisionedThroughputExceededException" "Rate exceeded"
                   "Scan" get_request None initial_world _ _ eq_refl eq_refl)).
  - eapply fails_later; [reflexivity | reflexivity |].
    apply fails_now. reflexivity.
  - lia.
Defined.

(** The loop of the loader on a table whose pages all carry a key. *)
Lemma scan_loop_endless (E : environment) :
  (forall start, exists r next,
      table_scan E start = Answer r /\ LastEvaluatedKey r = Some next) ->
  forall fuel r next items w,
    LastEvaluatedKey r = Some next ->
    scan_loop E fuel r items w = None.
Proof.
  intros Hmore. induction fuel as [|fuel IH]; intros r next items w Hnext; simpl;
    rewrite Hnext; [reflexivity|].
  destruct (Hmore (Some next)) as (r1 & next1 & Hr1 & Hnext1).
  unfold bind. rewrite (scan_answer E _ r1 w Hr1). eapply IH; eassumption.
Qed.

(** X2.  The loader has no bound of its own on the number of pages: on a
    table whose every page carries a continuation key it does not end,
    whatever the fuel, and neither does the request. *)
Theorem loader_follows_keys_forever (E : environment) (ev : event)
    (limit : option Z) :
  (forall start, exists r next,
      table_scan E start = Answer r /\ LastEvaluatedKey r = Some next) ->
  is_options ev = false ->
  limit_of ev = Ok limit ->
  forall fuel w,
    scan_all_transactions E fuel w = None
    /\ lambda_handler E fuel ev w = None.
Proof.
  intros Hmore Hmethod Hlimit fuel w.
  assert (Hscan : scan_all_transactions E fuel w = None).
  { unfold scan_all_transactions, bind.
    destruct (Hmore None) as (r & next & Hr & Hnext).
    rewrite (scan_answer E _ r w Hr).
    eapply scan_loop_endless; eassumption. }
  split; [exact Hscan|].
  unfold lambda_handler, handle. rewrite Hmethod.
  unfold bind at 1. unfold lift at 1. rewrite Hlimit.
  unfold bind at 1. now rewrite Hscan.
Qed.

Lemma loader_follows_keys_forever_witness :
  scan_all_transactions endless_table 1000 initial_world = None
  /\ lambda_handler endless_table 1000 get_request initial_world = None.
Proof.
  refine (loader_follows_keys_forever endless_table get_request None _
            eq_refl eq_refl 1000%nat initial_world).
  intros start. eexists. eexists. split; reflexivity.
Defined.





(** ** Every path of the handler *)

Lemma compute_stats_returns (E : environment) (items : list item)
    (w w' : world) (st : Stats) :
  compute_stats E items w = Some (Ok st, w') ->
  w' = {| ticks := S (ticks w); bucket := bucket w |}
  /\ generated_at st = isoformat (clock E (ticks w)).
Proof.
  unfold compute_stats, bind, lift, ret.
  destruct (stats_loop items (Finite false 0 0) []) as [[total vt]|e];
    [|discriminate].
  destruct (max_vendor vt) as [vendor|e]; [|discriminate].
  destruct (decimal_to_float total) as [amount|e]; [|discriminate].
  unfold utcnow. intros [= <- <-]. auto.
Qed.

Lemma compute_stats_raises (E : environment) (items : list item)
    (w w' : world) (exc : exn) :
  compute_stats E items w = Some (Raise exc, w') -> w' = w.
Proof.
  unfold compute_stats, bind, lift, ret.
  destruct (stats_loop items (Finite false 0 0) []) as [[total vt]|e];
    [|now intros [= _ <-]].
  destruct (max_vendor vt) as [vendor|e]; [|now intros [= _ <-]].
  destruct (decimal_to_float total) as [amount|e]; [|now intros [= _ <-]].
  unfold utcnow. discriminate.
Qed.

Lemma compute_stats_ends (E : environment) (items : list item) (w : world) :
  compute_stats E items w <> None.
Proof.
  unfold compute_stats, bind, lift, ret.
  destruct (stats_loop items (Finite false 0 0) []) as [[total vt]|e];
    [|discriminate].
  destruct (max_vendor vt) as [vendor|e]; [|discriminate].
  destruct (decimal_to_float total) as [amount|e]; [|discriminate].
  unfold utcnow. discriminate.
Qed.

Lemma build_summary_returns (E : environment) (st : Stats) (w w' : world)
    (p : summary_payload) :
  build_summary E st w = Some (Ok p, w') ->
  exists text stats_doc,
    json_of_stats st = Ok stats_doc
    /\ p = {| status := "success"; summary := text; stats := st;
              summaryKey := SUMMARY_PREFIX ++ "summary-"
                              ++ strftime_YmdHMS (clock E (ticks w)) ++ ".json" |}
    /\ w' = {| ticks := S (ticks w);
               bucket :=
                 (bucket w ++
                  [{| Bucket := BUCKET_NAME; Key := summaryKey p;
                      Body := JObj [("summary", JStr text); ("stats", stats_doc)];
                      ContentType := "application/json" |}])%list |}.
Proof.
  unfold build_summary, bind, lift.
  destruct (summary_text_of st) as [text|e]; [|discriminate].
  unfold utcnow. cbv beta iota.
  destruct (json_of_stats st) as [stats_doc|e]; [|discriminate].
  cbv beta iota. unfold put_object. cbv beta iota zeta.
  match goal with
  | |- context [s3_put_object E ?req] =>
      destruct (s3_put_object E req) as [[]|code message operation]
  end; [|discriminate].
  unfold ret. intros [= <- <-].
  exists text, stats_doc. simpl. auto.
Qed.

(** The steps of the handler after the limit was read and the records
    were loaded. *)
Lemma handle_loaded (E : environment) (fuel : nat) (ev : event)
    (limit : option Z) (items : list item) (w w1 : world) :
  is_options ev = false ->
  limit_of ev = Ok limit ->
  scan_all_transactions E fuel w = Some (Ok items, w1) ->
  handle E fuel ev w
  = match items with
    | [] =>
        bind (empty_payload E)
          (fun doc => ret {| statusCode := 200; headers := CORS_HEADERS;
                             body := JsonBody doc |}) w
    | _ :: _ =>
        bind (lift (serialize_transactions items))
          (fun serialized =>
             bind (compute_stats E items)
               (fun st =>
                  bind (build_summary E st)
                    (fun payload =>
                       bind (lift (json_of_body payload
                                     (apply_limit serialized limit)))
                         (fun doc =>
                            ret {| statusCode := 200; headers := CORS_HEADERS;
                                   body := JsonBody doc |})))) w
    end.
Proof.
  intros Hmethod Hlimit Hscan.
  assert (w1 = w) by (eapply scan_all_transactions_world; eassumption). subst w1.
  unfold handle. rewrite Hmethod.
  unfold bind at 1. unfold lift at 1. rewrite Hlimit.
  unfold bind at 1. rewrite Hscan. destruct items; reflexivity.
Qed.

(** X4.  The handler catches everything: it fails to answer only when
    the loader does not end. *)
Theorem handler_answers_unless_scan_diverges (E : environment) (fuel : nat)
    (ev : event) (w : world) :
  lambda_handler E fuel ev w = None
  <-> is_options ev = false
      /\ (exists limit, limit_of ev = Ok limit)
      /\ scan_all_transactions E fuel w = None.
Proof.
  split.
  - unfold lambda_handler.
    destruct (handle E fuel ev w) as [[[r|exc] w1]|] eqn:Hh; try discriminate.
    intros _. unfold handle in Hh.
    destruct (is_options ev); [discriminate|].
    unfold bind at 1 in Hh. unfold lift at 1 in Hh.
    destruct (limit_of ev) as [limit|e]; [|discriminate].
    split; [reflexivity|]. split; [eauto|].
    unfold bind at 1 in Hh.
    destruct (scan_all_transactions E fuel w) as [[[items|e] w1]|] eqn:Hscan;
      [|discriminate|reflexivity].
    exfalso. destruct items as [|it rest].
    + unfold empty_payload, bind, utcnow, ret in Hh. discriminate.
    + unfold bind at 1 in Hh. unfold lift at 1 in Hh.
      destruct (serialize_transactions (it :: rest)) as [serialized|e];
        [|discriminate].
      unfold bind at 1 in Hh.
      destruct (compute_stats E (it :: rest) w1) as [[[st|e] w2]|] eqn:Hstats;
        [|discriminate|now apply compute_stats_ends in Hstats].
      unfold bind at 1 in Hh.
      destruct (build_summary E st w2) as [[[p|e] w3]|] eqn:Hsummary;
        [|discriminate|now apply build_summary_ends in Hsummary].
      unfold bind, lift, ret in Hh.
      destruct (json_of_body p _); discriminate.
  - intros (Hmethod & [limit Hlimit] & Hscan).
    unfold lambda_handler, handle. rewrite Hmethod.
    unfold bind at 1. unfold lift at 1. rewrite Hlimit.
    unfold bind at 1. now rewrite Hscan.
Qed.

Lemma object_at_last (bucket_name key : string) (writes : list put_request)
    (request : put_request) :
  object_at bucket_name key (writes ++ [request])
  = if String.eqb (Bucket request) bucket_name && String.eqb (Key request) key
    then Some request
    else object_at bucket_name key writes.
Proof.
  unfold object_at. rewrite rev_app_distr. reflexivity.
Qed.

Lemma build_summary_written (E : environment) (st : Stats) (w w' : world)
    (p : summary_payload) :
  build_summary E st w = Some (Ok p, w') -> snapshot_written w w'.
Proof.
  intros Hrun.
  apply build_summary_ok in Hrun as (text & stats_doc & _ & Hp & _ & Hbucket).
  eexists. eexists. split; [exact Hbucket|]. split; [reflexivity|].
  split; [rewrite Hp; reflexivity|].
  intros bucket_name key. rewrite Hbucket. apply object_at_last.
Qed.

Lemma snapshot_written_after (w0 w w' : world) :
  bucket w = bucket w0 -> snapshot_written w w' -> snapshot_written w0 w'.
Proof.
  intros Hsame (request & stamp & Hbucket & H). rewrite Hsame in *.
  exists request, stamp. split; [exact Hbucket | exact H].
Qed.

(** X5.  Every answer carries the CORS headers and is of one of four
    kinds: 204 with an empty body for a preflight, which leaves the
    world alone; 200 with status [no_data], nothing written; 200 with
    status [success], the snapshot written; 500 with the body
    [{"status": "error", "message": ...}], with nothing or the snapshot
    written.  No request makes more than one write, and the write is
    that of a snapshot: it replaces what the bucket held under the
    snapshot's key and leaves every other key as it was. *)
Theorem answer_shape (E : environment) (fuel : nat) (ev : event)
    (w w' : world) (resp : response) :
  lambda_handler E fuel ev w = Some (resp, w') ->
  headers resp = CORS_HEADERS
  /\ ((is_options ev = true /\ statusCode resp = 204
       /\ body resp = EmptyBody /\ w' = w)
      \/ (is_options ev = false /\ statusCode resp = 200
          /\ exists doc,
               body resp = JsonBody doc
               /\ ((json_get "status" doc = Some (JStr "no_data")
                    /\ bucket w' = bucket w)
                   \/ (json_get "status" doc = Some (JStr "success")
                       /\ snapshot_written w w')))
      \/ (is_options ev = false /\ statusCode resp = 500
          /\ (exists exc,
                 body resp
                 = JsonBody (JObj [("status", JStr "error");
                                   ("message", JStr (str_exn exc))]))
          /\ (bucket w' = bucket w \/ snapshot_written w w'))).
Proof.
  unfold lambda_handler.
  destruct (handle E fuel ev w) as [[[r|exc] w1]|] eqn:Hh; try discriminate;
    intros [= <- <-].
  - unfold handle in Hh. destruct (is_options ev) eqn:Hmethod.
    + unfold ret in Hh. injection Hh as <- <-.
      split; [reflexivity|]. now left.
    + apply bind_ok in Hh as (limit & w2 & Hlimit & Hh).
      apply lift_ok in Hlimit as [_ ->].
      apply bind_ok in Hh as (items & w2 & Hscan & Hh).
      apply scan_all_transactions_world in Hscan. subst w2.
      destruct items as [|it rest].
      * apply bind_ok in Hh as (d & w3 & Hempty & Hret).
        unfold ret in Hret. injection Hret as <- <-.
        apply bind_ok in Hempty as (now & w4 & Hnow & Hret).
        unfold ret in Hret. injection Hret as <- <-.
        apply utcnow_bucket in Hnow.
        split; [reflexivity|]. right. left.
        split; [reflexivity|]. split; [reflexivity|].
        eexists. split; [reflexivity|]. left.
        split; [reflexivity | exact Hnow].
      * apply bind_ok in Hh as (serialized & w2 & Hser & Hh).
        apply lift_ok in Hser as [_ ->].
        apply bind_ok in Hh as (st & w2 & Hstats & Hh).
        apply compute_stats_bucket in Hstats.
        apply bind_ok in Hh as (p & w3 & Hsummary & Hh).
        pose proof (build_summary_written _ _ _ _ _ Hsummary) as Hwritten.
        apply build_summary_ok in Hsummary
          as (text & stats_doc & _ & Hp & _ & Hbucket).
        apply bind_ok in Hh as (d & w4 & Hjson & Hret).
        apply lift_ok in Hjson as [Hjson ->].
        unfold ret in Hret. injection Hret as <- <-.
        unfold json_of_body in Hjson.
        apply rbind_ok in Hjson as (stats_doc' & _ & Hjson).
        apply rbind_ok in Hjson as (docs & _ & Hjson).
        injection Hjson as <-.
        split; [reflexivity|]. right. left.
        split; [reflexivity|]. split; [reflexivity|].
        eexists. split; [reflexivity|]. right.
        split; [rewrite Hp; reflexivity|].
        exact (snapshot_written_after w w2 w3 Hstats Hwritten).
  - split; [reflexivity|].
    unfold handle in Hh. destruct (is_options ev) eqn:Hmethod;
      [discriminate|].
    right. right. split; [reflexivity|]. split; [reflexivity|].
    split; [exists exc; reflexivity|].
    unfold bind at 1 in Hh. unfold lift at 1 in Hh.
    destruct (limit_of ev) as [limit|e]; [|injection Hh as _ <-; now left].
    unfold bind at 1 in Hh.
    destruct (scan_all_transactions E fuel w) as [[[items|e] w2]|] eqn:Hscan;
      [|injection Hh as _ <-;
        apply scan_all_transactions_world in Hscan; subst; now left
       |discriminate].
    apply scan_all_transactions_world in Hscan. subst w2.
    destruct items as [|it rest].
    + unfold empty_payload, bind, utcnow, ret in Hh. discriminate.
    + unfold bind at 1 in Hh. unfold lift at 1 in Hh.
      destruct (serialize_transactions (it :: rest)) as [serialized|e];
        [|injection Hh as _ <-; now left].
      unfold bind at 1 in Hh.
      destruct (compute_stats E (it :: rest) w) as [[[st|e] w2]|] eqn:Hstats;
        [|injection Hh as _ <-;
          apply compute_stats_bucket in Hstats; now left
         |discriminate].
      apply compute_stats_bucket in Hstats.
      unfold bind at 1 in Hh.
      destruct (build_summary E st w2) as [[[p|e] w3]|] eqn:Hsummary;
        [|injection Hh as _ <-;
          apply build_summary_bucket_on_raise in Hsummary; left; congruence
         |discriminate].
      apply build_summary_written in Hsummary.
      unfold bind, lift, ret in Hh.
      destruct (json_of_body p _); [discriminate|].
      injection Hh as _ <-. right.
      exact (snapshot_written_after w w2 w3 Hstats Hsummary).
Qed.

Lemma answer_shape_witness :
  headers scenario_response = CORS_HEADERS
  /\ ((is_options get_request = true /\ statusCode scenario_response = 204
       /\ body scenario_response = EmptyBody /\ scenario_world = initial_world)
      \/ (is_options get_request = false /\ statusCode scenario_response = 200
          /\ exists doc,
               body scenario_response = JsonBody doc
               /\ ((json_get "status" doc = Some (JStr "no_data")
                    /\ bucket scenario_world = bucket initial_world)
                   \/ (json_get "status" doc = Some (JStr "success")
                       /\ snapshot_written initial_world scenario_world)))
      \/ (is_options get_request = false /\ statusCode scenario_response = 500
          /\ (exists exc,
                 body scenario_response
                 = JsonBody (JObj [("status", JStr "error");
                                   ("message", JStr (str_exn exc))]))
          /\ (bucket scenario_world = bucket initial_world
              \/ snapshot_written initial_world scenario_world))).
Proof.
  assert (Hrun : lambda_handler (table_of scenario_records) 0 get_request
                   initial_world
                 = Some (scenario_response, scenario_world))
    by (vm_compute; reflexivity).
  exact (answer_shape (table_of scenario_records) 0 get_request
           initial_world scenario_world scenario_response Hrun).
Defined.

(** Two requests answered within the same second write under the same
    key: the snapshot of the second replaces that of the first. *)
Example same_second_snapshots_collide :
  exists resp1 w1 resp2 w2 first second,
    lambda_handler (table_of scenario_records) 0 get_request initial_world
    = Some (resp1, w1)
    /\ lambda_handler (table_of [record_b]) 0 get_request w1 = Some (resp2, w2)
    /\ bucket w2 = [first; second]
    /\ Key first = Key second
    /\ Body first <> Body second
    /\ object_at BUCKET_NAME scenario_key (bucket w1) = Some first
    /\ object_at BUCKET_NAME scenario_key (bucket w2) = Some second.
Proof.
  do 6 eexists. split; [vm_compute; reflexivity|].
  split; [vm_compute; reflexivity|]. split; [reflexivity|].
  split; [reflexivity|]. split; [discriminate|].
  split; vm_compute; reflexivity.
Qed.

(** The whole of a successful request, read off its answer. *)
Lemma handler_success_full (E : environment) (fuel : nat) (ev : event)
    (w w' : world) (resp : response) (doc : json) :
  lambda_handler E fuel ev w = Some (resp, w') ->
  body resp = JsonBody doc ->
  json_get "status" doc = Some (JStr "success") ->
  exists limit items serialized st text stats_doc docs,
    limit_of ev = Ok limit
    /\ scan_all_transactions E fuel w = Some (Ok items, w)
    /\ items <> []
    /\ serialize_transactions items = Ok serialized
    /\ compute_stats E items w
       = Some (Ok st, {| ticks := S (ticks w); bucket := bucket w |})
    /\ json_of_stats st = Ok stats_doc
    /\ json_of_transactions (apply_limit serialized limit) = Ok docs
    /\ doc = JObj [("status", JStr "success");
                   ("summary", JStr text);
                   ("stats", stats_doc);
                   ("summaryKey",
                    JStr (SUMMARY_PREFIX ++ "summary-"
                            ++ strftime_YmdHMS (clock E (S (ticks w)))
                            ++ ".json"));
                   ("transactions", JArr docs)]
    /\ ticks w' = S (S (ticks w)).
Proof.
  unfold lambda_handler.
  destruct (handle E fuel ev w) as [[[r|exc] w1]|] eqn:Hh; try discriminate.
  - intros [= <- <-] Hbody Hstatus.
    unfold handle in Hh. destruct (is_options ev).
    + unfold ret in Hh. injection Hh as <- <-. discriminate.
    + apply bind_ok in Hh as (limit & w2 & Hlimit & Hh).
      apply lift_ok in Hlimit as [Hlimit ->].
      apply bind_ok in Hh as (items & w2 & Hscan & Hh).
      pose proof (scan_all_transactions_world _ _ _ _ _ Hscan). subst w2.
      destruct items as [|it rest].
      * apply bind_ok in Hh as (d & w3 & Hempty & Hret).
        unfold ret in Hret. injection Hret as <- <-.
        apply bind_ok in Hempty as (now & w4 & _ & Hret).
        unfold ret in Hret. injection Hret as <- <-.
        simpl in Hbody. injection Hbody as <-. discriminate.
      * apply bind_ok in Hh as (serialized & w2 & Hser & Hh).
        apply lift_ok in Hser as [Hser ->].
        apply bind_ok in Hh as (st & w2 & Hstats & Hh).
        pose proof (compute_stats_returns _ _ _ _ _ Hstats) as [-> _].
        apply bind_ok in Hh as (p & w3 & Hsummary & Hh).
        apply build_summary_returns in Hsummary
          as (text & stats_doc & Hdoc & Hp & ->).
        apply bind_ok in Hh as (d & w4 & Hjson & Hret).
        apply lift_ok in Hjson as [Hjson ->].
        unfold ret in Hret. injection Hret as <- <-.
        simpl in Hbody. injection Hbody as <-.
        unfold json_of_body in Hjson.
        apply rbind_ok in Hjson as (stats_doc' & Hdoc' & Hjson).
        apply rbind_ok in Hjson as (docs & Hdocs & Hjson).
        injection Hjson as <-.
        assert (Hst : stats p = st) by (rewrite Hp; reflexivity).
        rewrite Hst in Hdoc'. rewrite Hdoc in Hdoc'. injection Hdoc' as <-.
        exists limit, (it :: rest), serialized, st, text, stats_doc, docs.
        repeat split; auto; try discriminate.
        rewrite Hp. reflexivity.
  - intros [= <- <-] Hbody Hstatus.
    simpl in Hbody. injection Hbody as <-. discriminate.
Qed.

Lemma serialize_transactions_length (items : list item)
    (serialized : list normalized_item) :
  serialize_transactions items = Ok serialized ->
  List.length serialized = List.length items.
Proof.
  revert serialized. induction items as [|it rest IH]; simpl; intros serialized.
  - now intros [= <-].
  - intros H. apply rbind_ok in H as (n & _ & H).
    apply rbind_ok in H as (ns & Hns & H). injection H as <-.
    simpl. f_equal. now apply IH.
Qed.

Lemma json_of_transactions_length (l : list normalized_item) (docs : list json) :
  json_of_transactions l = Ok docs -> List.length docs = List.length l.
Proof.
  revert docs. induction l as [|it rest IH]; simpl; intros docs.
  - now intros [= <-].
  - intros H. apply rbind_ok in H as (j & _ & H).
    apply rbind_ok in H as (js & Hjs & H). injection H as <-.
    simpl. f_equal. now apply IH.
Qed.

Lemma apply_limit_length {A B : Type} (l : list A) (l' : list B)
    (limit : option Z) :
  List.length l = List.length l' ->
  List.length (apply_limit l limit) = List.length (apply_limit l' limit).
Proof.
  intros Hlen. unfold apply_limit. destruct limit as [n|]; [|exact Hlen].
  destruct (n <=? 0); [exact Hlen|].
  now rewrite !length_firstn, Hlen.
Qed.

Lemma json_of_stats_fields (st : Stats) (stats_doc : json) :
  json_of_stats st = Ok stats_doc ->
  json_get "total_transactions" stats_doc
  = Some (JInt (total_transactions st))
  /\ json_get "generated_at" stats_doc = Some (JStr (generated_at st)).
Proof.
  unfold json_of_stats. intros H.
  apply rbind_ok in H as (vendor & _ & H). injection H as <-.
  split; reflexivity.
Qed.

(** X6.  The limit cuts the list of transactions and nothing else: in a
    successful answer the transactions are the normalized records up to
    the limit, as many as [apply_limit] keeps of the loaded records,
    while [total_transactions] counts all loaded records. *)
Theorem limit_leaves_count (E : environment) (fuel : nat) (ev : event)
    (w w' : world) (resp : response) (doc : json) :
  lambda_handler E fuel ev w = Some (resp, w') ->
  body resp = JsonBody doc ->
  json_get "status" doc = Some (JStr "success") ->
  exists limit items serialized docs stats_doc,
    limit_of ev = Ok limit
    /\ scan_all_transactions E fuel w = Some (Ok items, w)
    /\ serialize_transactions items = Ok serialized
    /\ json_of_transactions (apply_limit serialized limit) = Ok docs
    /\ json_get "transactions" doc = Some (JArr docs)
    /\ List.length docs = List.length (apply_limit items limit)
    /\ json_get "stats" doc = Some stats_doc
    /\ json_get "total_transactions" stats_doc
       = Some (JInt (Z.of_nat (List.length items))).
Proof.
  intros Hrun Hbody Hstatus.
  destruct (handler_success_full E fuel ev w w' resp doc Hrun Hbody Hstatus)
    as (limit & items & serialized & st & text & stats_doc & docs
        & Hlimit & Hscan & _ & Hser & Hstats & Hdoc & Hdocs & -> & _).
  exists limit, items, serialized, docs, stats_doc.
  repeat split; auto.
  - rewrite (json_of_transactions_length _ _ Hdocs).
    apply apply_limit_length. now apply serialize_transactions_length.
  - apply compute_stats_ok in Hstats as (_ & _ & _ & _ & _ & Hcount).
    rewrite <- Hcount. now apply json_of_stats_fields.
Qed.

(** X7.  A successful request reads the clock twice: [generated_at] is
    the first reading, taken by [compute_stats], and the snapshot key is
    made of the second, taken by [build_summary]. *)
Theorem success_reads_clock_twice (E : environment) (fuel : nat) (ev : event)
    (w w' : world) (resp : response) (doc : json) :
  lambda_handler E fuel ev w = Some (resp, w') ->
  body resp = JsonBody doc ->
  json_get "status" doc = Some (JStr "success") ->
  ticks w' = S (S (ticks w))
  /\ json_get "summaryKey" doc
     = Some (JStr ("summaries/summary-"
                     ++ strftime_YmdHMS (clock E (S (ticks w))) ++ ".json"))
  /\ exists stats_doc,
       json_get "stats" doc = Some stats_doc
       /\ json_get "generated_at" stats_doc
          = Some (JStr (isoformat (clock E (ticks w)))).
Proof.
  intros Hrun Hbody Hstatus.
  destruct (handler_success_full E fuel ev w w' resp doc Hrun Hbody Hstatus)
    as (limit & items & serialized & st & text & stats_doc & docs
        & _ & _ & _ & _ & Hstats & Hdoc & _ & -> & Hticks).
  split; [exact Hticks|]. split; [reflexivity|].
  exists stats_doc. split; [reflexivity|].
  apply compute_stats_returns in Hstats as [_ Hgen].
  rewrite <- Hgen. now apply json_of_stats_fields.
Qed.

Lemma limit_leaves_count_witness :
  exists limit items serialized docs stats_doc,
    limit_of get_one_request = Ok limit
    /\ scan_all_transactions (table_of scenario_records) 0 initial_world
       = Some (Ok items, initial_world)
    /\ serialize_transactions items = Ok serialized
    /\ json_of_transactions (apply_limit serialized limit) = Ok docs
    /\ json_get "transactions" limited_doc = Some (JArr docs)
    /\ List.length docs = List.length (apply_limit items limit)
    /\ json_get "stats" limited_doc = Some stats_doc
    /\ json_get "total_transactions" stats_doc
       = Some (JInt (Z.of_nat (List.length items))).
Proof.
  assert (Hrun : lambda_handler (table_of scenario_records) 0 get_one_request
                   initial_world
                 = Some (limited_response, scenario_world))
    by (vm_compute; reflexivity).
  exact (limit_leaves_count (table_of scenario_records) 0 get_one_request
           initial_world scenario_world limited_response limited_doc
           Hrun eq_refl eq_refl).
Defined.

Lemma success_reads_clock_twice_witness :
  ticks ticking_world = 2%nat
  /\ json_get "summaryKey" ticking_doc
     = Some (JStr "summaries/summary-20240309120008.json")
  /\ exists stats_doc,
       json_get "stats" ticking_doc = Some stats_doc
       /\ json_get "generated_at" stats_doc
          = Some (JStr "2024-03-09T12:00:07").
Proof.
  assert (Hrun : lambda_handler (ticking_table scenario_records) 0 get_request
                   initial_world
                 = Some (ticking_response, ticking_world))
    by (vm_compute; reflexivity).
  exact (success_reads_clock_twice (ticking_table scenario_records) 0
           get_request initial_world ticking_world ticking_response
           ticking_doc Hrun eq_refl eq_refl).
Defined.

(** ** Failures in the middle of a request *)

Lemma stats_loop_unhashable (items : list item) (it : item) (exc : exn) :
  In it items ->
  hashable (vendor_of it) = Raise exc ->
  forall total vendor_totals,
    exists exc', stats_loop items total vendor_totals = Raise exc'.
Proof.
  intros Hin Hbad.
  induction items as [|it0 rest IH]; [destruct Hin|].
  intros total vendor_totals. simpl.
  destruct (amount_of it0) as [amount|e0]; simpl; [|eauto].
  destruct (add total amount) as [total'|e1]; simpl; [|eauto].
  destruct (hashable (vendor_of it0)) as [vendor|e2] eqn:Hvendor; simpl; [|eauto].
  match goal with
  | |- context [rbind ?r _] => destruct r as [t|e3]; simpl; [|eauto]
  end.
  destruct Hin as [->|Hin]; [congruence|]. now apply IH.
Qed.

(** X8.  A record whose vendor is a list, a map or a set cannot be a
    key of the vendor dictionary: the request fails as a whole with 500
    and nothing else happens, whatever the other records are. *)
Theorem unhashable_vendor_fails (E : environment) (fuel : nat) (ev : event)
    (limit : option Z) (w w1 : world) (items : list item) (it : item)
    (exc : exn) :
  is_options ev = false ->
  limit_of ev = Ok limit ->
  scan_all_transactions E fuel w = Some (Ok items, w1) ->
  In it items ->
  hashable (vendor_of it) = Raise exc ->
  exists exc',
    lambda_handler E fuel ev w
    = Some ({| statusCode := 500;
               headers := CORS_HEADERS;
               body := JsonBody (JObj [("status", JStr "error");
                                       ("message", JStr (str_exn exc'))]) |},
            w).
Proof.
  intros Hmethod Hlimit Hscan Hin Hbad.
  destruct (stats_loop_unhashable items it exc Hin Hbad (Finite false 0 0) [])
    as [exc' Hloop].
  destruct (serialize_transactions_total items) as [serialized Hser].
  exists exc'.
  unfold lambda_handler.
  rewrite (handle_loaded E fuel ev limit items w w1 Hmethod Hlimit Hscan).
  destruct items as [|it0 rest]; [destruct Hin|].
  unfold bind at 1. unfold lift at 1. rewrite Hser.
  unfold bind at 1. unfold compute_stats, bind, lift. rewrite Hloop.
  reflexivity.
Qed.

Lemma unhashable_vendor_fails_witness :
  exists exc',
    lambda_handler (table_of [record_a1; record_list_vendor]) 0 get_request
      initial_world
    = Some ({| statusCode := 500;
               headers := CORS_HEADERS;
               body := JsonBody (JObj [("status", JStr "error");
                                       ("message", JStr (str_exn exc'))]) |},
            initial_world).
Proof.
  refine (unhashable_vendor_fails (table_of [record_a1; record_list_vendor]) 0
            get_request None initial_world initial_world
            [record_a1; record_list_vendor] record_list_vendor
            (TypeError "unhashable type: 'list'") eq_refl eq_refl eq_refl _
            eq_refl).
  right. left. reflexivity.
Defined.

(** X9.  The snapshot is written before the answer is rendered: when a
    record within the limit holds a value that JSON cannot carry, the
    request is answered 500 although the snapshot of its statistics is
    already in the bucket. *)
Theorem snapshot_survives_failed_answer (E : environment) (fuel : nat)
    (ev : event) (limit : option Z) (w w1 w2 w3 : world) (items : list item)
    (serialized : list normalized_item) (st : Stats) (p : summary_payload)
    (exc : exn) :
  is_options ev = false ->
  limit_of ev = Ok limit ->
  scan_all_transactions E fuel w = Some (Ok items, w1) ->
  items <> [] ->
  serialize_transactions items = Ok serialized ->
  compute_stats E items w = Some (Ok st, w2) ->
  build_summary E st w2 = Some (Ok p, w3) ->
  json_of_transactions (apply_limit serialized limit) = Raise exc ->
  lambda_handler E fuel ev w
  = Some ({| statusCode := 500;
             headers := CORS_HEADERS;
             body := JsonBody (JObj [("status", JStr "error");
                                     ("message", JStr (str_exn exc))]) |},
          w3)
  /\ exists request,
       bucket w3 = (bucket w ++ [request])%list
       /\ Key request = summaryKey p
       /\ Bucket request = BUCKET_NAME.
Proof.
  intros Hmethod Hlimit Hscan Hitems Hser Hstats Hsummary Hjson.
  split.
  - unfold lambda_handler.
    rewrite (handle_loaded E fuel ev limit items w w1 Hmethod Hlimit Hscan).
    destruct items as [|it rest]; [congruence|].
    unfold bind at 1. unfold lift at 1. rewrite Hser.
    unfold bind at 1. rewrite Hstats.
    unfold bind at 1. rewrite Hsummary.
    unfold bind, lift, json_of_body.
    apply build_summary_returns in Hsummary as (text & stats_doc & Hdoc & Hp & _).
    assert (Hst : stats p = st) by (rewrite Hp; reflexivity).
    rewrite Hst, Hdoc. simpl. rewrite Hjson. reflexivity.
  - apply compute_stats_bucket in Hstats.
    apply build_summary_ok in Hsummary as (text & stats_doc & _ & _ & _ & Hbucket).
    eexists. split; [rewrite Hbucket, Hstats; reflexivity|].
    split; reflexivity.
Qed.

Lemma snapshot_survives_failed_answer_witness :
  exists w3,
    lambda_handler (table_of [record_nested]) 0 get_request initial_world
    = Some ({| statusCode := 500;
               headers := CORS_HEADERS;
               body := JsonBody
                 (JObj [("status", JStr "error");
                        ("message",
                         JStr "Object of type Decimal is not JSON serializable")]) |},
            w3)
    /\ exists request,
         bucket w3 = (bucket initial_world ++ [request])%list
         /\ Key request = scenario_key
         /\ Bucket request = BUCKET_NAME.
Proof.
  exists {| ticks := 2;
            bucket :=
              [{| Bucket := "acct-ai-uploads-https";
                  Key := scenario_key;
                  Body := JObj [("summary",
                                 JStr "1 transactions captured. Top vendor: C. Total spend: $3.00.");
                                ("stats",
                                 JObj [("total_transactions", JInt 1);
                                       ("total_amount",
                                        JFloat (FFinite false 6755399441055744 (-51)));
                                       ("biggest_vendor", JStr "C");
                                       ("generated_at", JStr "2024-03-09T12:00:07")])];
                  ContentType := "application/json" |}] |}.
  refine (snapshot_survives_failed_answer (table_of [record_nested]) 0
            get_request None initial_world initial_world
            {| ticks := 1; bucket := [] |} _ [record_nested] _
            {| total_transactions := 1;
               total_amount := FFinite false 6755399441055744 (-51);
               biggest_vendor := KStr "C";
               generated_at := "2024-03-09T12:00:07" |}
            {| status := "success";
               summary := "1 transactions captured. Top vendor: C. Total spend: $3.00.";
               stats := {| total_transactions := 1;
                           total_amount := FFinite false 6755399441055744 (-51);
                           biggest_vendor := KStr "C";
                           generated_at := "2024-03-09T12:00:07" |};
               summaryKey := scenario_key |}
            (TypeError "Object of type Decimal is not JSON serializable")
            eq_refl eq_refl eq_refl _ _ _ _ _).
  - discriminate.
  - vm_compute. reflexivity.
  - vm_compute. reflexivity.
  - vm_compute. reflexivity.
  - vm_compute. reflexivity.
Defined.

(** With [limit=1] the record with the nested number, being second, is
    not rendered, and the request succeeds. *)
Example unrendered_record_is_not_checked :
  exists resp w' doc,
    lambda_handler (table_of [record_a1; record_nested]) 0 get_one_request
      initial_world = Some (resp, w')
    /\ body resp = JsonBody doc
    /\ json_get "status" doc = Some (JStr "success").
Proof.
  eexists. eexists. eexists. split; [vm_compute; reflexivity|].
  split; reflexivity.
Qed.

(** X10.  The statistics of the payload for an empty table are those
    [compute_stats] returns for no records at the same clock reading. *)
Theorem empty_payload_stats_agree (E : environment) (w : world) :
  exists st doc stats_doc w',
    compute_stats E [] w = Some (Ok st, w')
    /\ empty_payload E w = Some (Ok doc, w')
    /\ json_of_stats st = Ok stats_doc
    /\ json_get "stats" doc = Some stats_doc.
Proof.
  assert (Hzero : decimal_to_float (Finite false 0 0) = Ok (FFinite false 0 0))
    by (vm_compute; reflexivity).
  exists {| total_transactions := 0;
            total_amount := FFinite false 0 0;
            biggest_vendor := KNone;
            generated_at := isoformat (clock E (ticks w)) |}.
  eexists. eexists. eexists.
  split.
  - unfold compute_stats, bind, lift. cbn -[decimal_to_float].
    rewrite Hzero. reflexivity.
  - split; [reflexivity|]. split; reflexivity.
Qed.

(** ** The top vendor *)

Lemma scaled_ltb_at (z1 e1 z2 e2 g : Z) :
  g <= e1 -> g <= e2 ->
  (z2 * 10 ^ (e2 - Z.min e1 e2) <? z1 * 10 ^ (e1 - Z.min e1 e2))
  = (z2 * 10 ^ (e2 - g) <? z1 * 10 ^ (e1 - g)).
Proof.
  intros H1 H2. set (m := Z.min e1 e2).
  assert (Hm1 : m <= e1) by (unfold m; lia).
  assert (Hm2 : m <= e2) by (unfold m; lia).
  assert (Hg : g <= m) by (unfold m; lia).
  replace (e1 - g) with ((e1 - m) + (m - g)) by lia.
  replace (e2 - g) with ((e2 - m) + (m - g)) by lia.
  rewrite !Z.pow_add_r by lia. rewrite !Z.mul_assoc.
  assert (Hp : 0 < 10 ^ (m - g)) by (apply pow10_pos; lia).
  destruct (Z.ltb_spec (z2 * 10 ^ (e2 - m)) (z1 * 10 ^ (e1 - m))) as [Hlt|Hge];
    symmetry.
  - apply Z.ltb_lt. apply Z.mul_lt_mono_pos_r; assumption.
  - apply Z.ltb_ge. apply Z.mul_le_mono_nonneg_r; [lia | assumption].
Qed.

Lemma gt_finite_at (g : Z) (s1 : bool) (c1 : N) (e1 : Z) (s2 : bool) (c2 : N)
    (e2 : Z) :
  g <= e1 -> g <= e2 ->
  gt (Finite s1 c1 e1) (Finite s2 c2 e2)
  = Ok (signed s2 c2 * 10 ^ (e2 - g) <? signed s1 c1 * 10 ^ (e1 - g)).
Proof.
  intros H1 H2. unfold gt. f_equal. now apply scaled_ltb_at.
Qed.

Ltac gt_cases :=
  repeat match goal with
         | s : bool |- _ => destruct s
         end;
  simpl in *; try discriminate; try congruence; try reflexivity.

(** [>] is transitive where it is defined. *)
Lemma gt_trans (a b c : Decimal) :
  gt a b = Ok true -> gt b c = Ok true -> gt a c = Ok true.
Proof.
  destruct a as [s1 c1 e1|s1|s1 g1 p1], b as [s2 c2 e2|s2|s2 g2 p2],
    c as [s3 c3 e3|s3|s3 g3 p3];
    try (unfold gt, invalid_operation; gt_cases; fail).
  set (g := Z.min e1 (Z.min e2 e3)).
  rewrite (gt_finite_at g s1 c1 e1 s2 c2 e2), (gt_finite_at g s2 c2 e2 s3 c3 e3),
    (gt_finite_at g s1 c1 e1 s3 c3 e3) by (unfold g; lia).
  intros [= H1] [= H2]. f_equal.
  apply Z.ltb_lt in H1, H2. apply Z.ltb_lt. lia.
Qed.

(** [b < a] and [c <= b] give [c < a]. *)
Lemma gt_le_trans (a b c : Decimal) :
  gt a b = Ok true -> gt c b = Ok false -> gt a c = Ok true.
Proof.
  destruct a as [s1 c1 e1|s1|s1 g1 p1], b as [s2 c2 e2|s2|s2 g2 p2],
    c as [s3 c3 e3|s3|s3 g3 p3];
    try (unfold gt, invalid_operation; gt_cases; fail).
  set (g := Z.min e1 (Z.min e2 e3)).
  rewrite (gt_finite_at g s1 c1 e1 s2 c2 e2), (gt_finite_at g s3 c3 e3 s2 c2 e2),
    (gt_finite_at g s1 c1 e1 s3 c3 e3) by (unfold g; lia).
  intros [= H1] [= H2]. f_equal.
  apply Z.ltb_lt in H1. apply Z.ltb_ge in H2. apply Z.ltb_lt. lia.
Qed.

(** [a > b] excludes [b > a]. *)
Lemma gt_asym (a b : Decimal) : gt a b = Ok true -> gt b a = Ok false.
Proof.
  destruct a as [s1 c1 e1|s1|s1 g1 p1], b as [s2 c2 e2|s2|s2 g2 p2];
    try (unfold gt, invalid_operation; gt_cases; fail).
  set (g := Z.min e1 e2).
  rewrite (gt_finite_at g s1 c1 e1 s2 c2 e2), (gt_finite_at g s2 c2 e2 s1 c1 e1)
    by (unfold g; lia).
  intros [= H1]. f_equal. apply Z.ltb_lt in H1. apply Z.ltb_ge. lia.
Qed.

(** What [max(d, key=d.get)] returns splits the keys still to visit:
    the totals before the returned key are strictly smaller than its
    total, those after it are not greater. *)
Lemma max_loop_spec (d : vendor_totals_t) (keys : list key) :
  forall before maxitem maxval after k,
    max_loop d keys maxitem (Some maxval) = Ok k ->
    dict_get key_eqb maxitem d = Some maxval ->
    Forall (fun k' => exists t', dict_get key_eqb k' d = Some t'
                                 /\ gt maxval t' = Ok true) before ->
    Forall (fun k' => exists t', dict_get key_eqb k' d = Some t'
                                 /\ gt t' maxval = Ok false) after ->
    exists pre post tk,
      (before ++ maxitem :: after ++ keys = pre ++ k :: post)%list
      /\ dict_get key_eqb k d = Some tk
      /\ Forall (fun k' => exists t', dict_get key_eqb k' d = Some t'
                                      /\ gt tk t' = Ok true) pre
      /\ Forall (fun k' => exists t', dict_get key_eqb k' d = Some t'
                                      /\ gt t' tk = Ok false) post.
Proof.
  induction keys as [|k1 rest IH]; intros before m mv after k Hrun Hm Hb Ha.
  - simpl in Hrun. injection Hrun as <-.
    exists before, after, mv. rewrite app_nil_r. auto.
  - simpl in Hrun.
    destruct (dict_get key_eqb k1 d) as [v|] eqn:Hk1; simpl in Hrun;
      [|discriminate].
    destruct (gt v mv) as [[|]|e] eqn:Hgt; simpl in Hrun; [| |discriminate].
    + destruct (IH (before ++ m :: after)%list k1 v [] k Hrun Hk1)
        as (pre & post & tk & Hsplit & Hk & Hpre & Hpost).
      * apply Forall_app. split.
        -- eapply Forall_impl; [|exact Hb].
           intros k' (t' & Hk' & Hlt). exists t'. split; [exact Hk'|].
           eapply gt_trans; eassumption.
        -- constructor.
           ++ exists mv. auto.
           ++ eapply Forall_impl; [|exact Ha].
              intros k' (t' & Hk' & Hle). exists t'. split; [exact Hk'|].
              eapply gt_le_trans; eassumption.
      * constructor.
      * exists pre, post, tk. split; [|auto].
        rewrite <- Hsplit. simpl. rewrite <- !app_assoc. reflexivity.
    + destruct (IH before m mv (after ++ [k1])%list k Hrun Hm Hb)
        as (pre & post & tk & Hsplit & Hk & Hpre & Hpost).
      * apply Forall_app. split; [exact Ha|].
        constructor; [|constructor]. exists v. auto.
      * exists pre, post, tk. split; [|auto].
        rewrite <- Hsplit. rewrite <- !app_assoc. reflexivity.
Qed.

Lemma max_vendor_spec (d : vendor_totals_t) (k : key) :
  max_vendor d = Ok k ->
  d <> [] ->
  exists pre post tk,
    map fst d = (pre ++ k :: post)%list
    /\ dict_get key_eqb k d = Some tk
    /\ Forall (fun k' => exists t', dict_get key_eqb k' d = Some t'
                                    /\ gt tk t' = Ok true) pre
    /\ Forall (fun k' => exists t', dict_get key_eqb k' d = Some t'
                                    /\ gt t' tk = Ok false) post.
Proof.
  unfold max_vendor. intros Hrun Hd.
  destruct d as [|[k0 v0] rest]; [congruence|].
  cbn [map fst] in *.
  assert (Hk0 : dict_get key_eqb k0 ((k0, v0) :: rest) = Some v0).
  { simpl. now rewrite key_eqb_refl. }
  rewrite Hk0 in Hrun.
  destruct (max_loop_spec _ _ [] k0 v0 [] k Hrun Hk0) as
    (pre & post & tk & Hsplit & H); [constructor|constructor|].
  exists pre, post, tk. split; [exact Hsplit | exact H].
Qed.

(** The keys of a dictionary stay where they are when a value is
    stored, and a new key goes last. *)
Lemma dict_set_order (k : key) (v : Decimal) (d : vendor_totals_t) :
  exists suffix, map fst (dict_set key_eqb k v d) = (map fst d ++ suffix)%list.
Proof.
  induction d as [|[k0 v0] d [suffix IH]]; simpl.
  - now exists [k].
  - destruct (key_eqb k0 k); simpl.
    + exists []. now rewrite app_nil_r.
    + exists suffix. now rewrite IH.
Qed.

Lemma stats_loop_order (items : list item) :
  forall total vt total' vt',
    stats_loop items total vt = Ok (total', vt') ->
    exists suffix, map fst vt' = (map fst vt ++ suffix)%list.
Proof.
  induction items as [|it rest IH]; intros total vt total' vt' Hrun.
  - simpl in Hrun. injection Hrun as <- <-. exists []. now rewrite app_nil_r.
  - apply stats_loop_step in Hrun as (amount & t1 & vendor & t & _ & _ & _ & _ & Hrest).
    apply IH in Hrest as [s2 Hs2].
    destruct (dict_set_order vendor t vt) as [s1 Hs1].
    exists (s1 ++ s2)%list. now rewrite Hs2, Hs1, app_assoc.
Qed.

Lemma stats_loop_app (l1 l2 : list item) :
  forall total vt out,
    stats_loop (l1 ++ l2) total vt = Ok out ->
    exists total1 vt1,
      stats_loop l1 total vt = Ok (total1, vt1)
      /\ stats_loop l2 total1 vt1 = Ok out.
Proof.
  induction l1 as [|it rest IH]; intros total vt out Hrun.
  - exists total, vt. split; [reflexivity | exact Hrun].
  - cbn [app] in Hrun.
    apply stats_loop_step in Hrun
      as (amount & t1 & vendor & t & Ha & Hadd & Hv & Ht & Hrest).
    apply IH in Hrest as (total1 & vt1 & H1 & H2).
    exists total1, vt1. split; [|exact H2].
    simpl. rewrite Ha. simpl. rewrite Hadd. simpl. rewrite Hv. simpl.
    rewrite Ht. simpl. exact H1.
Qed.

(** A record's vendor has a total once the record has been visited. *)
Lemma group_total_some (k : key) (items : list item) (it : item) :
  In it items ->
  hashable (vendor_of it) = Ok k ->
  forall acc r, group_total k items acc = Ok r -> exists t, r = Some t.
Proof.
  intros Hin Hk.
  assert (Hacc : forall items t r,
             group_total k items (Some t) = Ok r -> exists t', r = Some t').
  { clear. induction items as [|it rest IH]; intros t r Hrun; simpl in Hrun.
    - injection Hrun as <-. eauto.
    - destruct (amount_of it); simpl in Hrun; [|discriminate].
      destruct (hashable (vendor_of it)) as [k0|]; simpl in Hrun; [|discriminate].
      destruct (key_eqb k0 k).
      + match type of Hrun with
        | rbind ?a _ = _ => destruct a; simpl in Hrun; [|discriminate]
        end.
        eauto.
      + eauto. }
  induction items as [|it0 rest IH]; [destruct Hin|].
  intros acc r Hrun. simpl in Hrun.
  destruct (amount_of it0) as [amount|]; simpl in Hrun; [|discriminate].
  destruct (hashable (vendor_of it0)) as [k0|] eqn:Hk0; simpl in Hrun;
    [|discriminate].
  destruct Hin as [->|Hin].
  - rewrite Hk in Hk0. injection Hk0 as <-. rewrite key_eqb_refl in Hrun.
    match type of Hrun with
    | rbind ?a _ = _ => destruct a; simpl in Hrun; [|discriminate]
    end.
    eauto.
  - destruct (key_eqb k0 k).
    + match type of Hrun with
      | rbind ?a _ = _ => destruct a; simpl in Hrun; [|discriminate]
      end.
      eauto.
    + eauto.
Qed.

Lemma in_dict_get (k : key) (d : vendor_totals_t) (t : Decimal) :
  dict_get key_eqb k d = Some t ->
  exists k', In k' (map fst d) /\ key_eqb k' k = true.
Proof.
  induction d as [|[k0 v0] d IH]; simpl; [discriminate|].
  destruct (key_eqb k0 k) eqn:Hk0.
  - intros _. exists k0. auto.
  - intros H. destruct (IH H) as (k' & Hin & Hk'). exists k'. auto.
Qed.

Lemma prefix_before (A : Type) (a s p q : list A) (x : A) :
  (a ++ s = p ++ x :: q)%list -> ~ In x a -> exists r, p = (a ++ r)%list.
Proof.
  revert p. induction a as [|y a IH]; intros p Heq Hx.
  - now exists p.
  - destruct p as [|z p]; simpl in Heq.
    + injection Heq as -> _. elim Hx. now left.
    + injection Heq as -> Heq.
      destruct (IH p Heq) as [r ->]; [intros H; apply Hx; now right|].
      now exists r.
Qed.

Lemma stats_loop_hashable (items : list item) (it : item) total vt out :
  stats_loop items total vt = Ok out ->
  In it items ->
  exists k, hashable (vendor_of it) = Ok k.
Proof.
  intros Hrun Hin.
  destruct (hashable (vendor_of it)) as [k|exc] eqn:Hk; [eauto|].
  destruct (stats_loop_unhashable items it exc Hin Hk total vt) as [exc' Hbad].
  congruence.
Qed.

Lemma vendor_total_some (items : list item) (it : item) (k : key) total vt :
  stats_loop items (Finite false 0 0) [] = Ok (total, vt) ->
  In it items ->
  hashable (vendor_of it) = Ok k ->
  exists tk,
    group_total k items None = Ok (Some tk)
    /\ dict_get key_eqb k vt = Some tk.
Proof.
  intros Hloop Hin Hk.
  pose proof (stats_loop_groups _ _ _ _ _ Hloop k) as Hgroup.
  cbn [dict_get] in Hgroup.
  destruct (group_total_some k items it Hin Hk _ _ Hgroup) as [tk Htk].
  exists tk. split; [now rewrite Hgroup, Htk | exact Htk].
Qed.

(** X11.  The top vendor is greatest: when [compute_stats] returns, the
    Decimal total of the vendor of any record, summed over its group in
    record order, is not greater than that of the vendor reported,
    unless it is that vendor's own group. *)
Theorem biggest_vendor_is_greatest (E : environment) (items : list item)
    (st : Stats) (w w' : world) (it : item) :
  compute_stats E items w = Some (Ok st, w') ->
  In it items ->
  exists k tk tbig,
    hashable (vendor_of it) = Ok k
    /\ group_total k items None = Ok (Some tk)
    /\ group_total (biggest_vendor st) items None = Ok (Some tbig)
    /\ ((key_eqb k (biggest_vendor st) = true /\ tk = tbig)
        \/ gt tk tbig = Ok false).
Proof.
  intros Hrun Hin.
  apply compute_stats_ok in Hrun as (total & vt & Hloop & Hmax & _ & _).
  destruct (stats_loop_hashable _ _ _ _ _ Hloop Hin) as [k Hk].
  destruct (vendor_total_some _ _ _ _ _ Hloop Hin Hk) as (tk & Hgroup & Htk).
  assert (Hvt : vt <> []).
  { destruct items as [|it0 rest]; [destruct Hin|].
    eapply stats_loop_not_empty; eassumption. }
  destruct (max_vendor_spec _ _ Hmax Hvt)
    as (pre & post & tbig & Hsplit & Hbig & Hpre & Hpost).
  exists k, tk, tbig. split; [exact Hk|]. split; [exact Hgroup|].
  split.
  { pose proof (stats_loop_groups _ _ _ _ _ Hloop (biggest_vendor st)) as Hg.
    cbn [dict_get] in Hg. now rewrite Hg, Hbig. }
  destruct (in_dict_get _ _ _ Htk) as (k' & Hk' & Hsame).
  assert (Hget : dict_get key_eqb k' vt = Some tk).
  { rewrite (dict_get_congruent key_eqb key_eqb_sym key_eqb_trans k' k vt Hsame).
    exact Htk. }
  rewrite Hsplit in Hk'. apply in_app_or in Hk' as [Hk'|[Hk'|Hk']].
  - rewrite Forall_forall in Hpre.
    destruct (Hpre _ Hk') as (t' & Ht' & Hlt).
    right. rewrite Hget in Ht'. injection Ht' as <-. now apply gt_asym.
  - subst k'. left. split; [now rewrite key_eqb_sym|]. congruence.
  - rewrite Forall_forall in Hpost.
    destruct (Hpost _ Hk') as (t' & Ht' & Hle).
    right. rewrite Hget in Ht'. now injection Ht' as <-.
Qed.

Lemma biggest_vendor_is_greatest_witness :
  exists k tk tbig,
    hashable (vendor_of record_b) = Ok k
    /\ group_total k scenario_records None = Ok (Some tk)
    /\ group_total (KStr "A") scenario_records None = Ok (Some tbig)
    /\ ((key_eqb k (KStr "A") = true /\ tk = tbig) \/ gt tk tbig = Ok false).
Proof.
  assert (Hrun : compute_stats (table_of scenario_records) scenario_records
                   initial_world
                 = Some (Ok scenario_stats, {| ticks := 1; bucket := [] |}))
    by (vm_compute; reflexivity).
  refine (biggest_vendor_is_greatest (table_of scenario_records)
            scenario_records scenario_stats initial_world _ record_b Hrun _).
  right. left. reflexivity.
Defined.

(** X12.  Ties go to the vendor seen first: a vendor with a record before
    the first record of the vendor reported has a strictly smaller
    total. *)
Theorem earlier_vendor_is_smaller (E : environment) (items : list item)
    (st : Stats) (w w' : world) (before rest : list item) (it : item)
    (k : key) :
  compute_stats E items w = Some (Ok st, w') ->
  items = (before ++ it :: rest)%list ->
  hashable (vendor_of it) = Ok k ->
  (forall it' k', In it' (before ++ [it]) ->
                  hashable (vendor_of it') = Ok k' ->
                  key_eqb k' (biggest_vendor st) = false) ->
  exists tk tbig,
    group_total k items None = Ok (Some tk)
    /\ group_total (biggest_vendor st) items None = Ok (Some tbig)
    /\ gt tbig tk = Ok true.
Proof.
  intros Hrun Hitems Hk Hearly.
  apply compute_stats_ok in Hrun as (total & vt & Hloop & Hmax & _ & _).
  assert (Hin : In it items).
  { rewrite Hitems. apply in_or_app. right. now left. }
  assert (Hvt : vt <> []).
  { destruct items as [|it0 items']; [destruct Hin|].
    eapply stats_loop_not_empty; eassumption. }
  destruct (max_vendor_spec _ _ Hmax Hvt)
    as (pre & post & tbig & Hsplit & Hbig & Hpre & Hpost).
  pose proof (stats_loop_groups _ _ _ _ _ Hloop) as Hgroups.
  cbn [dict_get] in Hgroups.
  assert (Hitems' : items = ((before ++ [it]) ++ rest)%list).
  { rewrite Hitems, <- app_assoc. reflexivity. }
  pose proof Hloop as Hloop'. rewrite Hitems' in Hloop'.
  apply stats_loop_app in Hloop' as (total1 & vt1 & H1 & H2).
  destruct (stats_loop_order _ _ _ _ _ H2) as [suffix Hsuffix].
  assert (Hfresh : ~ In (biggest_vendor st) (map fst vt1)).
  { intros Hb.
    destruct (stats_loop_keys _ _ _ _ _ H1 _ Hb) as [[]|(it' & Hin' & Hit')].
    pose proof (Hearly it' _ Hin' Hit') as Hne.
    now rewrite key_eqb_refl in Hne. }
  rewrite Hsplit in Hsuffix. symmetry in Hsuffix.
  destruct (prefix_before _ _ _ _ _ _ Hsuffix Hfresh) as [r Hr].
  assert (Hin1 : In it (before ++ [it])).
  { apply in_or_app. right. now left. }
  destruct (vendor_total_some _ _ _ _ _ H1 Hin1 Hk) as (t1 & _ & Ht1).
  destruct (in_dict_get _ _ _ Ht1) as (k1 & Hk1 & Hsame).
  assert (Hk1pre : In k1 pre).
  { rewrite Hr. apply in_or_app. now left. }
  rewrite Forall_forall in Hpre.
  destruct (Hpre _ Hk1pre) as (t' & Ht' & Hlt).
  exists t', tbig. split; [|split].
  - rewrite Hgroups.
    rewrite <- (dict_get_congruent key_eqb key_eqb_sym key_eqb_trans k1 k vt Hsame).
    now rewrite Ht'.
  - now rewrite Hgroups, Hbig.
  - exact Hlt.
Qed.

Lemma earlier_vendor_is_smaller_witness :
  exists tk tbig,
    group_total (KStr "B") [record_b; record_a1; record_a2] None
    = Ok (Some tk)
    /\ group_total (KStr "A") [record_b; record_a1; record_a2] None
       = Ok (Some tbig)
    /\ gt tbig tk = Ok true.
Proof.
  assert (Hrun : compute_stats (table_of []) [record_b; record_a1; record_a2]
                   initial_world
                 = Some (Ok scenario_stats, {| ticks := 1; bucket := [] |}))
    by (vm_compute; reflexivity).
  refine (earlier_vendor_is_smaller (table_of [])
            [record_b; record_a1; record_a2] scenario_stats initial_world _
            [] [record_a1; record_a2] record_b (KStr "B") Hrun eq_refl eq_refl
            _).
  intros it' k' [<-|[]] [= <-]. reflexivity.
Defined.

(** Two vendors with the same total: the first one seen is reported. *)
Example tie_goes_to_first_vendor :
  (exists st w',
      compute_stats (table_of []) [record_b; record_c] initial_world
      = Some (Ok st, w')
      /\ biggest_vendor st = KStr "B")
  /\ (exists st w',
         compute_stats (table_of []) [record_c; record_b] initial_world
         = Some (Ok st, w')
         /\ biggest_vendor st = KStr "C").
Proof.
  split; eexists; eexists; (split; [vm_compute; reflexivity | reflexivity]).
Qed.

(** ** Records of scalars *)

Lemma json_of_normalized_scalar (v : value) :
  is_scalar v = true ->
  json_of_field (normalize_field v) = Ok (render_scalar v).
Proof.
  destruct v; simpl; try discriminate; reflexivity.
Qed.

Lemma json_of_normalized_item_flat (it : item) :
  flat it = true ->
  json_of_normalized_item (map normalize_entry it)
  = Ok (map (fun kv => (fst kv, render_scalar (snd kv))) it).
Proof.
  unfold flat. induction it as [|[k v] rest IH]; [reflexivity|].
  cbn [forallb map snd fst]. intros H. apply andb_prop in H as [Hv Hrest].
  unfold normalize_entry at 1. cbn [json_of_normalized_item fst snd].
  rewrite (json_of_normalized_scalar v Hv). cbn [rbind].
  rewrite (IH Hrest). reflexivity.
Qed.

Lemma serialize_transactions_spec (items : list item) :
  Forall (fun it => NoDup (map fst it)) items ->
  serialize_transactions items = Ok (map (map normalize_entry) items).
Proof.
  induction 1 as [|it rest Hit _ IH]; [reflexivity|].
  simpl. rewrite (normalize_item_spec it Hit). simpl. rewrite IH. reflexivity.
Qed.

Lemma json_of_transactions_flat (items : list item) :
  Forall (fun it => flat it = true) items ->
  json_of_transactions (map (map normalize_entry) items)
  = Ok (map render_record items).
Proof.
  induction 1 as [|it rest Hit _ IH]; [reflexivity|].
  cbn [map json_of_transactions].
  rewrite (json_of_normalized_item_flat it Hit). cbn [rbind].
  rewrite IH. reflexivity.
Qed.

Lemma apply_limit_map {A B : Type} (f : A -> B) (l : list A) (limit : option Z) :
  apply_limit (map f l) limit = map f (apply_limit l limit).
Proof.
  unfold apply_limit. destruct limit as [n|]; [|reflexivity].
  destruct (n <=? 0); [reflexivity|]. apply firstn_map.
Qed.

Lemma apply_limit_Forall {A : Type} (P : A -> Prop) (l : list A)
    (limit : option Z) :
  Forall P l -> Forall P (apply_limit l limit).
Proof.
  intros H. unfold apply_limit. destruct limit as [n|]; [|exact H].
  destruct (n <=? 0); [exact H|].
  generalize (Z.to_nat n). clear n. intros n. revert n.
  induction H as [|x l Hx _ IH]; intros [|n]; simpl; constructor; auto.
Qed.

Lemma flat_records_serialize (items : list item) (limit : option Z) :
  Forall (fun it => NoDup (map fst it)) items ->
  Forall (fun it => flat it = true) items ->
  exists serialized,
    serialize_transactions items = Ok serialized
    /\ json_of_transactions (apply_limit serialized limit)
       = Ok (map render_record (apply_limit items limit)).
Proof.
  intros Hkeys Hflat.
  exists (map (map normalize_entry) items).
  split; [now apply serialize_transactions_spec|].
  rewrite apply_limit_map. apply json_of_transactions_flat.
  now apply apply_limit_Forall.
Qed.

(** X13.  Records whose fields are all scalars always render: whatever
    the limit, the transactions of the answer are the first records as
    they are stored, field by field and in order, with every number as
    its float. *)
Theorem flat_records_render (items : list item) (limit : option Z) :
  Forall (fun it => NoDup (map fst it)) items ->
  Forall (fun it => flat it = true) items ->
  exists serialized,
    serialize_transactions items = Ok serialized
    /\ json_of_transactions (apply_limit serialized limit)
       = Ok (map render_record (apply_limit items limit)).
Proof.
  intros Hkeys Hflat.
  exists (map (map normalize_entry) items).
  split; [now apply serialize_transactions_spec|].
  rewrite apply_limit_map. apply json_of_transactions_flat.
  now apply apply_limit_Forall.
Qed.

Lemma flat_records_render_witness :
  exists serialized,
    serialize_transactions scenario_records = Ok serialized
    /\ json_of_transactions (apply_limit serialized (Some 2))
       = Ok (map render_record (apply_limit scenario_records (Some 2))).
Proof.
  apply (flat_records_render scenario_records (Some 2)).
  - repeat constructor; simpl; intuition discriminate.
  - repeat constructor.
Defined.

(** ** Requests over well-formed tables *)

Lemma build_summary_accepted (E : environment) (st : Stats) (w : world)
    (vendor : string) (stats_doc : json) :
  vendor_text (biggest_vendor st) = Ok vendor ->
  json_of_stats st = Ok stats_doc ->
  (forall request, s3_put_object E request = Answer tt) ->
  exists p,
    build_summary E st w
    = Some (Ok p,
            {| ticks := S (ticks w);
               bucket :=
                 (bucket w ++
                  [{| Bucket := BUCKET_NAME; Key := summaryKey p;
                      Body := JObj [("summary", JStr (summary p));
                                    ("stats", stats_doc)];
                      ContentType := "application/json" |}])%list |})
    /\ status p = "success"
    /\ stats p = st
    /\ summary p
       = str_Z (total_transactions st) ++ " transactions captured. Top vendor: "
           ++ vendor ++ ". Total spend: $"
           ++ format_comma_2f (total_amount st) ++ "."
    /\ summaryKey p
       = "summaries/summary-" ++ strftime_YmdHMS (clock E (ticks w)) ++ ".json".
Proof.
  intros Hvendor Hdoc Hput.
  exists {| status := "success";
            summary :=
              str_Z (total_transactions st)
                ++ " transactions captured. Top vendor: "
                ++ vendor ++ ". Total spend: $"
                ++ format_comma_2f (total_amount st) ++ ".";
            stats := st;
            summaryKey :=
              "summaries/summary-" ++ strftime_YmdHMS (clock E (ticks w))
                ++ ".json" |}.
  split; [|split; [|split; [|split]]].
  - unfold build_summary, bind, lift, summary_text_of. rewrite Hvendor.
    cbv beta iota. unfold rbind. unfold utcnow. cbv beta iota. rewrite Hdoc.
    cbv beta iota. unfold put_object. cbv beta iota zeta.
    rewrite Hput. unfold ret. reflexivity.
  - reflexivity.
  - reflexivity.
  - reflexivity.
  - reflexivity.
Qed.

Lemma string_vendor_on_top (items : list item) (total : Decimal)
    (vt : vendor_totals_t) (k : key) :
  items <> [] ->
  Forall (fun it => exists name, vendor_of it = VStr name) items ->
  stats_loop items (Finite false 0 0) [] = Ok (total, vt) ->
  max_vendor vt = Ok k ->
  exists it name, In it items /\ vendor_of it = VStr name /\ k = KStr name.
Proof.
  intros Hitems Hvendors Hloop Hmax.
  destruct items as [|it0 rest]; [congruence|].
  pose proof (stats_loop_not_empty _ _ _ _ _ _ Hloop) as Hvt.
  destruct (max_vendor_in vt k Hmax) as [_ Hin]. specialize (Hin Hvt).
  destruct (stats_loop_keys _ _ _ _ _ Hloop _ Hin) as [[]|(it & Hit & Hk)].
  rewrite Forall_forall in Hvendors. destruct (Hvendors it Hit) as [name Hname].
  exists it, name. split; [exact Hit|]. split; [exact Hname|].
  rewrite Hname in Hk. simpl in Hk. congruence.
Qed.

(** X14.  A request over a well-formed table succeeds.  When the scan
    ends with records whose fields are scalars, whose vendors are
    strings (or absent), whose amounts fit the decimal context, and the
    bucket accepts the snapshot, the answer is 200 with status
    [success]: the count of all records, the float of the exact sum,
    the vendor of one of the records, the two clock readings, and the
    first records rendered field by field; the snapshot is the one
    object written. *)
Theorem well_formed_request_succeeds (E : environment) (fuel : nat)
    (ev : event) (limit : option Z) (w w1 : world) (items : list item)
    (amounts : list amount) :
  is_options ev = false ->
  limit_of ev = Ok limit ->
  scan_all_transactions E fuel w = Some (Ok items, w1) ->
  items <> [] ->
  Forall (fun it => NoDup (map fst it)) items ->
  Forall (fun it => flat it = true) items ->
  Forall (fun it => exists name, vendor_of it = VStr name) items ->
  Forall2 has_amount items amounts ->
  fits_context amounts ->
  (forall request, s3_put_object E request = Answer tt) ->
  exists it name f,
    In it items /\ vendor_of it = VStr name
    /\ decimal_to_float (exact_total amounts) = Ok f
    /\ let text :=
         str_Z (Z.of_nat (List.length items))
           ++ " transactions captured. Top vendor: "
           ++ (if String.eqb name "" then "N/A" else name)
           ++ ". Total spend: $" ++ format_comma_2f f ++ "." in
       let stats_doc :=
         JObj [("total_transactions", JInt (Z.of_nat (List.length items)));
               ("total_amount", JFloat f);
               ("biggest_vendor", JStr name);
               ("generated_at", JStr (isoformat (clock E (ticks w))))] in
       let key :=
         "summaries/summary-" ++ strftime_YmdHMS (clock E (S (ticks w)))
           ++ ".json" in
       lambda_handler E fuel ev w
       = Some ({| statusCode := 200;
                  headers := CORS_HEADERS;
                  body := JsonBody
                    (JObj [("status", JStr "success");
                           ("summary", JStr text);
                           ("stats", stats_doc);
                           ("summaryKey", JStr key);
                           ("transactions",
                            JArr (map render_record (apply_limit items limit)))]) |},
               {| ticks := S (S (ticks w));
                  bucket :=
                    (bucket w ++
                     [{| Bucket := "acct-ai-uploads-https";
                         Key := key;
                         Body := JObj [("summary", JStr text);
                                       ("stats", stats_doc)];
                         ContentType := "application/json" |}])%list |}).
Proof.
  intros Hmethod Hlimit Hscan Hitems Hkeys Hflat Hvendors Hamounts Hfits Hput.
  assert (Hhash : Forall (fun it => exists k, hashable (vendor_of it) = Ok k) items).
  { eapply Forall_impl; [|exact Hvendors]. intros it [name Hname].
    rewrite Hname. simpl. eauto. }
  destruct (compute_stats_exact E items amounts w Hamounts Hfits Hhash)
    as (st & w2 & Hstats & Hfloat).
  pose proof (compute_stats_returns _ _ _ _ _ Hstats) as [-> Hnow].
  pose proof (compute_stats_ok _ _ _ _ _ Hstats)
    as (total & vt & Hloop & Hmax & _ & Hcount).
  destruct (string_vendor_on_top _ _ _ _ Hitems Hvendors Hloop Hmax)
    as (it & name & Hin & Hname & Hbig).
  exists it, name, (total_amount st).
  split; [exact Hin|]. split; [exact Hname|]. split; [exact Hfloat|].
  assert (Hdoc : json_of_stats st
                 = Ok (JObj [("total_transactions",
                              JInt (Z.of_nat (List.length items)));
                             ("total_amount", JFloat (total_amount st));
                             ("biggest_vendor", JStr name);
                             ("generated_at",
                              JStr (isoformat (clock E (ticks w))))])).
  { unfold json_of_stats. rewrite Hbig, Hcount, Hnow. reflexivity. }
  assert (Hvendor : vendor_text (biggest_vendor st)
                    = Ok (if String.eqb name "" then "N/A" else name)).
  { rewrite Hbig. reflexivity. }
  destruct (build_summary_accepted E st
              {| ticks := S (ticks w); bucket := bucket w |} _ _
              Hvendor Hdoc Hput)
    as (p & Hbuild & Hstatus & Hst & Htext & Hkey).
  destruct (flat_records_serialize items limit Hkeys Hflat)
    as (serialized & Hser & Hjson).
  cbv zeta. unfold lambda_handler.
  rewrite (handle_loaded E fuel ev limit items w w1 Hmethod Hlimit Hscan).
  destruct items as [|it0 rest]; [congruence|].
  unfold bind at 1. unfold lift at 1. rewrite Hser.
  unfold bind at 1. rewrite Hstats.
  unfold bind at 1. rewrite Hbuild.
  unfold bind, lift, json_of_body. rewrite Hst, Hdoc. cbn [rbind].
  rewrite Hjson. cbn [rbind]. unfold ret.
  rewrite Hstatus, Htext, Hkey, Hcount. reflexivity.
Qed.

Lemma well_formed_request_succeeds_witness :
  exists it name f,
    In it scenario_records /\ vendor_of it = VStr name
    /\ decimal_to_float (exact_total scenario_amounts) = Ok f
    /\ let text :=
         "3 transactions captured. Top vendor: "
           ++ (if String.eqb name "" then "N/A" else name)
           ++ ". Total spend: $" ++ format_comma_2f f ++ "." in
       let stats_doc :=
         JObj [("total_transactions", JInt 3);
               ("total_amount", JFloat f);
               ("biggest_vendor", JStr name);
               ("generated_at", JStr "2024-03-09T12:00:07")] in
       let key := "summaries/summary-20240309120008.json" in
       lambda_handler (ticking_table scenario_records) 0 get_one_request
         initial_world
       = Some ({| statusCode := 200;
                  headers := CORS_HEADERS;
                  body := JsonBody
                    (JObj [("status", JStr "success");
                           ("summary", JStr text);
                           ("stats", stats_doc);
                           ("summaryKey", JStr key);
                           ("transactions", JArr [render_record record_a1])]) |},
               {| ticks := 2;
                  bucket :=
                    [{| Bucket := "acct-ai-uploads-https";
                        Key := key;
                        Body := JObj [("summary", JStr text);
                                      ("stats", stats_doc)];
                        ContentType := "application/json" |}] |}).
Proof.
  refine (well_formed_request_succeeds (ticking_table scenario_records) 0
            get_one_request (Some 1) initial_world initial_world
            scenario_records scenario_amounts eq_refl eq_refl eq_refl
            _ _ _ _ _ _ _).
  - discriminate.
  - repeat constructor; simpl; intuition discriminate.
  - repeat constructor.
  - repeat constructor; eexists; reflexivity.
  - repeat constructor.
  - split.
    + repeat constructor; vm_compute; discriminate.
    + vm_compute. reflexivity.
  - reflexivity.
Defined.

(** ** Amounts that are not numbers *)

Lemma add_quiet_nan (a b r : Decimal) :
  is_quiet_nan a \/ is_quiet_nan b -> add a b = Ok r -> is_quiet_nan r.
Proof.
  intros [(s & p & ->)|(s & p & ->)]; unfold add.
  - destruct b as [s2 c2 e2|s2|s2 [|] p2]; intros [= <-];
      eexists; eexists; reflexivity.
  - destruct a as [s1 c1 e1|s1|s1 [|] p1]; intros [= <-];
      eexists; eexists; reflexivity.
Qed.

Lemma stats_loop_quiet_nan (items : list item) :
  forall total vt total' vt',
    stats_loop items total vt = Ok (total', vt') ->
    is_quiet_nan total
    \/ (exists it a, In it items /\ amount_of it = Ok a /\ is_quiet_nan a) ->
    is_quiet_nan total'.
Proof.
  induction items as [|it rest IH]; intros total vt total' vt' Hrun Hnan.
  - simpl in Hrun. injection Hrun as <- <-.
    destruct Hnan as [H|(it & a & [] & _)]. exact H.
  - apply stats_loop_step in Hrun
      as (amount & t1 & vendor & t & Ha & Hadd & _ & _ & Hrest).
    apply (IH _ _ _ _ Hrest).
    destruct Hnan as [H|(it' & a & [<-|Hin] & Hit' & Hq)].
    + left. eapply add_quiet_nan; [left; exact H | exact Hadd].
    + left. rewrite Ha in Hit'. injection Hit' as <-.
      eapply add_quiet_nan; [right; exact Hq | exact Hadd].
    + right. exists it', a. auto.
Qed.

(** X15.  One amount that is a quiet NaN makes the total NaN: when
    [compute_stats] returns for records among which one has such an
    amount, the [total_amount] is the float NaN, whatever the other
    amounts are. *)
Theorem nan_amount_gives_nan_total (E : environment) (items : list item)
    (st : Stats) (w w' : world) (it : item) (a : Decimal) :
  compute_stats E items w = Some (Ok st, w') ->
  In it items ->
  amount_of it = Ok a ->
  is_quiet_nan a ->
  total_amount st = FNaN.
Proof.
  intros Hrun Hin Ha Hq.
  apply compute_stats_ok in Hrun as (total & vt & Hloop & _ & Hfloat & _).
  assert (Hnan : is_quiet_nan total).
  { eapply stats_loop_quiet_nan; [exact Hloop|]. right. exists it, a. auto. }
  destruct Hnan as (s & p & ->). simpl in Hfloat. congruence.
Qed.

Lemma nan_amount_gives_nan_total_witness :
  exists st w',
    compute_stats (table_of []) [record_a1; record_nan] initial_world
    = Some (Ok st, w')
    /\ total_amount st = FNaN.
Proof.
  assert (Hrun : compute_stats (table_of []) [record_a1; record_nan]
                   initial_world
                 = Some (Ok {| total_transactions := 2;
                               total_amount := FNaN;
                               biggest_vendor := KStr "A";
                               generated_at := "2024-03-09T12:00:07" |},
                         {| ticks := 1; bucket := [] |}))
    by (vm_compute; reflexivity).
  eexists. eexists. split; [exact Hrun|].
  refine (nan_amount_gives_nan_total (table_of []) [record_a1; record_nan]
            _ initial_world _ record_nan (NaN false false 0) Hrun _ _ _).
  - right. left. reflexivity.
  - vm_compute. reflexivity.
  - exists false, 0%N. reflexivity.
Defined.

(** Such a total is shown as [nan] in the summary and as a NaN in the
    statistics. *)
Example nan_total_is_published :
  exists doc w' stats_doc,
    lambda_handler (table_of [record_a1; record_nan]) 0 get_request
      initial_world
    = Some ({| statusCode := 200; headers := CORS_HEADERS;
               body := JsonBody doc |}, w')
    /\ json_get "summary" doc
       = Some (JStr "2 transactions captured. Top vendor: A. Total spend: $nan.")
    /\ json_get "stats" doc = Some stats_doc
    /\ json_get "total_amount" stats_doc = Some (JFloat FNaN).
Proof.
  eexists. eexists. eexists. split; [vm_compute; reflexivity|].
  split; [reflexivity|]. split; reflexivity.
Qed.

(** ** The limit parameter *)

Lemma lambda_handler_event (E : environment) (fuel : nat) (ev ev' : event)
    (w : world) :
  is_options ev = is_options ev' ->
  limit_of ev = limit_of ev' ->
  lambda_handler E fuel ev w = lambda_handler E fuel ev' w.
Proof.
  intros Hmethod Hlimit. unfold lambda_handler, handle.
  now rewrite Hmethod, Hlimit.
Qed.

Lemma span_decimal_spec (cs : list (N * list ascii)) :
  forall ds rest,
    span_decimal cs = (ds, rest) ->
    List.length cs = (List.length ds + List.length rest)%nat
    /\ (rest = [] ->
        forallb (fun c => match decimal_value c with
                          | Some _ => true
                          | None => false
                          end) (map fst cs) = true).
Proof.
  induction cs as [|c cs IH]; intros ds rest; cbn [span_decimal].
  - intros [= <- <-]. auto.
  - destruct (decimal_value (fst c)) as [d|] eqn:Hd.
    + destruct (span_decimal cs) as [ds' rest'].
      intros [= <- <-]. destruct (IH ds' rest' eq_refl) as [Hlen Hall].
      split; [cbn [List.length]; lia|].
      intros Hrest. cbn [map forallb]. now rewrite Hd, Hall.
    + intros [= <- <-]. split; [reflexivity | discriminate].
Qed.

(** A text of digits that holds a digit [int] does not read, or more
    than 4300 characters, makes [int(limit)] raise. *)
Lemma int_of_digits_raises (text : string) :
  isdigit text = true ->
  isdecimal text = false \/ (4300 < len text)%nat ->
  exists message, int_of_digits text = Raise (ValueError message).
Proof.
  intros Hdigit Hbad. unfold int_of_digits.
  destruct (span_decimal (chars text)) as [ds rest] eqn:Hspan.
  destruct (span_decimal_spec _ _ _ Hspan) as [Hlen Hall].
  destruct (Nat.ltb_spec 4300 (List.length ds)) as [Hlong|Hshort];
    [eexists; reflexivity|].
  destruct rest as [|c rest].
  - exfalso. specialize (Hall eq_refl).
    destruct Hbad as [Hdec|Hlong].
    + unfold isdecimal, code_points in Hdec. unfold isdigit, code_points in Hdigit.
      destruct (map fst (chars text)) as [|c cs] eqn:Hcs; [discriminate|].
      congruence.
    + unfold len in Hlong. simpl in Hlen. lia.
  - destruct ds; eexists; reflexivity.
Qed.

(** X16.  A limit that is not a text of digits is ignored, not refused:
    a signed, blank or alphabetic limit is answered as the same request
    without a query string is, with all records.  A limit of digits
    that are not all decimal digits (a superscript two, a circled
    digit) is refused instead: [int] raises, and the request is answered
    500 before the table is read. *)
Theorem limit_text_ignored_or_refused (E : environment) (fuel : nat)
    (ev : event) (w : world) (query : list (string * string)) (text : string) :
  queryStringParameters ev = Some query ->
  dict_get String.eqb "limit" query = Some text ->
  (isdigit text = false ->
   limit_of ev = Ok None
   /\ lambda_handler E fuel ev w
      = lambda_handler E fuel
          {| httpMethod := httpMethod ev; queryStringParameters := None |} w)
  /\ (isdigit text = true ->
      isdecimal text = false ->
      is_options ev = false ->
      exists message,
        limit_of ev = Raise (ValueError message)
        /\ lambda_handler E fuel ev w
           = Some ({| statusCode := 500;
                      headers := CORS_HEADERS;
                      body := JsonBody (JObj [("status", JStr "error");
                                              ("message", JStr message)]) |},
                   w)).
Proof.
  intros Hquery Hlimit. split.
  - intros Hdigits.
    assert (Hnone : limit_of ev = Ok None).
    { unfold limit_of. rewrite Hquery, Hlimit, Hdigits. reflexivity. }
    split; [exact Hnone|].
    apply lambda_handler_event; [reflexivity|].
    rewrite Hnone. reflexivity.
  - intros Hdigits Hdecimal Hmethod.
    pose proof (int_of_digits_raises text Hdigits) as Hint.
    specialize (Hint (or_introl Hdecimal)). destruct Hint as [message Hint].
    assert (Hraise : limit_of ev = Raise (ValueError message)).
    { unfold limit_of. rewrite Hquery, Hlimit, Hdigits, Hint. reflexivity. }
    exists message. split; [exact Hraise|].
    unfold lambda_handler, handle. rewrite Hmethod.
    unfold bind, lift. rewrite Hraise. reflexivity.
Qed.

Lemma limit_text_ignored_or_refused_witness :
  (limit_of (limit_request "-1") = Ok None
   /\ lambda_handler (table_of scenario_records) 0 (limit_request "-1")
        initial_world
      = lambda_handler (table_of scenario_records) 0 get_request initial_world)
  /\ exists message,
       limit_of (limit_request "²") = Raise (ValueError message)
       /\ lambda_handler (table_of scenario_records) 0 (limit_request "²")
            initial_world
          = Some ({| statusCode := 500;
                     headers := CORS_HEADERS;
                     body := JsonBody (JObj [("status", JStr "error");
                                             ("message", JStr message)]) |},
                  initial_world).
Proof.
  assert (Hminus : isdigit "-1" = false) by (vm_compute; reflexivity).
  assert (Hdigit : isdigit "²" = true) by (vm_compute; reflexivity).
  assert (Hdecimal : isdecimal "²" = false) by (vm_compute; reflexivity).
  split.
  - exact (proj1 (limit_text_ignored_or_refused (table_of scenario_records) 0
                    (limit_request "-1") initial_world [("limit", "-1")] "-1"
                    eq_refl eq_refl) Hminus).
  - exact (proj2 (limit_text_ignored_or_refused (table_of scenario_records) 0
                    (limit_request "²") initial_world [("limit", "²")] "²"
                    eq_refl eq_refl) Hdigit Hdecimal eq_refl).
Defined.

(** The limit is read in any script: the Arabic-Indic digit one keeps
    one record; the superscript two is refused with the text of
    [int]. *)
Example limit_in_other_scripts :
  limit_of (limit_request "١") = Ok (Some 1)
  /\ limit_of (limit_request "²")
     = Raise (ValueError "invalid literal for int() with base 10: '²'").
Proof.
  split; vm_compute; reflexivity.
Qed.

(** X17.  A limit of more than 4300 digits fails the request before the
    table is read: the interpreter refuses to convert it, and the
    answer is 500 whatever the table holds, also when its scan would
    not end. *)
Theorem oversized_limit_fails (E : environment) (fuel : nat) (ev : event)
    (w : world) (query : list (string * string)) (text : string) :
  is_options ev = false ->
  queryStringParameters ev = Some query ->
  dict_get String.eqb "limit" query = Some text ->
  isdigit text = true ->
  (4300 < len text)%nat ->
  exists message,
    lambda_handler E fuel ev w
    = Some ({| statusCode := 500;
               headers := CORS_HEADERS;
               body := JsonBody (JObj [("status", JStr "error");
                                       ("message", JStr message)]) |},
            w).
Proof.
  intros Hmethod Hquery Hlimit Hdigits Hlong.
  pose proof (int_of_digits_raises text Hdigits) as Hint.
  specialize (Hint (or_intror Hlong)). destruct Hint as [message Hint].
  assert (Hraise : limit_of ev = Raise (ValueError message)).
  { unfold limit_of. rewrite Hquery, Hlimit, Hdigits, Hint. reflexivity. }
  exists message.
  unfold lambda_handler, handle. rewrite Hmethod.
  unfold bind, lift. rewrite Hraise. reflexivity.
Qed.

Lemma oversized_limit_fails_witness :
  exists message,
    lambda_handler endless_table 0 (limit_request long_digits) initial_world
    = Some ({| statusCode := 500;
               headers := CORS_HEADERS;
               body := JsonBody (JObj [("status", JStr "error");
                                       ("message", JStr message)]) |},
            initial_world).
Proof.
  refine (oversized_limit_fails endless_table 0 (limit_request long_digits)
            initial_world [("limit", long_digits)] long_digits
            eq_refl eq_refl eq_refl _ _).
  - vm_compute. reflexivity.
  - apply Nat.ltb_lt. vm_compute. reflexivity.
Defined.

(** ** The summary text and the snapshot key *)

Example readers :
  read_int "-12" = Some (-12) /\ read_int "007" = Some 7 /\ read_int "" = None
  /\ read_int "-" = None /\ read_int "1-2" = None
  /\ read_timestamp "20240309120007" = Some [2024; 3; 9; 12; 0; 7]%N
  /\ read_timestamp "2024030912000" = None
  /\ read_money "1,234,567.89" = Some (false, 123456789%N)
  /\ read_money "-0.05" = Some (true, 5%N)
  /\ read_money "123.45" = Some (false, 12345%N)
  /\ read_money "1234.56" = None
  /\ read_money ",123.45" = None
  /\ read_money "12,34.56" = None
  /\ read_money "1,234.5" = None
  /\ read_money "1,234" = None.
Proof. repeat split; vm_compute; reflexivity. Qed.

(** ** Numerals *)

Lemma list_ascii_of_string_app (a b : string) :
  list_ascii_of_string (a ++ b)
  = (list_ascii_of_string a ++ list_ascii_of_string b)%list.
Proof.
  induction a as [|c a IH]; simpl; [reflexivity | now rewrite IH].
Qed.

Lemma digit_char_spec (d : N) :
  (d < 10)%N ->
  is_digit (digit_char d) = true
  /\ (N_of_ascii (digit_char d) - 48)%N = d
  /\ Ascii.eqb (digit_char d) "-" = false
  /\ Ascii.eqb (digit_char d) "," = false.
Proof.
  intros Hd.
  assert (Hcases : (d = 0 \/ d = 1 \/ d = 2 \/ d = 3 \/ d = 4 \/ d = 5 \/ d = 6
                    \/ d = 7 \/ d = 8 \/ d = 9)%N) by lia.
  repeat (destruct Hcases as [->|Hcases]); try subst d;
    repeat split; reflexivity.
Qed.

(** The number that digits write, most significant first. *)
Lemma value_of_digits_chars (ds : list N) :
  Forall (fun d => (d < 10)%N) ds ->
  forall acc,
    fold_left (fun acc c => (10 * acc + (N_of_ascii c - 48))%N)
      (map digit_char ds) acc
    = fold_left (fun acc d => (10 * acc + d)%N) ds acc.
Proof.
  induction 1 as [|d ds Hd _ IH]; intros acc; [reflexivity|].
  simpl map. cbn [fold_left].
  destruct (digit_char_spec d Hd) as (_ & -> & _). apply IH.
Qed.

Lemma digits_aux_longer (fuel : nat) :
  forall (n : N) (acc : list N),
    (S (List.length acc) <= List.length (digits_aux fuel n acc))%nat.
Proof.
  induction fuel as [|fuel IH]; intros n acc; cbn [digits_aux].
  - cbn [List.length]. lia.
  - destruct (n <? 10)%N; [cbn [List.length]; lia|].
    specialize (IH (n / 10)%N ((n mod 10)%N :: acc)).
    cbn [List.length] in IH. lia.
Qed.

Lemma digits_aux_spec (fuel : nat) :
  forall (n : N) (acc : list N),
    (n < 2 ^ N.of_nat (S fuel))%N ->
    Forall (fun d => (d < 10)%N) acc ->
    Forall (fun d => (d < 10)%N) (digits_aux fuel n acc)
    /\ digits_aux fuel n acc <> []
    /\ forall a, fold_left (fun acc d => (10 * acc + d)%N)
                   (digits_aux fuel n acc) a
                 = fold_left (fun acc d => (10 * acc + d)%N) acc
                     (a * 10 ^ N.of_nat (List.length (digits_aux fuel n acc)
                                         - List.length acc) + n)%N.
Proof.
  induction fuel as [|fuel IH]; intros n acc Hn Hacc.
  - cbn [digits_aux]. change (2 ^ N.of_nat 1)%N with 2%N in Hn.
    split; [constructor; [lia | exact Hacc]|]. split; [discriminate|].
    intros a. cbn [fold_left List.length].
    replace (S (List.length acc) - List.length acc)%nat with 1%nat by lia.
    change (10 ^ N.of_nat 1)%N with 10%N. f_equal. lia.
  - cbn [digits_aux].
    destruct (N.ltb_spec n 10) as [Hlt|Hge].
    + split; [constructor; [exact Hlt | exact Hacc]|]. split; [discriminate|].
      intros a. cbn [fold_left List.length].
      replace (S (List.length acc) - List.length acc)%nat with 1%nat by lia.
      change (10 ^ N.of_nat 1)%N with 10%N. f_equal. lia.
    + assert (Hdiv : (n / 10 < 2 ^ N.of_nat (S fuel))%N).
      { apply N.Div0.div_lt_upper_bound.
        replace (N.of_nat (S (S fuel))) with (1 + N.of_nat (S fuel))%N in Hn by lia.
        rewrite N.pow_add_r in Hn. change (2 ^ 1)%N with 2%N in Hn. lia. }
      assert (Hmod : (n mod 10 < 10)%N) by (apply N.mod_lt; lia).
      assert (Hacc' : Forall (fun d => (d < 10)%N) ((n mod 10)%N :: acc))
        by (constructor; assumption).
      destruct (IH (n / 10)%N ((n mod 10)%N :: acc) Hdiv Hacc')
        as (Hall & Hne & Hval).
      split; [exact Hall|]. split; [exact Hne|].
      intros a. rewrite Hval. cbn [fold_left List.length].
      pose proof (digits_aux_longer fuel (n / 10)%N ((n mod 10)%N :: acc)) as Hlen.
      cbn [List.length] in Hlen.
      set (L := List.length (digits_aux fuel (n / 10)%N ((n mod 10)%N :: acc))) in *.
      f_equal.
      replace (L - List.length acc)%nat with (S (L - S (List.length acc)))%nat by lia.
      rewrite Nat2N.inj_succ, N.pow_succ_r'.
      pose proof (N.div_mod n 10 ltac:(lia)) as Hdm. lia.
Qed.

Lemma digits_spec (n : N) :
  Forall (fun d => (d < 10)%N) (digits n)
  /\ digits n <> []
  /\ fold_left (fun acc d => (10 * acc + d)%N) (digits n) 0%N = n.
Proof.
  unfold digits.
  assert (Hn : (n < 2 ^ N.of_nat (S (N.to_nat (N.log2 n))))%N).
  { rewrite Nat2N.inj_succ, N2Nat.id.
    destruct (N.eq_dec n 0) as [->|Hne]; [reflexivity|].
    apply N.log2_spec. lia. }
  destruct (digits_aux_spec _ n [] Hn (Forall_nil _)) as (Hall & Hne & Hval).
  split; [exact Hall|]. split; [exact Hne|].
  rewrite Hval. cbn [fold_left]. lia.
Qed.

(** The characters of a numeral are digits, and they write its
    number. *)
Lemma string_of_digits_spec (ds : list N) :
  Forall (fun d => (d < 10)%N) ds ->
  list_ascii_of_string (string_of_digits ds) = map digit_char ds
  /\ forallb is_digit (map digit_char ds) = true
  /\ value_of_digits (map digit_char ds)
     = fold_left (fun acc d => (10 * acc + d)%N) ds 0%N.
Proof.
  intros Hds. unfold string_of_digits.
  split; [apply list_ascii_of_string_of_list_ascii|].
  split; [|apply value_of_digits_chars; exact Hds].
  induction Hds as [|d ds Hd _ IH]; [reflexivity|].
  cbn [map forallb]. destruct (digit_char_spec d Hd) as (-> & _). exact IH.
Qed.

Lemma fold_zeros (k : nat) (ds : list N) (acc : N) :
  fold_left (fun acc d => (10 * acc + d)%N) (repeat 0%N k ++ ds)%list 0%N
  = fold_left (fun acc d => (10 * acc + d)%N) ds 0%N.
Proof.
  induction k as [|k IH]; [reflexivity|]. exact IH.
Qed.

(** A number below [10^width] padded to [width] digits has exactly
    that many, and they write the number. *)
Lemma pad_N_spec (width : nat) (n : N) :
  (1 <= width)%nat ->
  Z.of_N n < 10 ^ Z.of_nat width ->
  exists cs,
    list_ascii_of_string (pad_N width n) = cs
    /\ List.length cs = width
    /\ forallb is_digit cs = true
    /\ value_of_digits cs = n.
Proof.
  intros Hwidth Hn. unfold pad_N.
  destruct (digits_spec n) as (Hall & Hne & Hval).
  pose proof (digits_aux_length (N.to_nat (N.log2 n)) n [] width Hwidth Hn)
    as Hlen.
  fold (digits n) in Hlen. cbn [List.length] in Hlen.
  set (ds := (repeat 0%N (width - List.length (digits n)) ++ digits n)%list).
  assert (Hds : Forall (fun d => (d < 10)%N) ds).
  { apply Forall_app. split; [|exact Hall].
    apply Forall_forall. intros d Hd. apply repeat_spec in Hd. lia. }
  destruct (string_of_digits_spec ds Hds) as (Hcs & Hdigits & Hvalue).
  exists (map digit_char ds). split; [exact Hcs|].
  split.
  - unfold ds. rewrite length_map, length_app, repeat_length. lia.
  - split; [exact Hdigits|].
    rewrite Hvalue. unfold ds. rewrite (fold_zeros _ _ 0%N). exact Hval.
Qed.

Lemma is_digit_not_minus (c : ascii) :
  is_digit c = true -> Ascii.eqb c "-" = false.
Proof.
  intros Hc. destruct (Ascii.eqb_spec c "-"%char) as [->|]; [|reflexivity].
  discriminate.
Qed.

(** [str(n)] reads back as [n]. *)
Lemma read_int_str_Z (n : Z) : read_int (str_Z n) = Some n.
Proof.
  unfold str_Z, read_int.
  assert (Hnum : forall m : N,
             exists c cs,
               list_ascii_of_string (str_N m) = c :: cs
               /\ is_digit c = true
               /\ read_digits (c :: cs) = Some m).
  { intros m. unfold str_N.
    destruct (digits_spec m) as (Hall & Hne & Hval).
    destruct (string_of_digits_spec (digits m) Hall) as (Hcs & Hdigits & Hvalue).
    rewrite Hcs.
    destruct (digits m) as [|d ds]; [congruence|].
    cbn [map] in *. exists (digit_char d), (map digit_char ds).
    split; [reflexivity|].
    cbn [forallb] in Hdigits. apply andb_prop in Hdigits as [Hd Hrest].
    split; [exact Hd|].
    unfold read_digits. cbn [forallb]. rewrite Hd, Hrest. cbn [andb].
    now rewrite Hvalue, Hval. }
  destruct (Z.ltb_spec n 0) as [Hneg|Hpos].
  - destruct (Hnum (Z.to_N (- n))) as (c & cs & Hcs & Hc & Hread).
    rewrite list_ascii_of_string_app, Hcs.
    change (list_ascii_of_string "-") with ["-"%char]. cbn [app].
    change (Ascii.eqb "-" "-") with true. cbv iota.
    rewrite Hread. cbn [option_map]. f_equal. lia.
  - destruct (Hnum (Z.to_N n)) as (c & cs & Hcs & Hc & Hread).
    rewrite Hcs, (is_digit_not_minus c Hc), Hread. cbn [option_map].
    f_equal. lia.
Qed.

Ltac explode cs H :=
  repeat (destruct cs as [|? cs]; [discriminate H|]; cbn [List.length] in H);
  destruct cs; [|discriminate H].

(** The timestamp of a key reads back as the clock's reading, to the
    second. *)
Lemma strftime_YmdHMS_spec (t : datetime) :
  present_datetime t = true ->
  read_timestamp (strftime_YmdHMS t)
  = Some [year t; month t; day t; hour t; minute t; second t].
Proof.
  unfold present_datetime. intros Ht.
  repeat (apply andb_prop in Ht as [Ht ?]).
  repeat match goal with
         | H : (_ <=? _)%N = true |- _ => apply N.leb_le in H
         end.
  unfold strftime_YmdHMS, read_timestamp. rewrite !list_ascii_of_string_app.
  destruct (pad_N_spec 4 (year t)) as (ys & -> & Hys & Hyd & Hyv);
    [lia | change (10 ^ Z.of_nat 4) with 10000; lia|].
  destruct (pad_N_spec 2 (month t)) as (ms & -> & Hms & Hmd & Hmv);
    [lia | change (10 ^ Z.of_nat 2) with 100; lia|].
  destruct (pad_N_spec 2 (day t)) as (ds & -> & Hds & Hdd & Hdv);
    [lia | change (10 ^ Z.of_nat 2) with 100; lia|].
  destruct (pad_N_spec 2 (hour t)) as (hs & -> & Hhs & Hhd & Hhv);
    [lia | change (10 ^ Z.of_nat 2) with 100; lia|].
  destruct (pad_N_spec 2 (minute t)) as (ns & -> & Hns & Hnd & Hnv);
    [lia | change (10 ^ Z.of_nat 2) with 100; lia|].
  destruct (pad_N_spec 2 (second t)) as (ss & -> & Hss & Hsd & Hsv);
    [lia | change (10 ^ Z.of_nat 2) with 100; lia|].
  explode ys Hys. explode ms Hms. explode ds Hds. explode hs Hhs.
  explode ns Hns. explode ss Hss.
  cbn [app].
  cbn [forallb] in *.
  repeat match goal with
         | H : (_ && _)%bool = true |- _ => apply andb_prop in H as [? ?]
         end.
  repeat match goal with
         | H : is_digit _ = true |- _ => rewrite H; clear H
         end.
  cbn [andb]. now rewrite Hyv, Hmv, Hdv, Hhv, Hnv, Hsv.
Qed.

(** ** Amounts with thousands separators *)

Lemma commas_length (ds : list ascii) :
  List.length (commas ds)
  = (List.length ds + (List.length ds - 1) / 3)%nat.
Proof.
  induction ds as [|d rest IH]; [reflexivity|].
  cbn [commas].
  destruct (Nat.eqb_spec (List.length rest) 0) as [Hzero|Hmore];
    cbn [negb andb].
  - cbn [List.length]. rewrite IH, Hzero. reflexivity.
  - destruct (Nat.eqb_spec (List.length rest mod 3) 0) as [Hthree|Hother];
      cbn [List.length]; rewrite IH;
      replace (S (List.length rest) - 1)%nat with (List.length rest) by lia;
      set (n := List.length rest) in *; clearbody n.
    + pose proof (Nat.div_mod_eq n 3). pose proof (Nat.div_mod_eq (n - 1) 3).
      pose proof (Nat.mod_upper_bound (n - 1) 3). lia.
    + pose proof (Nat.div_mod_eq n 3). pose proof (Nat.div_mod_eq (n - 1) 3).
      pose proof (Nat.mod_upper_bound (n - 1) 3).
      pose proof (Nat.mod_upper_bound n 3). lia.
Qed.

Lemma commas_comma_place (ds : list ascii) :
  Nat.eqb (List.length (commas ds) mod 4) 3
  = (negb (Nat.eqb (List.length ds) 0)
     && Nat.eqb (List.length ds mod 3) 0)%bool.
Proof.
  rewrite commas_length. set (n := List.length ds). clearbody n.
  pose proof (Nat.div_mod_eq n 3). pose proof (Nat.div_mod_eq (n - 1) 3).
  pose proof (Nat.mod_upper_bound (n - 1) 3).
  pose proof (Nat.mod_upper_bound n 3).
  pose proof (Nat.div_mod_eq (n + (n - 1) / 3) 4).
  pose proof (Nat.mod_upper_bound (n + (n - 1) / 3) 4).
  destruct (Nat.eqb_spec ((n + (n - 1) / 3) mod 4) 3);
    destruct (Nat.eqb_spec n 0); destruct (Nat.eqb_spec (n mod 3) 0);
    cbn [negb andb]; try reflexivity; exfalso; lia.
Qed.

(** Taking the separators out gives the digits back. *)
Lemma ungroup_commas (ds : list ascii) :
  forallb is_digit ds = true -> ungroup (commas ds) = Some ds.
Proof.
  induction ds as [|d rest IH]; [reflexivity|].
  cbn [forallb]. intros H. apply andb_prop in H as [Hd Hrest].
  specialize (IH Hrest).
  pose proof (commas_comma_place rest) as Hplace.
  cbn [commas].
  destruct (negb (Nat.eqb (List.length rest) 0)
            && Nat.eqb (List.length rest mod 3) 0)%bool.
  - cbn [ungroup List.length]. rewrite Hplace.
    assert (Hnext : Nat.eqb (S (List.length (commas rest)) mod 4) 3 = false).
    { apply Nat.eqb_eq in Hplace. apply Nat.eqb_neq.
      pose proof (Nat.div_mod_eq (List.length (commas rest)) 4).
      pose proof (Nat.div_mod_eq (S (List.length (commas rest))) 4).
      pose proof (Nat.mod_upper_bound (S (List.length (commas rest))) 4). lia. }
    rewrite Hnext, Hd. change (Ascii.eqb "," ",") with true. cbv iota.
    now rewrite IH.
  - cbn [ungroup]. rewrite Hplace, Hd. now rewrite IH.
Qed.

Lemma round_div_even_nearest (num den : Z) :
  0 <= num -> 0 < den ->
  0 <= round_div_even num den
  /\ 2 * Z.abs (round_div_even num den * den - num) <= den
  /\ (2 * Z.abs (round_div_even num den * den - num) = den ->
      Z.even (round_div_even num den) = true).
Proof.
  intros Hnum Hden. unfold round_div_even.
  pose proof (Z.div_mod num den ltac:(lia)) as Hdm.
  pose proof (Z.mod_pos_bound num den Hden) as Hr.
  assert (Hq : 0 <= num / den) by (apply Z.div_pos; lia).
  set (q := num / den) in *. set (r := num mod den) in *.
  assert (Hqd : q * den = num - r) by lia.
  destruct (Z.ltb_spec (2 * r) den) as [Hlow|Hhigh].
  - rewrite Hqd. split; [lia|]. split; lia.
  - destruct (Z.eqb_spec (2 * r) den) as [Htie|Hover].
    + destruct (Z.even q) eqn:Heven.
      * rewrite Hqd. split; [lia|]. split; [lia | intros _; exact Heven].
      * replace ((q + 1) * den) with (num - r + den) by lia.
        split; [lia|]. split; [lia|]. intros _.
        rewrite Z.add_1_r, Z.even_succ, <- Z.negb_even, Heven. reflexivity.
    + replace ((q + 1) * den) with (num - r + den) by lia.
      split; [lia|]. split; lia.
Qed.

Lemma value_of_digits_cents (units : list ascii) (c1 c2 : ascii) :
  value_of_digits (units ++ [c1; c2])
  = (100 * value_of_digits units + value_of_digits [c1; c2])%N.
Proof.
  unfold value_of_digits. rewrite fold_left_app. cbn [fold_left]. lia.
Qed.

Lemma commas_head (d : ascii) (ds : list ascii) :
  exists tail, commas (d :: ds) = d :: tail.
Proof.
  cbn [commas]. destruct (_ && _)%bool; eauto.
Qed.

(** What [format(x, ",.2f")] writes shows the amount. *)
Lemma format_comma_2f_spec (x : float) : shows_amount x (format_comma_2f x).
Proof.
  destruct x as [|neg|neg m e]; [reflexivity | reflexivity |].
  unfold shows_amount, format_comma_2f.
  destruct (scale2 (Z.of_N m * 100) 1 (- e)) as [num den] eqn:Hscale.
  assert (Hfrac : 0 <= num /\ 0 < den
                  /\ num = 100 * Z.of_N m * 2 ^ Z.max e 0
                  /\ den = 2 ^ Z.max (- e) 0).
  { unfold scale2 in Hscale.
    destruct (Z.leb_spec 0 (- e)) as [Hle|Hgt];
      rewrite ?Z.mul_1_l in Hscale; injection Hscale as <- <-.
    - rewrite (Z.max_r e 0), (Z.max_l (- e) 0) by lia.
      pose proof (Z.pow_pos_nonneg 2 (- e) ltac:(lia) Hle).
      change (2 ^ 0) with 1. repeat split; lia.
    - rewrite (Z.max_l e 0), (Z.max_r (- e) 0) by lia.
      replace (- - e) with e by lia.
      pose proof (Z.pow_pos_nonneg 2 e ltac:(lia) ltac:(lia)).
      change (2 ^ 0) with 1. repeat split; try lia; nia. }
  destruct Hfrac as (Hnum & Hden & Hnum' & Hden').
  destruct (round_div_even_nearest num den Hnum Hden) as (Hpos & Hnear & Htie).
  set (q := round_div_even num den) in *.
  set (h := Z.to_N q).
  assert (Hh : Z.of_N h = q) by (unfold h; lia).
  exists h. split.
  2:{ unfold nearest_hundredth. cbv zeta. rewrite <- Hnum', <- Hden', Hh.
      split; assumption. }
  destruct (digits_spec (h / 100)%N) as (Hall & Hne & Hval).
  destruct (string_of_digits_spec (digits (h / 100)%N) Hall)
    as (_ & Hdigits & Hvalue).
  destruct (pad_N_spec 2 (h mod 100)%N) as (cents & Hcents & Hlen & Hcd & Hcv);
    [lia | |].
  { change (10 ^ Z.of_nat 2) with 100.
    pose proof (N.mod_lt h 100 ltac:(lia)). lia. }
  explode cents Hlen.
  set (units := map digit_char (digits (h / 100)%N)) in *.
  assert (Hunits : exists c0 rest, units = c0 :: rest /\ is_digit c0 = true).
  { unfold units. destruct (digits (h / 100)%N) as [|d ds]; [congruence|].
    cbn [map forallb] in *. apply andb_prop in Hdigits as [Hd _]. eauto. }
  destruct Hunits as (c0 & rest & Hunits & Hc0).
  destruct (commas_head c0 rest) as [tail Htail].
  cbn [forallb] in Hcd.
  apply andb_prop in Hcd as [Hc1 Hcd]. apply andb_prop in Hcd as [Hc2 _].
  unfold read_money.
  rewrite !list_ascii_of_string_app, list_ascii_of_string_of_list_ascii, Hcents.
  change (list_ascii_of_string ".") with ["."%char].
  rewrite Hunits, Htail.
  assert (Hbody : forall cs,
             cs = (c0 :: tail ++ ["."%char] ++ [a; a0])%list ->
             match rev cs with
             | c2 :: c1 :: point :: units_rev =>
                 match rev units_rev with
                 | c3 :: _ =>
                     match ungroup (rev units_rev) with
                     | Some units0 =>
                         if Ascii.eqb point "." && is_digit c3 && is_digit c1
                            && is_digit c2
                         then Some (neg, value_of_digits (units0 ++ [c1; c2]))
                         else None
                     | None => None
                     end
                 | [] => None
                 end
             | _ => None
             end = Some (neg, h)).
  { intros cs ->.
    replace (c0 :: tail ++ ["."%char] ++ [a; a0])%list
      with ((c0 :: tail) ++ ["."%char; a; a0])%list
      by reflexivity.
    rewrite rev_app_distr. change (rev ["."%char; a; a0]) with [a0; a; "."%char].
    cbn [app]. rewrite rev_involutive.
    assert (Hun : ungroup (c0 :: tail) = Some units).
    { rewrite <- Htail, <- Hunits. apply ungroup_commas. exact Hdigits. }
    rewrite Hun, Hc0, Hc1, Hc2.
    change (Ascii.eqb "." ".") with true. cbn [andb].
    rewrite value_of_digits_cents, Hvalue, Hval, Hcv.
    f_equal. f_equal. pose proof (N.div_mod h 100 ltac:(lia)). lia. }
  destruct neg.
  - change (list_ascii_of_string "-") with ["-"%char]. cbn [app].
    change (Ascii.eqb "-" "-") with true. cbv iota. apply Hbody.
    cbn [app]. reflexivity.
  - change (list_ascii_of_string "") with (@nil ascii). cbn [app].
    rewrite (is_digit_not_minus c0 Hc0). apply Hbody. reflexivity.
Qed.

(** C8.  For statistics whose top vendor is a string, a boolean or
    None, at a clock reading of the present, [build_summary] builds the
    text [<count> transactions captured. Top vendor: <vendor>. Total
    spend: $<amount>.], where the count is the decimal numeral of
    [total_transactions], the vendor is [N/A] for None, the empty
    string and False, and the amount shows [total_amount] to the
    nearest hundredth with thousands separators; and the key
    [summaries/summary-<stamp>.json], where the stamp is the fourteen
    digits of the clock's year, month, day, hour, minute and second.
    When the bucket accepts it, the document [{summary, stats}] is
    written there under that key as [application/json], and the key is
    returned as summaryKey; [build_summary] returns in no other case.
    For a top vendor that is a number or a binary it raises and writes
    nothing. *)
Theorem build_summary_publishes (E : environment) (st : Stats) (w : world) :
  (printable_vendor (biggest_vendor st) = true ->
   present_datetime (clock E (ticks w)) = true ->
   exists count vendor money stamp vendor_doc,
     read_int count = Some (total_transactions st)
     /\ vendor = match biggest_vendor st with
                 | KStr name => if String.eqb name "" then "N/A" else name
                 | KBool true => "True"
                 | _ => "N/A"
                 end
     /\ shows_amount (total_amount st) money
     /\ read_timestamp stamp
        = Some [year (clock E (ticks w)); month (clock E (ticks w));
                day (clock E (ticks w)); hour (clock E (ticks w));
                minute (clock E (ticks w)); second (clock E (ticks w))]
     /\ vendor_doc = match biggest_vendor st with
                     | KStr name => JStr name
                     | KBool b => JBool b
                     | _ => JNull
                     end
     /\ let text :=
          count ++ " transactions captured. Top vendor: " ++ vendor
            ++ ". Total spend: $" ++ money ++ "." in
        let key := "summaries/summary-" ++ stamp ++ ".json" in
        let request :=
          {| Bucket := "acct-ai-uploads-https";
             Key := key;
             Body :=
               JObj [("summary", JStr text);
                     ("stats",
                      JObj [("total_transactions", JInt (total_transactions st));
                            ("total_amount", JFloat (total_amount st));
                            ("biggest_vendor", vendor_doc);
                            ("generated_at", JStr (generated_at st))])];
             ContentType := "application/json" |} in
        (s3_put_object E request = Answer tt ->
         build_summary E st w
         = Some (Ok {| status := "success"; summary := text; stats := st;
                       summaryKey := key |},
                 {| ticks := S (ticks w);
                    bucket := (bucket w ++ [request])%list |}))
        /\ (forall p w',
              build_summary E st w = Some (Ok p, w') ->
              s3_put_object E request = Answer tt))
  /\ (printable_vendor (biggest_vendor st) = false ->
      exists exc w',
        build_summary E st w = Some (Raise (TypeError exc), w')
        /\ bucket w' = bucket w).
Proof.
  split.
  - intros Hvendor Hnow.
    exists (str_Z (total_transactions st)).
    eexists. exists (format_comma_2f (total_amount st)).
    exists (strftime_YmdHMS (clock E (ticks w))). eexists.
    split; [apply read_int_str_Z|]. split; [reflexivity|].
    split; [apply format_comma_2f_spec|].
    split; [apply strftime_YmdHMS_spec; exact Hnow|].
    split; [reflexivity|].
    assert (Htext : summary_text_of st
                    = Ok (str_Z (total_transactions st)
                            ++ " transactions captured. Top vendor: "
                            ++ match biggest_vendor st with
                               | KStr name =>
                                   if String.eqb name "" then "N/A" else name
                               | KBool true => "True"
                               | _ => "N/A"
                               end
                            ++ ". Total spend: $"
                            ++ format_comma_2f (total_amount st) ++ ".")).
    { unfold summary_text_of.
      destruct (biggest_vendor st) as [s c e|name|[|]| |b];
        try discriminate Hvendor; reflexivity. }
    assert (Hdoc : json_of_stats st
                   = Ok (JObj [("total_transactions",
                                JInt (total_transactions st));
                               ("total_amount", JFloat (total_amount st));
                               ("biggest_vendor",
                                match biggest_vendor st with
                                | KStr name => JStr name
                                | KBool b => JBool b
                                | _ => JNull
                                end);
                               ("generated_at", JStr (generated_at st))])).
    { unfold json_of_stats.
      destruct (biggest_vendor st) as [s c e|name|b| |b];
        try discriminate Hvendor; reflexivity. }
    cbv zeta. split.
    + intros Hput.
      unfold build_summary, bind, lift. rewrite Htext.
      unfold utcnow. cbv beta iota. rewrite Hdoc. cbv beta iota.
      unfold put_object. cbv beta iota zeta.
      match type of Hput with
      | s3_put_object E ?request = _ =>
          change (s3_put_object E _) with (s3_put_object E request)
      end.
      rewrite Hput. reflexivity.
    + intros p w' Hrun.
      unfold build_summary, bind, lift in Hrun. rewrite Htext in Hrun.
      unfold utcnow in Hrun. cbv beta iota in Hrun. rewrite Hdoc in Hrun.
      cbv beta iota in Hrun. unfold put_object in Hrun.
      cbv beta iota zeta in Hrun.
      match goal with
      | |- s3_put_object E ?request = _ =>
          change (s3_put_object E _) with (s3_put_object E request) in Hrun;
          destruct (s3_put_object E request) as [[]|code message operation]
      end; [reflexivity | discriminate].
  - intros Hvendor.
    destruct (biggest_vendor st) as [s c e|name|b| |b] eqn:Hbig;
      try discriminate Hvendor.
    + eexists. eexists. split.
      * unfold build_summary, bind, lift, summary_text_of. rewrite Hbig.
        cbn [vendor_text rbind]. unfold utcnow. cbv beta iota.
        unfold json_of_stats. rewrite Hbig. reflexivity.
      * reflexivity.
    + eexists. eexists. split.
      * unfold build_summary, bind, lift, summary_text_of. rewrite Hbig.
        reflexivity.
      * reflexivity.
Qed.

Lemma build_summary_publishes_witness :
  exists count money stamp,
    read_int count = Some 3
    /\ shows_amount (total_amount scenario_stats) money
    /\ read_timestamp stamp = Some [2024; 3; 9; 12; 0; 7]%N
    /\ let text :=
         count ++ " transactions captured. Top vendor: A. Total spend: $"
           ++ money ++ "." in
       let key := "summaries/summary-" ++ stamp ++ ".json" in
       build_summary (table_of []) scenario_stats initial_world
       = Some (Ok {| status := "success"; summary := text;
                     stats := scenario_stats; summaryKey := key |},
               {| ticks := 1;
                  bucket :=
                    [{| Bucket := "acct-ai-uploads-https";
                        Key := key;
                        Body := JObj [("summary", JStr text);
                                      ("stats", scenario_stats_doc)];
                        ContentType := "application/json" |}] |}).
Proof.
  destruct (proj1 (build_summary_publishes (table_of []) scenario_stats
                     initial_world) eq_refl eq_refl)
    as (count & vendor & money & stamp & vendor_doc
        & Hcount & Hvendor & Hmoney & Hstamp & Hdoc & Hrun & _).
  exists count, money, stamp.
  split; [exact Hcount|]. split; [exact Hmoney|]. split; [exact Hstamp|].
  cbv zeta in *. rewrite Hvendor, Hdoc in Hrun. exact (Hrun eq_refl).
Defined.

(** The snapshot of the scenario, as it is written. *)
Example scenario_snapshot_published :
  build_summary (table_of []) scenario_stats initial_world
  = Some (Ok {| status := "success";
                summary := scenario_summary;
                stats := scenario_stats;
                summaryKey := scenario_key |},
          {| ticks := 1; bucket := [scenario_snapshot] |}).
Proof. vm_compute. reflexivity. Qed.

(** A record whose vendor is a number gives statistics for which
    nothing is published, although the bucket accepts every write:
    [json.dumps] does not render the Decimal that is the top vendor. *)
Lemma build_summary_numeric_vendor_counterexample :
  exists st w1 w2,
    compute_stats (table_of []) [record_numeric_vendor] initial_world
    = Some (Ok st, w1)
    /\ total_transactions st = 1
    /\ biggest_vendor st = KDecimal false 7 0
    /\ (forall request, s3_put_object (table_of []) request = Answer tt)
    /\ build_summary (table_of []) st w1
       = Some (Raise (TypeError "Object of type Decimal is not JSON serializable"),
               w2)
    /\ bucket w2 = [].
Proof.
  eexists. eexists. eexists.
  split; [vm_compute; reflexivity|]. split; [reflexivity|].
  split; [reflexivity|]. split; [reflexivity|].
  split; [vm_compute; reflexivity | reflexivity].
Qed.
